(** * Joybus / SI protocol decoder: a shallow embedding and its properties

    The development follows [joybus/pd.py] (the complete decoder) and the
    bit reader of [si/pd.py].  The decoder is a Python class driven by the
    host's query engine: [self.wait] blocks until a condition on the signal
    holds, [self.put] hands an annotation to the host.  Both are threaded
    through an explicit state here, and Python exceptions are a result
    constructor of their own. *)

From Stdlib Require Import ZArith List Bool Lia String Ascii.
From Stdlib Require Import PrimFloat SpecFloat FloatOps Uint63.
Import ListNotations.
Open Scope Z_scope.

(** ** Timing arithmetic

    [us_to_samples] computes [math.floor(self.samplerate / 1000000 * us)].
    The division of two Python ints and the product are IEEE-754 binary64
    operations, so they are embedded with primitive floats.  The conversion
    of the sample rate is exact below [2^53], which is the range in which the
    embedding is faithful. *)

Definition float_of_int (n : Z) : float :=
  if n <? 0 then PrimFloat.opp (PrimFloat.of_uint63 (Uint63.of_Z (- n)))
  else PrimFloat.of_uint63 (Uint63.of_Z n).

(** [math.floor] on a finite float: the mantissa shifted by the exponent,
    rounded towards minus infinity. *)
Definition math_floor (x : float) : Z :=
  match Prim2SF x with
  | S754_finite s m e =>
      let v := if s then Z.neg m else Z.pos m in
      if 0 <=? e then Z.shiftl v e else Z.shiftr v (- e)
  | _ => 0
  end.

Definition us_to_samples (samplerate : Z) (us : float) : Z :=
  math_floor (PrimFloat.mul (PrimFloat.div (float_of_int samplerate) 1000000%float) us).

(** ** The host: sample source and annotation sink

    The decoder sees the captured signal through [self.wait] and
    [self.samplenum], and hands annotations to [self.put].  The host is the
    sigrok decoding library, which is not part of the repository; it is
    embedded as a cursor over the finite list of captured samples.

    [line] holds the samples from the current one onwards, so its head is
    the sample at [samplenum].  A query scans forward from the current
    sample, whose predecessor for edge detection is itself (the library
    remembers the pins of the last sample it handed out), so an edge is
    never found at the current sample while a level or a zero skip is.
    When the capture ends before a condition holds the host stops the
    decoder where it is: [Eof], which is not an exception of the decoder's
    and which no handler sees. *)

Inductive cond : Type :=
| Rising            (* {0: "r"} *)
| Falling           (* {0: "f"} *)
| High              (* {0: "h"} *)
| Skip (n : Z).     (* {"skip": n} *)

Record Annotation : Type := mkAnn
  { ss : Z; es : Z; ann_class : Z; texts : list string }.

Record World (D : Type) : Type := mkWorld
  { self : D;
    samplenum : Z;
    line : list bool;
    out : list Annotation }.

Arguments mkWorld {D}.
Arguments self {D}.
Arguments samplenum {D}.
Arguments line {D}.
Arguments out {D}.

Inductive exn : Type :=
| Exception (msg : string)
| AttributeError (msg : string).

Definition str (e : exn) : string :=
  match e with Exception m => m | AttributeError m => m end.

Inductive result (D A : Type) : Type :=
| Ok (a : A) (w : World D)
| Raise (e : exn) (w : World D)
| Eof (w : World D).

Arguments Ok {D A}.
Arguments Raise {D A}.
Arguments Eof {D A}.

Definition M (D A : Type) : Type := World D -> result D A.

Definition ret {D A} (a : A) : M D A := fun w => Ok a w.

Definition bind {D A B} (m : M D A) (k : A -> M D B) : M D B :=
  fun w => match m w with
           | Ok a w' => k a w'
           | Raise e w' => Raise e w'
           | Eof w' => Eof w'
           end.

Notation "x <- m ;; k" := (bind m (fun x => k))
  (at level 61, m at next level, right associativity).
Notation "m ;;; k" := (bind m (fun _ => k))
  (at level 61, right associativity).

Definition raise {D A} (e : exn) : M D A := fun w => Raise e w.

(** [try: m except Exception as e: h e] *)
Definition try_except {D A} (m : M D A) (h : exn -> M D A) : M D A :=
  fun w => match m w with
           | Raise e w' => h e w'
           | r => r
           end.

Definition get_self {D} : M D D := fun w => Ok (self w) w.

Definition set_self {D} (d : D) : M D unit :=
  fun w => Ok tt (mkWorld d (samplenum w) (line w) (out w)).

Definition get_samplenum {D} : M D Z := fun w => Ok (samplenum w) w.

(** [self.put(ss, es, self.out_ann, [cls, texts])] *)
Definition put {D} (ss es cls : Z) (txt : list string) : M D unit :=
  fun w => Ok tt (mkWorld (self w) (samplenum w) (line w)
                          (out w ++ [mkAnn ss es cls txt])).

Definition cond_matches (i : Z) (old s : bool) (c : cond) : bool :=
  match c with
  | Rising => negb old && s
  | Falling => old && negb s
  | High => s
  | Skip n => i =? n
  end.

(** The scan of one query: [i] samples have been passed over, [old] is the
    sample before the head of [l].  Returns the number of samples passed and
    the signal from the matching sample onwards. *)
Fixpoint find_match (conds : list cond) (i : Z) (old : bool) (l : list bool)
  : option (Z * list bool) :=
  match l with
  | [] => None
  | s :: rest =>
      if existsb (cond_matches i old s) conds then Some (i, l)
      else find_match conds (i + 1) s rest
  end.

(** [(si,) = self.wait(conds)]: the pin at the matching sample. *)
Definition wait {D} (conds : list cond) : M D bool :=
  fun w =>
    match line w with
    | [] => Eof w
    | s0 :: _ =>
        match find_match conds 0 s0 (line w) with
        | Some (i, s :: rest) =>
            Ok s (mkWorld (self w) (samplenum w + i) (s :: rest) (out w))
        | _ => Eof (mkWorld (self w) (samplenum w + Z.of_nat (List.length (line w))) [] (out w))
        end
    end.

(** [for _ in range(n)] with the variables the body rebinds as accumulator. *)
Fixpoint for_range {D A} (n : nat) (body : A -> M D A) (acc : A) : M D A :=
  match n with
  | O => ret acc
  | S n' => acc' <- body acc ;; for_range n' body acc'
  end.

(** ** Formatting *)

Definition hex_digit (d : Z) : ascii :=
  match d with
  | 0 => "0" | 1 => "1" | 2 => "2" | 3 => "3" | 4 => "4" | 5 => "5"
  | 6 => "6" | 7 => "7" | 8 => "8" | 9 => "9" | 10 => "A" | 11 => "B"
  | 12 => "C" | 13 => "D" | 14 => "E" | _ => "F"
  end%char.

Fixpoint hex_digits (fuel : nat) (n : Z) (acc : string) : string :=
  match fuel with
  | O => acc
  | S fuel' =>
      let acc' := String (hex_digit (n mod 16)) acc in
      if n <? 16 then acc' else hex_digits fuel' (n / 16) acc'
  end.

(** [f"{n:02X}"] for [n >= 0]: upper-case hexadecimal, zero-padded to two
    digits. *)
Definition format_02X (n : Z) : string :=
  let s := hex_digits (S (Z.to_nat (Z.log2 n))) n EmptyString in
  if (String.length s <? 2)%nat then String "0"%char s else s.

(** [str(bit)] for the two bit values. *)
Definition str_bit (b : Z) : string := if b =? 0 then "0"%string else "1"%string.

(** ** The command table *)

Record CommandSpec : Type := mkCommand
  { name : string; command_len : Z; response_len : Z }.

Fixpoint lookup (k : Z) (d : list (Z * CommandSpec)) : option CommandSpec :=
  match d with
  | [] => None
  | (k', v) :: d' => if k =? k' then Some v else lookup k d'
  end.

Definition SRD_CONF_SAMPLERATE : Z := 10000.

(** ** joybus/pd.py *)

Module Joybus.

(** The dict as the list of its items, whose keys are distinct;
    [command in JOYBUS_COMMANDS] is [lookup command JOYBUS_COMMANDS] being
    [Some]. *)
Definition JOYBUS_COMMANDS : list (Z * CommandSpec) :=
  [ (0x00, mkCommand "Info" 1 3);
    (0x01, mkCommand "Controller State" 1 4);
    (0x02, mkCommand "Read Accessory" 3 33);
    (0x03, mkCommand "Write Accessory" 35 1);
    (0x04, mkCommand "Read EEPROM" 2 8);
    (0x05, mkCommand "Write EEPROM" 10 1);
    (0x14, mkCommand "Read GBA" 3 33);
    (0x15, mkCommand "Write GBA" 35 1);
    (0x40, mkCommand "Short Poll" 3 8);
    (0x41, mkCommand "Read Origin" 1 10);
    (0x42, mkCommand "Calibrate" 3 10);
    (0x43, mkCommand "Long Poll" 3 10);
    (0x4E, mkCommand "Fix Device" 3 3);
    (0x54, mkCommand "Keyboard Poll" 3 8);
    (0xFF, mkCommand "Reset" 1 3) ].

Inductive State : Type := INITIAL | IDLE | COMMAND.

(** The attributes of the decoder object.  [samplerate] is [None] until
    [metadata] has assigned it; the timing attributes are assigned together
    with it and are read only after [decode] has checked it. *)
Record Decoder : Type := mkDecoder
  { state : State;
    samplerate : option Z;
    idle_min_samples : Z;
    bit_midpoint_samples : Z;
    bit_command_samples : Z;
    bit_response_samples : Z;
    bit_timeout_samples : Z;
    response_timeout_samples : Z }.

(** The object after [self.state = s]. *)
Definition with_state (s : State) (d : Decoder) : Decoder :=
  mkDecoder s (samplerate d) (idle_min_samples d)
    (bit_midpoint_samples d) (bit_command_samples d)
    (bit_response_samples d) (bit_timeout_samples d)
    (response_timeout_samples d).

Definition set_state (s : State) : M Decoder unit :=
  d <- get_self ;;
  set_self (with_state s d).

(** [__init__] calls [reset], which assigns [state] only. *)
Definition reset (d : Decoder) : Decoder := with_state INITIAL d.

Definition init : Decoder := mkDecoder INITIAL None 0 0 0 0 0 0.

Definition metadata (key value : Z) (d : Decoder) : Decoder :=
  if key =? SRD_CONF_SAMPLERATE then
    mkDecoder (state d) (Some value)
      (us_to_samples value 100%float)
      (us_to_samples value 2.5%float)
      (us_to_samples value 5%float)
      (us_to_samples value 4%float)
      (us_to_samples value 10%float)
      (us_to_samples value 50%float)
  else d.

Definition putg (ss es cls : Z) (txt : list string) : M Decoder unit :=
  put ss es cls txt.

Definition command_name (command : Z) : string :=
  match lookup command JOYBUS_COMMANDS with
  | Some c => name c
  | None => ("0x" ++ format_02X command)%string
  end.

Definition put_command (ss es command : Z) : M Decoder unit :=
  putg ss es 0 [("Command: " ++ command_name command)%string; command_name command].

Definition data_texts (data : Z) : list string :=
  [ ("Data: 0x" ++ format_02X data)%string;
    ("0x" ++ format_02X data)%string;
    format_02X data ].

Definition put_command_data (ss es data : Z) : M Decoder unit :=
  putg ss es 1 (data_texts data).

Definition put_response_data (ss es data : Z) : M Decoder unit :=
  putg ss es 2 (data_texts data).

Definition put_bit (ss es bit : Z) : M Decoder unit :=
  putg ss es 3 [str_bit bit].

Definition put_stop_bit (ss es : Z) : M Decoder unit :=
  putg ss es 4 ["Stop"%string; "S"%string].

(** [0 if low_duration > self.bit_midpoint_samples else 1] *)
Definition bit_value_of (low_duration midpoint : Z) : Z :=
  if low_duration >? midpoint then 0 else 1.

Definition read_bit : M Decoder Z :=
  bit_start <- get_samplenum ;;
  d <- get_self ;;
  (* Wait for the low pulse to end *)
  si <- wait [Rising; Skip (bit_timeout_samples d)] ;;
  if negb si then raise (Exception "Bit timeout") else
  (* Measure the duration of the low pulse *)
  now <- get_samplenum ;;
  let low_duration := now - bit_start in
  let bit_value := bit_value_of low_duration (bit_midpoint_samples d) in
  (* Wait for the high pulse to end *)
  si <- wait [Falling; Skip (bit_timeout_samples d)] ;;
  if si then raise (Exception "Bit timeout") else
  now <- get_samplenum ;;
  put_bit bit_start now bit_value ;;;
  ret bit_value.

Definition read_byte : M Decoder (Z * Z) :=
  byte_start <- get_samplenum ;;
  byte_value <- for_range 8
      (fun byte_value =>
         bit_value <- read_bit ;;
         ret (Z.lor (Z.shiftl byte_value 1) bit_value))
      0 ;;
  ret (byte_start, byte_value).

Definition read_stop_bit (width : option Z) : M Decoder unit :=
  stop_start <- get_samplenum ;;
  wait [Rising] ;;;
  match width with
  | None => now <- get_samplenum ;; put_stop_bit stop_start now
  | Some width => put_stop_bit stop_start (stop_start + width)
  end.

Definition range_len (lo hi : Z) : nat := Z.to_nat (hi - lo).

(** The statements of the [try] block after its first one, which has bound
    [command_start] and [command]. *)
Definition command_rest (command_start command : Z) : M Decoder unit :=
  now <- get_samplenum ;;
  put_command command_start now command ;;;
  match lookup command JOYBUS_COMMANDS with
  | None => raise (Exception "Unknown command")
  | Some spec =>
      (* Read command data bytes if needed *)
      for_range (range_len 1 (command_len spec))
        (fun _ =>
           sb <- read_byte ;;
           now <- get_samplenum ;;
           put_command_data (fst sb) now (snd sb))
        tt ;;;
      (* Read command stop bit *)
      d <- get_self ;;
      read_stop_bit (Some (bit_command_samples d)) ;;;
      (* Wait for the response *)
      si <- wait [Falling; Skip (response_timeout_samples d)] ;;
      if si then raise (Exception "Response timeout") else
      (* Read response bytes *)
      for_range (range_len 0 (response_len spec))
        (fun _ =>
           sb <- read_byte ;;
           now <- get_samplenum ;;
           put_response_data (fst sb) now (snd sb))
        tt ;;;
      (* Read response stop bit *)
      read_stop_bit (Some (bit_response_samples d)) ;;;
      (* Return to idle state *)
      set_state IDLE
  end.

(** The [except] clause, which reads the local [command_start]. *)
Definition on_exception (command_start : Z) (e : exn) : M Decoder unit :=
  now <- get_samplenum ;;
  putg command_start now 5 [str e] ;;;
  set_state INITIAL.

(** The [COMMAND] branch.  The first statement of the [try] block rebinds
    [command_start], so the one [except] clause is entered with the outer
    binding when [read_byte] raises and with the new one afterwards. *)
Definition command_branch : M Decoder unit :=
  command_start <- get_samplenum ;;
  try_except
    (sb <- read_byte ;;
     try_except (command_rest (fst sb) (snd sb)) (on_exception (fst sb)))
    (on_exception command_start).

(** The [try] block as a whole, before any handler. *)
Definition command_try : M Decoder unit :=
  sb <- read_byte ;;
  command_rest (fst sb) (snd sb).

(** One iteration of [while True]. *)
Definition decode_iteration : M Decoder unit :=
  d <- get_self ;;
  match state d with
  | INITIAL =>
      wait [High] ;;;
      si <- wait [Falling; Skip (idle_min_samples d)] ;;
      if si then set_state IDLE else ret tt
  | IDLE =>
      wait [Falling] ;;;
      set_state COMMAND
  | COMMAND => command_branch
  end.

(** [while True] unrolled [fuel] times; [Ok] means the fuel ran out. *)
Fixpoint decode_loop (fuel : nat) : M Decoder unit :=
  match fuel with
  | O => ret tt
  | S fuel' => decode_iteration ;;; decode_loop fuel'
  end.

Definition decode (fuel : nat) : M Decoder unit :=
  d <- get_self ;;
  match samplerate d with
  | None => raise (AttributeError "'Decoder' object has no attribute 'samplerate'")
  | Some 0 => raise (Exception "Cannot decode without samplerate.")
  | Some _ => decode_loop fuel
  end.

End Joybus.

(** ** si/pd.py: the bit reader

    The earlier decoder waits for the edges without a time limit and names
    its threshold [low_midpoint_samples]. *)

Module SI.

Inductive State : Type := INITIAL | IDLE | COMMAND.

Record Decoder : Type := mkDecoder
  { state : State;
    samplerate : option Z;
    idle_min_samples : Z;
    low_midpoint_samples : Z }.

(** The method reads [self.samplerate], which [metadata] has just assigned. *)
Definition us_to_samples (d : Decoder) (us : float) : Z :=
  match samplerate d with
  | Some r => us_to_samples r us
  | None => 0
  end.

Definition metadata (key value : Z) (d : Decoder) : Decoder :=
  if key =? SRD_CONF_SAMPLERATE then
    let d' := mkDecoder (state d) (Some value) (idle_min_samples d) (low_midpoint_samples d) in
    let d'' := mkDecoder (state d') (samplerate d') (us_to_samples d' 100%float)
                 (low_midpoint_samples d') in
    mkDecoder (state d'') (samplerate d'') (idle_min_samples d'')
      (us_to_samples d'' 2.5%float)
  else d.

(** [self.put(start, self.samplenum, self.out_ann, [3, [str(bit)]])] *)
Definition put_bit (start bit : Z) : M Decoder unit :=
  now <- get_samplenum ;;
  put start now 3 [str_bit bit].

Definition read_bit : M Decoder Z :=
  bit_start <- get_samplenum ;;
  (* Measure the duration of the low pulse *)
  wait [Rising] ;;;
  now <- get_samplenum ;;
  let low_duration := now - bit_start in
  d <- get_self ;;
  (* Determine the bit value based on the duration of the low pulse *)
  let bit_value := if low_duration >? low_midpoint_samples d then 0 else 1 in
  (* Wait for the high pulse to end *)
  wait [Falling] ;;;
  (* Add bit annotation *)
  put_bit bit_start bit_value ;;;
  ret bit_value.

(** *** The rest of si/pd.py *)

Definition SI_COMMANDS : list (Z * CommandSpec) :=
  [ (0x00, mkCommand "Info" 1 3);
    (0x40, mkCommand "Short Poll" 3 8);
    (0x41, mkCommand "Read Origin" 1 10);
    (0x42, mkCommand "Calibrate" 3 10);
    (0x43, mkCommand "Long Poll" 3 10);
    (0x4E, mkCommand "Fix Device" 3 3);
    (0xFF, mkCommand "Reset" 1 3) ].

Definition with_state (s : State) (d : Decoder) : Decoder :=
  mkDecoder s (samplerate d) (idle_min_samples d) (low_midpoint_samples d).

Definition set_state (s : State) : M Decoder unit :=
  d <- get_self ;;
  set_self (with_state s d).

Definition reset (d : Decoder) : Decoder := with_state INITIAL d.

Definition init : Decoder := mkDecoder INITIAL None 0 0.

Definition command_name (command : Z) : string :=
  match lookup command SI_COMMANDS with
  | Some c => name c
  | None => ("0x" ++ format_02X command)%string
  end.

Definition put_command (start command : Z) : M Decoder unit :=
  now <- get_samplenum ;;
  put start now 0 [("Command: " ++ command_name command)%string].

Definition put_command_data (start data : Z) : M Decoder unit :=
  now <- get_samplenum ;;
  put start now 1 [("Data: 0x" ++ format_02X data)%string].

Definition put_response_data (start data : Z) : M Decoder unit :=
  now <- get_samplenum ;;
  put start now 2 [("Data: 0x" ++ format_02X data)%string].

Definition put_stop_bit (start : Z) : M Decoder unit :=
  now <- get_samplenum ;;
  put start now 4 ["S"%string].

Definition read_byte : M Decoder (Z * Z) :=
  byte_start <- get_samplenum ;;
  byte_value <- for_range 8
      (fun byte_value =>
         bit_value <- read_bit ;;
         ret (Z.lor (Z.shiftl byte_value 1) bit_value))
      0 ;;
  ret (byte_start, byte_value).

Definition read_stop_bit : M Decoder unit :=
  stop_start <- get_samplenum ;;
  wait [Rising] ;;;
  put_stop_bit stop_start.

(** The [COMMAND] branch: no [try], no time limits, and an opcode the table
    does not have is read as a command without data and without response. *)
Definition command_branch : M Decoder unit :=
  (* Read the command byte *)
  sb <- read_byte ;;
  let command_start := fst sb in
  let command := snd sb in
  put_command command_start command ;;;
  (* Read command data bytes if needed *)
  match lookup command SI_COMMANDS with
  | Some spec =>
      for_range (Z.to_nat (command_len spec - 1))
        (fun _ => db <- read_byte ;; put_command_data (fst db) (snd db)) tt
  | None => ret tt
  end ;;;
  (* Read command stop bit *)
  read_stop_bit ;;;
  (* Wait for the response *)
  wait [Falling] ;;;
  (* Read response bytes *)
  match lookup command SI_COMMANDS with
  | Some spec =>
      for_range (Z.to_nat (response_len spec))
        (fun _ => rb <- read_byte ;; put_response_data (fst rb) (snd rb)) tt
  | None => ret tt
  end ;;;
  (* Read response stop bit *)
  read_stop_bit ;;;
  (* Return to idle state *)
  set_state IDLE.

Definition decode_iteration : M Decoder unit :=
  d <- get_self ;;
  match state d with
  | INITIAL =>
      wait [High] ;;;
      si <- wait [Falling; Skip (idle_min_samples d)] ;;
      if si then set_state IDLE else ret tt
  | IDLE =>
      wait [Falling] ;;;
      set_state COMMAND
  | COMMAND => command_branch
  end.

Fixpoint decode_loop (fuel : nat) : M Decoder unit :=
  match fuel with
  | O => ret tt
  | S fuel' => decode_iteration ;;; decode_loop fuel'
  end.

Definition decode (fuel : nat) : M Decoder unit :=
  d <- get_self ;;
  match samplerate d with
  | None => raise (AttributeError "'Decoder' object has no attribute 'samplerate'")
  | Some 0 => raise (Exception "Cannot decode without samplerate.")
  | Some _ => decode_loop fuel
  end.

End SI.

(** ** The signal seen as runs of equal samples *)

(** [run b n]: the line held at level [b] for [n] samples. *)
Definition run (b : bool) (n : Z) : list bool := repeat b (Z.to_nat n).

(** The edge that ends a run at level [b]. *)
Definition leave (b : bool) : cond := if b then Falling else Rising.

(** The world after the host has moved the cursor [k] samples on. *)
Definition advance {D} (w : World D) (k : Z) (l : list bool) : World D :=
  mkWorld (self w) (samplenum w + k) l (out w).

(** No condition of [conds] holds on samples [i .. i+k-1] of a run at
    level [b]. *)
Definition quiet (conds : list cond) (b : bool) (i k : Z) : Prop :=
  forall c j, In c conds -> i <= j < i + k -> cond_matches j b b c = false.

(** A bit cell on the wire: [lo] samples low, then [hi] samples high. *)
Definition cell : Type := (Z * Z)%type.

Definition cell_wire (c : cell) : list bool := run false (fst c) ++ run true (snd c).

Definition cells_wire (cs : list cell) : list bool := flat_map cell_wire cs.

Definition cell_len (c : cell) : Z := fst c + snd c.

Definition cells_len (cs : list cell) : Z := fold_right (fun c n => cell_len c + n) 0 cs.

(** The bits of a byte, most significant first. *)
Definition bits_of_byte (v : Z) : list Z :=
  map (fun i => if Z.testbit v i then 1 else 0) [7; 6; 5; 4; 3; 2; 1; 0].

(** What [read_byte] does with the bits in the order it reads them. *)
Definition assemble (bits : list Z) : Z :=
  fold_left (fun byte_value bit_value => Z.lor (Z.shiftl byte_value 1) bit_value) bits 0.

(** The pulse widths, in samples, a transmitter uses for the two bit values. *)
Record BitTiming : Type := mkTiming
  { low0 : Z; high0 : Z; low1 : Z; high1 : Z }.

Definition encode_bit (T : BitTiming) (b : Z) : cell :=
  if b =? 0 then (low0 T, high0 T) else (low1 T, high1 T).

Definition encode_byte (T : BitTiming) (v : Z) : list cell :=
  map (encode_bit T) (bits_of_byte v).

Definition count_class (c : Z) (evs : list Annotation) : nat :=
  List.length (filter (fun a => ann_class a =? c) evs).

(** ** Frames on the wire

    The transmitter's side of the bus, used to state what the decoder makes
    of a given signal: bit cells, bytes of eight cells, and a whole
    command/response exchange, with the annotations the decoder is expected
    to put for them. *)

Definition ok_cell (d : Joybus.Decoder) (c : cell) : Prop :=
  1 <= fst c <= Joybus.bit_timeout_samples d /\
  1 <= snd c <= Joybus.bit_timeout_samples d.

Definition cell_bit (d : Joybus.Decoder) (c : cell) : Z :=
  Joybus.bit_value_of (fst c) (Joybus.bit_midpoint_samples d).

Definition cells_value (d : Joybus.Decoder) (cs : list cell) : Z :=
  assemble (map (cell_bit d) cs).

Fixpoint bit_events (d : Joybus.Decoder) (start : Z) (cs : list cell) : list Annotation :=
  match cs with
  | [] => []
  | c :: cs' =>
      mkAnn start (start + cell_len c) 3 [str_bit (cell_bit d c)]
        :: bit_events d (start + cell_len c) cs'
  end.

Definition ok_byte (d : Joybus.Decoder) (b : list cell) : Prop :=
  List.length b = 8%nat /\ Forall (ok_cell d) b.

Definition bytes_wire (bs : list (list cell)) : list bool := flat_map cells_wire bs.

Definition bytes_len (bs : list (list cell)) : Z :=
  fold_right (fun b n => cells_len b + n) 0 bs.

Fixpoint byte_events (d : Joybus.Decoder) (cls : Z) (start : Z) (bs : list (list cell))
  : list Annotation :=
  match bs with
  | [] => []
  | b :: bs' =>
      bit_events d start b
        ++ mkAnn start (start + cells_len b) cls (Joybus.data_texts (cells_value d b))
        :: byte_events d cls (start + cells_len b) bs'
  end.

Record Frame : Type := mkFrame
  { opcode : list cell;
    command_data : list (list cell);
    command_stop : Z;          (* low phase of the command's stop bit *)
    gap : Z;                   (* high phase before the response starts *)
    response_data : list (list cell);
    response_stop : Z }.       (* low phase of the response's stop bit *)

Definition frame_wire (f : Frame) : list bool :=
  cells_wire (opcode f) ++ bytes_wire (command_data f)
    ++ run false (command_stop f) ++ run true (gap f)
    ++ bytes_wire (response_data f) ++ run false (response_stop f).

Definition frame_len (f : Frame) : Z :=
  cells_len (opcode f) + bytes_len (command_data f) + command_stop f + gap f
    + bytes_len (response_data f) + response_stop f.

Definition command_event (d : Joybus.Decoder) (start : Z) (op : list cell) : Annotation :=
  mkAnn start (start + cells_len op) 0
    [("Command: " ++ Joybus.command_name (cells_value d op))%string;
     Joybus.command_name (cells_value d op)].

Definition stop_event (start width : Z) : Annotation :=
  mkAnn start (start + width) 4 ["Stop"%string; "S"%string].

Definition frame_events (d : Joybus.Decoder) (start : Z) (f : Frame) : list Annotation :=
  let p1 := start + cells_len (opcode f) in
  let p2 := p1 + bytes_len (command_data f) in
  let p3 := p2 + command_stop f + gap f in
  let p4 := p3 + bytes_len (response_data f) in
  bit_events d start (opcode f)
    ++ command_event d start (opcode f)
    :: byte_events d 1 p1 (command_data f)
    ++ stop_event p2 (Joybus.bit_command_samples d)
    :: byte_events d 2 p3 (response_data f)
    ++ [stop_event p4 (Joybus.bit_response_samples d)].

(** A frame for the table entry [spec], within the decoder's timing bounds. *)
Definition wf_frame (d : Joybus.Decoder) (spec : CommandSpec) (f : Frame) : Prop :=
  ok_byte d (opcode f) /\
  lookup (cells_value d (opcode f)) Joybus.JOYBUS_COMMANDS = Some spec /\
  Z.of_nat (List.length (command_data f)) = command_len spec - 1 /\
  Forall (ok_byte d) (command_data f) /\
  1 <= command_stop f /\
  1 <= gap f <= Joybus.response_timeout_samples d /\
  Z.of_nat (List.length (response_data f)) = response_len spec /\
  Forall (ok_byte d) (response_data f) /\
  1 <= response_stop f.

(** ** Observations on the decoder's runs *)

(** [reads_bits w bits w']: successive calls of [read_bit] from [w] return
    [bits], in this order, and end in [w']. *)
Inductive reads_bits : World Joybus.Decoder -> list Z -> World Joybus.Decoder -> Prop :=
| reads_nil w : reads_bits w [] w
| reads_cons w b w1 bs w' :
    Joybus.read_bit w = Ok b w1 -> reads_bits w1 bs w' -> reads_bits w (b :: bs) w'.

Definition world_of {D A} (r : result D A) : World D :=
  match r with Ok _ w => w | Raise _ w => w | Eof w => w end.

(** The three failures a frame can end with. *)
Definition frame_failure (e : exn) : Prop :=
  e = Exception "Bit timeout" \/ e = Exception "Unknown command"
  \/ e = Exception "Response timeout".

(** What every part of the [try] block does to the world, whatever the
    signal: it leaves the decoder object alone or assigns [state] only, it
    appends annotations that satisfy [P], it raises nothing but the three
    frame failures, and it moves the cursor forwards if at all. *)
Definition frame_local {A} (P : Annotation -> Prop) (m : M Joybus.Decoder A) : Prop :=
  forall w,
    (exists s, self (world_of (m w)) = Joybus.with_state s (self w)) /\
    (exists evs, out (world_of (m w)) = out w ++ evs /\ Forall P evs) /\
    (forall e w', m w = Raise e w' -> frame_failure e) /\
    (List.length (line (world_of (m w))) <= List.length (line w))%nat.

(** What is left of the decoder's work: the samples ahead, and within one
    sample the states in the order the loop can pass through them without
    moving. *)
Definition rank (s : Joybus.State) : nat :=
  match s with Joybus.COMMAND => 2 | Joybus.INITIAL => 1 | Joybus.IDLE => 0 end.

Definition measure (w : World Joybus.Decoder) : nat :=
  3 * List.length (line w) + rank (Joybus.state (self w)).

(** The annotations of the [try] block: everything but errors. *)
Definition not_error (a : Annotation) : Prop := ann_class a <> 5.

(** The transmitter's pulse widths are ones the decoder [d] tells apart. *)
Definition valid_timing (d : Joybus.Decoder) (T : BitTiming) : Prop :=
  Joybus.bit_midpoint_samples d < low0 T <= Joybus.bit_timeout_samples d /\
  1 <= low1 T <= Joybus.bit_midpoint_samples d /\
  low1 T <= Joybus.bit_timeout_samples d /\
  1 <= high0 T <= Joybus.bit_timeout_samples d /\
  1 <= high1 T <= Joybus.bit_timeout_samples d.

Definition is_bit (b : Z) : Prop := b = 0 \/ b = 1.

(** A frame as a transmitter with pulse widths [T] sends it. *)
Definition encode_frame (T : BitTiming) (op : Z) (cdata rdata : list Z)
    (cstop gap rstop : Z) : Frame :=
  mkFrame (encode_byte T op) (map (encode_byte T) cdata) cstop gap
    (map (encode_byte T) rdata) rstop.

(** Bus traffic that cannot pass for an idle bus: the high phase of the
    pulse ends within [idle_min_samples]. *)
Definition short_pulse (d : Joybus.Decoder) (c : cell) : Prop :=
  1 <= fst c /\ 1 <= snd c <= Joybus.idle_min_samples d.

Definition error_event (start stop : Z) (msg : string) : Annotation :=
  mkAnn start stop 5 [msg].

(** The sample under the cursor is low. *)
Definition line_low {D} (w : World D) : Prop := exists l, line w = false :: l.

(** The shapes of the signal at the cursor that decide [read_bit]. *)
Definition no_rise (n : Z) (l : list bool) : Prop :=
  exists rest, l = run false (n + 1) ++ rest.

Definition no_fall (n : Z) (l : list bool) : Prop :=
  exists k rest, 1 <= k <= n /\ l = run false k ++ run true (n + 1) ++ rest.

Definition both_edges (n : Z) (l : list bool) : Prop :=
  exists k h rest, 1 <= k <= n /\ 1 <= h <= n /\
    l = run false k ++ run true h ++ false :: rest.

Definition capture_ends (n : Z) (l : list bool) : Prop :=
  (exists k, 1 <= k <= n /\ l = run false k) \/
  (exists k h, 1 <= k <= n /\ 1 <= h <= n /\ l = run false k ++ run true h).

(** ** Concrete captures

    A decoder configured for 1 MHz, a transmitter whose pulses last 3+1
    samples for a 0 and 1+3 for a 1, and some captures at that rate. *)

Definition decoder_1MHz : Joybus.Decoder :=
  Joybus.metadata SRD_CONF_SAMPLERATE 1000000 Joybus.init.

Definition timing_1MHz : BitTiming := mkTiming 3 1 1 3.

Definition capture (d : Joybus.Decoder) (l : list bool) : World Joybus.Decoder :=
  mkWorld d 0 l [].

(** An Info exchange: opcode 0x00, no command data, three response bytes. *)
Definition info_frame : Frame :=
  encode_frame timing_1MHz 0x00 [] [0x09; 0x00; 0x20] 1 3 2.

(** An exchange with opcode 0x77, which the table does not have, cut short
    after two more pulses. *)
Definition unknown_capture : list bool :=
  run true 5 ++ cells_wire (encode_byte timing_1MHz 0x77)
    ++ cells_wire [(1, 3); (3, 1)] ++ run false 1 ++ run true (100 + 4)
    ++ frame_wire info_frame ++ true :: [true].

Definition info_capture : World Joybus.Decoder :=
  capture (Joybus.with_state Joybus.IDLE decoder_1MHz)
    (run true 5 ++ frame_wire info_frame ++ true :: [true]).

Definition info_spec : CommandSpec := mkCommand "Info" 1 3.

(** A low pulse of exactly the midpoint (two samples at 1 MHz). *)
Definition tie_capture : World Joybus.Decoder :=
  capture decoder_1MHz (run false 2 ++ run true 3 ++ [false]).

Definition si_decoder_1MHz : SI.Decoder :=
  SI.metadata SRD_CONF_SAMPLERATE 1000000 (SI.mkDecoder SI.INITIAL None 0 0).

Definition si_tie_capture : World SI.Decoder :=
  mkWorld si_decoder_1MHz 0 (run false 2 ++ run true 3 ++ [false]) [].

(** The line stalls low inside a bit. *)
Definition stalled_capture : World Joybus.Decoder :=
  capture decoder_1MHz (run false 11 ++ [true]).

(** A frame with the unknown opcode 0x77, the decoder in [COMMAND]. *)
Definition unknown_frame_capture : World Joybus.Decoder :=
  capture (Joybus.with_state Joybus.COMMAND decoder_1MHz)
    (cells_wire (encode_byte timing_1MHz 0x77) ++ [false; true]).

(** A bus that goes idle after one short pulse. *)
Definition idle_capture : World Joybus.Decoder :=
  capture decoder_1MHz (run false 2 ++ run true 101 ++ [false]).

Definition byte_capture (v : Z) : World Joybus.Decoder :=
  capture decoder_1MHz (cells_wire (encode_byte timing_1MHz v) ++ [false]).

(** The exchange of the decoder's documentation at 24 MHz: the console
    sends at 200 kHz (90+30 samples for a 0, 30+90 for a 1), the controller
    answers at 250 kHz (72+24 and 24+72) and ends with a 2 us stop bit. *)
Definition decoder_24MHz : Joybus.Decoder :=
  Joybus.metadata SRD_CONF_SAMPLERATE 24000000 Joybus.init.

Definition console_24MHz : BitTiming := mkTiming 90 30 30 90.

Definition controller_24MHz : BitTiming := mkTiming 72 24 24 72.

Definition info_frame_24MHz : Frame :=
  mkFrame (encode_byte console_24MHz 0x00) [] 30 90
    (map (encode_byte controller_24MHz) [0x09; 0x00; 0x03]) 48.

Definition info_capture_24MHz : World Joybus.Decoder :=
  capture decoder_24MHz (run true 2500 ++ frame_wire info_frame_24MHz ++ run true 10).

Definition is_byte_row (a : Annotation) : bool :=
  negb (ann_class a =? 3).

(** ** Further shapes of traffic *)

(** The command half of an exchange: opcode, data bytes, and the low phase
    of the stop bit. *)
Record CommandPart : Type := mkCommandPart
  { part_opcode : list cell;
    part_data : list (list cell);
    part_stop : Z }.

Definition part_wire (c : CommandPart) : list bool :=
  cells_wire (part_opcode c) ++ bytes_wire (part_data c) ++ run false (part_stop c).

Definition part_len (c : CommandPart) : Z :=
  cells_len (part_opcode c) + bytes_len (part_data c) + part_stop c.

Definition wf_part (d : Joybus.Decoder) (spec : CommandSpec) (c : CommandPart) : Prop :=
  ok_byte d (part_opcode c) /\
  lookup (cells_value d (part_opcode c)) Joybus.JOYBUS_COMMANDS = Some spec /\
  Z.of_nat (List.length (part_data c)) = command_len spec - 1 /\
  Forall (ok_byte d) (part_data c) /\
  1 <= part_stop c.

(** The annotations of the command half up to its last data byte. *)
Definition part_events (d : Joybus.Decoder) (start : Z) (c : CommandPart) : list Annotation :=
  bit_events d start (part_opcode c)
    ++ command_event d start (part_opcode c)
    :: byte_events d 1 (start + cells_len (part_opcode c)) (part_data c).

(** Frames one after the other, each after a high phase of the bus. *)
Definition frames_wire (fs : list (Z * Frame)) : list bool :=
  flat_map (fun gf => run true (fst gf) ++ frame_wire (snd gf)) fs.

Fixpoint frames_len (fs : list (Z * Frame)) : Z :=
  match fs with
  | [] => 0
  | gf :: fs' => fst gf + frame_len (snd gf) + frames_len fs'
  end.

Fixpoint frames_events (d : Joybus.Decoder) (start : Z) (fs : list (Z * Frame))
  : list Annotation :=
  match fs with
  | [] => []
  | gf :: fs' =>
      frame_events d (start + fst gf) (snd gf)
        ++ frames_events d (start + fst gf + frame_len (snd gf)) fs'
  end.

Definition wf_gap_frame (d : Joybus.Decoder) (gf : Z * Frame) : Prop :=
  1 <= fst gf /\ exists spec, wf_frame d spec (snd gf).

(** What is left of the [try] block after the command's data bytes. *)
Definition after_command_data (spec : CommandSpec) : M Joybus.Decoder unit :=
  d <- get_self ;;
  Joybus.read_stop_bit (Some (Joybus.bit_command_samples d)) ;;;
  si <- wait [Falling; Skip (Joybus.response_timeout_samples d)] ;;
  if si then raise (Exception "Response timeout") else
  for_range (Joybus.range_len 0 (response_len spec))
    (fun _ : unit =>
       sb <- Joybus.read_byte ;;
       now <- get_samplenum ;;
       Joybus.put_response_data (fst sb) now (snd sb))
    tt ;;;
  Joybus.read_stop_bit (Some (Joybus.bit_response_samples d)) ;;;
  Joybus.set_state Joybus.IDLE.

(** The byte values, for properties that are checked value by value. *)
Definition byte_values : list Z := map Z.of_nat (seq 0 256).

Definition names_distinct (f : Z -> string) : bool :=
  forallb (fun a => forallb (fun b => implb (String.eqb (f a) (f b)) (a =? b)) byte_values)
    byte_values.

(** ** Spans of annotations

    A small program logic for the decoder's monad, to follow sample numbers
    through the code.  [b] is the sample an iteration starts at. *)

(** An annotation lies in the samples read so far: it starts at or after
    [b], does not end before it starts, and, unless it is a stop bit, whose
    end is nominal, ends at or before the cursor [hi]. *)
Definition span_ok (b hi : Z) (a : Annotation) : Prop :=
  b <= ss a /\ ss a <= es a /\ (ann_class a <> 4 -> es a <= hi).

(** From [w] to [w']: the cursor has not moved back, the decoder object
    differs in [state] at most, and the annotations put in between are in
    the samples read. *)
Definition grows (b : Z) (w w' : World Joybus.Decoder) : Prop :=
  samplenum w <= samplenum w' /\
  (exists s, self w' = Joybus.with_state s (self w)) /\
  exists evs, out w' = out w ++ evs /\ Forall (span_ok b (samplenum w')) evs.

(** Conditions on the cursor and the decoder object. *)
Definition Pre : Type := Z -> Joybus.Decoder -> Prop.

Definition stable (P : Pre) : Prop :=
  forall n n' d s, n <= n' -> P n d -> P n' (Joybus.with_state s d).

(** [m], started at or after [b] under [P], grows the world whatever its
    outcome, and establishes [Q] when it returns. *)
Definition keeps {A} (b : Z) (P : Pre) (m : M Joybus.Decoder A) (Q : A -> Pre) : Prop :=
  forall w,
    b <= samplenum w -> P (samplenum w) (self w) ->
    grows b w (world_of (m w)) /\
    forall a w', m w = Ok a w' -> Q a (samplenum w') (self w').

(** The nominal stop-bit widths are not negative. *)
Definition widths : Pre :=
  fun _ d => 0 <= Joybus.bit_command_samples d /\ 0 <= Joybus.bit_response_samples d.

(** ... and [x] is a sample between [b] and the cursor. *)
Definition started (b x : Z) : Pre :=
  fun n d => widths n d /\ b <= x <= n.

(** [P], and [x] is a sample between [b] and the cursor. *)
Definition since (b : Z) (P : Pre) (x : Z) : Pre :=
  fun n d => P n d /\ b <= x <= n.

(** [P], and the widths read from the decoder object [d0] are not negative. *)
Definition with_widths (P : Pre) (d0 : Joybus.Decoder) : Pre :=
  fun n d => P n d /\ widths n d0.

(** ** Frames as si/pd.py reads them

    The earlier decoder has no time limits, so a cell is any low phase
    followed by any high phase; it puts one text per annotation and ends a
    stop bit at its rising edge. *)

Definition si_ok_cell (c : cell) : Prop := 1 <= fst c /\ 1 <= snd c.

Definition si_cell_bit (d : SI.Decoder) (c : cell) : Z :=
  if fst c >? SI.low_midpoint_samples d then 0 else 1.

Definition si_cells_value (d : SI.Decoder) (cs : list cell) : Z :=
  assemble (map (si_cell_bit d) cs).

Fixpoint si_bit_events (d : SI.Decoder) (start : Z) (cs : list cell) : list Annotation :=
  match cs with
  | [] => []
  | c :: cs' =>
      mkAnn start (start + cell_len c) 3 [str_bit (si_cell_bit d c)]
        :: si_bit_events d (start + cell_len c) cs'
  end.

Definition si_ok_byte (b : list cell) : Prop :=
  List.length b = 8%nat /\ Forall si_ok_cell b.

Fixpoint si_byte_events (d : SI.Decoder) (cls : Z) (start : Z) (bs : list (list cell))
  : list Annotation :=
  match bs with
  | [] => []
  | b :: bs' =>
      si_bit_events d start b
        ++ mkAnn start (start + cells_len b) cls
             [("Data: 0x" ++ format_02X (si_cells_value d b))%string]
        :: si_byte_events d cls (start + cells_len b) bs'
  end.

Definition si_frame_events (d : SI.Decoder) (start : Z) (f : Frame) : list Annotation :=
  let p1 := start + cells_len (opcode f) in
  let p2 := p1 + bytes_len (command_data f) in
  let p3 := p2 + command_stop f + gap f in
  let p4 := p3 + bytes_len (response_data f) in
  si_bit_events d start (opcode f)
    ++ mkAnn start p1 0 [("Command: " ++ SI.command_name (si_cells_value d (opcode f)))%string]
    :: si_byte_events d 1 p1 (command_data f)
    ++ mkAnn p2 (p2 + command_stop f) 4 ["S"%string]
    :: si_byte_events d 2 p3 (response_data f)
    ++ [mkAnn p4 (p4 + response_stop f) 4 ["S"%string]].

(** The numbers of data bytes the decoder reads after an opcode: the
    table's, and none for an opcode the table does not have. *)
Definition si_data_lengths (command : Z) : Z * Z :=
  match lookup command SI.SI_COMMANDS with
  | Some spec => (command_len spec - 1, response_len spec)
  | None => (0, 0)
  end.

Definition si_wf_frame (d : SI.Decoder) (f : Frame) : Prop :=
  si_ok_byte (opcode f) /\
  Z.of_nat (List.length (command_data f))
    = fst (si_data_lengths (si_cells_value d (opcode f))) /\
  Forall si_ok_byte (command_data f) /\
  1 <= command_stop f /\
  1 <= gap f /\
  Z.of_nat (List.length (response_data f))
    = snd (si_data_lengths (si_cells_value d (opcode f))) /\
  Forall si_ok_byte (response_data f) /\
  1 <= response_stop f.

(** What every part of si/pd.py's loop does, whatever the signal: it
    raises nothing and appends annotations that are not errors. *)
Definition si_local {A} (m : M SI.Decoder A) : Prop :=
  forall w,
    (forall e w', m w <> Raise e w') /\
    exists evs, out (world_of (m w)) = out w ++ evs /\ Forall not_error evs.

(** An annotation of joybus/pd.py as si/pd.py puts it: the first text only. *)
Definition si_view (a : Annotation) : Annotation :=
  mkAnn (ss a) (es a) (ann_class a) (firstn 1 (texts a)).

Definition not_stop (a : Annotation) : bool := negb (ann_class a =? 4).


(** ** Concrete captures of the further shapes of traffic *)

Definition poll_spec : CommandSpec := mkCommand "Short Poll" 3 8.

(** The command half of a Short Poll: opcode 0x40 and two data bytes. *)
Definition poll_part : CommandPart :=
  mkCommandPart (encode_byte timing_1MHz 0x40)
    (map (encode_byte timing_1MHz) [0x03; 0x00]) 1.

(** ... that no device answers. *)
Definition silent_capture : World Joybus.Decoder :=
  capture (Joybus.with_state Joybus.COMMAND decoder_1MHz)
    (part_wire poll_part ++ run true 51 ++ [false]).


(** Three bits of a byte, then the line stays low. *)
Definition truncated_capture : World Joybus.Decoder :=
  capture (Joybus.with_state Joybus.COMMAND decoder_1MHz)
    (cells_wire [(3, 1); (1, 3); (3, 1)] ++ run false 11 ++ [true]).

Definition two_frames : list (Z * Frame) := [(5, info_frame); (7, info_frame)].

Definition two_frames_capture : World Joybus.Decoder :=
  capture (Joybus.with_state Joybus.IDLE decoder_1MHz)
    (frames_wire two_frames ++ true :: [true]).

(** The capture starts inside a transfer; a frame follows after an idle gap. *)
Definition traffic_capture : World Joybus.Decoder :=
  capture decoder_1MHz
    (run false 2 ++ run true 3 ++ cells_wire [(1, 3); (3, 1)] ++ run false 1
       ++ run true (100 + 4) ++ frame_wire info_frame ++ true :: [true]).

Definition si_info_capture : World SI.Decoder :=
  mkWorld (SI.with_state SI.IDLE si_decoder_1MHz) 0
    (run true 5 ++ frame_wire info_frame ++ true :: [true]) [].

Definition si_unknown_capture : World SI.Decoder :=
  mkWorld (SI.with_state SI.IDLE si_decoder_1MHz) 0
    (run true 5 ++ cells_wire (encode_byte timing_1MHz 0x77) ++ run false 1
       ++ run true 3 ++ run false 2 ++ true :: [true]) [].
(** * Evaluation checks *)

Example us_to_samples_24MHz_idle : us_to_samples 24000000 100%float = 2400.
Proof. vm_compute. reflexivity. Qed.

Example us_to_samples_24MHz_mid : us_to_samples 24000000 2.5%float = 60.
Proof. vm_compute. reflexivity. Qed.

Example us_to_samples_570kHz_idle : us_to_samples 570000 100%float = 56.
Proof. vm_compute. reflexivity. Qed.

Example us_to_samples_1kHz_idle : us_to_samples 1000 100%float = 0.
Proof. vm_compute. reflexivity. Qed.

Example format_02X_0 : format_02X 0 = "00"%string.
Proof. reflexivity. Qed.

Example format_02X_ae : format_02X 174 = "AE"%string.
Proof. reflexivity. Qed.

Example format_02X_big : format_02X 4095 = "FFF"%string.
Proof. reflexivity. Qed.

Example decoder_24MHz_fields :
  decoder_24MHz = Joybus.mkDecoder Joybus.INITIAL (Some 24000000) 2400 60 120 96 240 1200.
Proof. vm_compute. reflexivity. Qed.

(** Low pulses of one sample less than the midpoint, the midpoint, and one
    sample more. *)
Example read_bit_below_midpoint :
  exists w', Joybus.read_bit (capture decoder_1MHz (run false 1 ++ run true 3 ++ [false]))
             = Ok 1 w'.
Proof. eexists. vm_compute. reflexivity. Qed.

Example read_bit_at_midpoint :
  exists w', Joybus.read_bit tie_capture = Ok 1 w'.
Proof. eexists. vm_compute. reflexivity. Qed.

Example read_bit_above_midpoint :
  exists w', Joybus.read_bit (capture decoder_1MHz (run false 3 ++ run true 1 ++ [false]))
             = Ok 0 w'.
Proof. eexists. vm_compute. reflexivity. Qed.

(** From [INITIAL] through the idle time and a whole Info exchange. *)
Example info_exchange_24MHz :
  exists w',
    Joybus.decode 3 info_capture_24MHz = Ok tt w' /\
    Joybus.state (self w') = Joybus.IDLE /\
    map ann_class (filter is_byte_row (out w')) = [0; 4; 2; 2; 2; 4] /\
    map texts (firstn 1 (filter is_byte_row (out w')))
    = [["Command: Info"%string; "Info"%string]] /\
    count_class 3 (out w') = 32%nat.
Proof. eexists. vm_compute. repeat split; reflexivity. Qed.

(** The same capture decoded until the host has no more samples. *)
Example info_exchange_24MHz_to_the_end :
  exists w',
    Joybus.decode 6 info_capture_24MHz = Eof w' /\
    Joybus.state (self w') = Joybus.IDLE /\
    count_class 5 (out w') = 0%nat.
Proof. eexists. vm_compute. repeat split; reflexivity. Qed.

Example JOYBUS_COMMANDS_keys_distinct : NoDup (map fst Joybus.JOYBUS_COMMANDS).
Proof.
  cbn. repeat (constructor; [cbn; intuition discriminate|]). constructor.
Qed.

(** ** Runs and queries *)

Lemma run_succ b n : 0 <= n -> run b (n + 1) = b :: run b n.
Proof.
  intros Hn. unfold run.
  replace (Z.to_nat (n + 1)) with (S (Z.to_nat n)) by lia. reflexivity.
Qed.

Lemma run_pos b n : 1 <= n -> run b n = b :: run b (n - 1).
Proof.
  intros Hn. replace n with ((n - 1) + 1) at 1 by lia. apply run_succ. lia.
Qed.

Lemma run_app b n m : 0 <= n -> 0 <= m -> run b (n + m) = run b n ++ run b m.
Proof.
  intros Hn Hm. unfold run. rewrite Z2Nat.inj_add by lia. apply repeat_app.
Qed.

Lemma run_snoc b n : 0 <= n -> run b (n + 1) = run b n ++ [b].
Proof.
  intros Hn. rewrite run_app by lia. reflexivity.
Qed.

Lemma run_length b n : 0 <= n -> Z.of_nat (List.length (run b n)) = n.
Proof.
  intros Hn. unfold run. rewrite repeat_length. lia.
Qed.

(** Every signal starts with a run at level [b], which either fills the rest
    of the capture or ends at an edge. *)
Lemma run_decompose (b : bool) (l : list bool) :
  exists k, 0 <= k /\
    (l = run b k \/ exists rest, l = run b k ++ negb b :: rest).
Proof.
  induction l as [|s l IH].
  - exists 0. split; [lia | left; reflexivity].
  - destruct (Bool.eqb s b) eqn:E.
    + apply Bool.eqb_prop in E. subst s.
      destruct IH as (k & Hk & [H | (rest & H)]).
      * exists (k + 1). split; [lia|]. left. rewrite run_succ by lia. congruence.
      * exists (k + 1). split; [lia|]. right. exists rest.
        rewrite run_succ by lia. simpl. congruence.
    + exists 0. split; [lia|]. right. exists l.
      destruct s, b; simpl in *; try discriminate; reflexivity.
Qed.

(** No condition of [conds] holds on samples [i .. i+k-1] of a run at
    level [b]. *)
Lemma existsb_quiet conds b i k j :
  quiet conds b i k -> i <= j < i + k ->
  existsb (cond_matches j b b) conds = false.
Proof.
  intros Hq Hj. destruct (existsb _ conds) eqn:E; [|reflexivity].
  apply existsb_exists in E. destruct E as (c & Hc & Hm).
  rewrite (Hq c j Hc Hj) in Hm. discriminate.
Qed.

Lemma find_match_run conds b (k : nat) : forall i l,
  quiet conds b i (Z.of_nat k) ->
  find_match conds i b (repeat b k ++ l) = find_match conds (i + Z.of_nat k) b l.
Proof.
  induction k as [|k IH]; intros i l Hq.
  - simpl. f_equal. lia.
  - cbn [repeat app find_match].
    rewrite (existsb_quiet conds b i (Z.of_nat (S k))) by (auto; lia).
    rewrite IH.
    + f_equal. lia.
    + intros c j Hc Hj. apply Hq; [assumption | lia].
Qed.

Lemma find_match_runZ conds b k i l :
  0 <= k -> quiet conds b i k ->
  find_match conds i b (run b k ++ l) = find_match conds (i + k) b l.
Proof.
  intros Hk Hq. unfold run. rewrite find_match_run.
  - f_equal. lia.
  - rewrite Z2Nat.id by lia. exact Hq.
Qed.

Lemma quiet_leave_skip b n i k : i + k <= n -> quiet [leave b; Skip n] b i k.
Proof.
  intros H c j [Hc | [Hc | []]] Hj; subst c.
  - destruct b; reflexivity.
  - simpl. apply Z.eqb_neq. lia.
Qed.

Lemma quiet_leave b i k : quiet [leave b] b i k.
Proof.
  intros c j [Hc | []] Hj; subst c. destruct b; reflexivity.
Qed.

Lemma quiet_high i k : quiet [High] false i k.
Proof.
  intros c j [Hc | []] Hj; subst c. reflexivity.
Qed.

Lemma hd_run_app b k l : 1 <= k -> hd_error (run b k ++ l) = Some b.
Proof.
  intros Hk. rewrite run_pos by lia. reflexivity.
Qed.

Section Waits.
Context {D : Type}.
Variable w : World D.

Lemma wait_from conds l b :
    line w = l -> hd_error l = Some b ->
    wait conds w =
      match find_match conds 0 b l with
      | Some (i, s :: rest) => Ok s (advance w i (s :: rest))
      | _ => Eof (advance w (Z.of_nat (List.length l)) [])
      end.
  Proof.
    intros Hl Hb. unfold wait. rewrite Hl.
    destruct l as [|s0 l0]; [discriminate|].
    injection Hb as ->. reflexivity.
  Qed.

Lemma wait_empty conds : line w = [] -> wait conds w = Eof w.
  Proof.
    intros Hl. unfold wait. rewrite Hl. reflexivity.
  Qed.

(** The edge comes within the time limit. *)
Lemma wait_leave_edge b n k rest :
    1 <= k <= n -> line w = run b k ++ negb b :: rest ->
    wait [leave b; Skip n] w = Ok (negb b) (advance w k (negb b :: rest)).
  Proof.
    intros Hk Hl.
    rewrite (wait_from _ _ b Hl) by (apply hd_run_app; lia).
    rewrite find_match_runZ by (try apply quiet_leave_skip; lia).
    cbn [find_match existsb cond_matches].
    replace (cond_matches (0 + k) b (negb b) (leave b)) with true
      by (destruct b; reflexivity).
    reflexivity.
  Qed.

(** The line holds its level for the whole time limit. *)
Lemma wait_leave_expire b n rest :
    0 <= n -> line w = run b (n + 1) ++ rest ->
    wait [leave b; Skip n] w = Ok b (advance w n (b :: rest)).
  Proof.
    intros Hn Hl.
    rewrite (wait_from _ _ b Hl) by (apply hd_run_app; lia).
    rewrite run_snoc, <- app_assoc by lia. cbn [app].
    rewrite find_match_runZ by (try apply quiet_leave_skip; lia).
    cbn [find_match existsb cond_matches].
    rewrite Z.add_0_l, Z.eqb_refl.
    replace (cond_matches n b b (leave b)) with false by (destruct b; reflexivity).
    reflexivity.
  Qed.

Lemma wait_run_eof conds b k :
    0 <= k -> quiet conds b 0 k -> line w = run b k ->
    exists w', wait conds w = Eof w' /\ out w' = out w /\ self w' = self w.
  Proof.
    intros Hk Hq Hl.
    destruct (Z.eq_dec k 0) as [-> | Hne].
    - rewrite wait_empty by exact Hl. eauto.
    - rewrite <- (app_nil_r (run b k)) in Hl.
      rewrite (wait_from _ _ b Hl) by (apply hd_run_app; lia).
      rewrite find_match_runZ by (auto; lia).
      cbn [find_match]. eexists; split; [reflexivity | auto].
  Qed.

(** The capture ends before the edge or the time limit. *)
Lemma wait_leave_eof b n k :
    0 <= k <= n -> line w = run b k ->
    exists w', wait [leave b; Skip n] w = Eof w' /\ out w' = out w /\ self w' = self w.
  Proof.
    intros Hk Hl. apply (wait_run_eof _ b k); try apply quiet_leave_skip; auto; lia.
  Qed.

Lemma wait_edge b k rest :
    1 <= k -> line w = run b k ++ negb b :: rest ->
    wait [leave b] w = Ok (negb b) (advance w k (negb b :: rest)).
  Proof.
    intros Hk Hl.
    rewrite (wait_from _ _ b Hl) by (apply hd_run_app; lia).
    rewrite find_match_runZ by (try apply quiet_leave; lia).
    cbn [find_match existsb cond_matches].
    replace (cond_matches (0 + k) b (negb b) (leave b)) with true
      by (destruct b; reflexivity).
    reflexivity.
  Qed.


Lemma wait_high j rest :
    0 <= j -> line w = run false j ++ true :: rest ->
    wait [High] w = Ok true (advance w j (true :: rest)).
  Proof.
    intros Hj Hl.
    destruct (Z.eq_dec j 0) as [-> | Hne].
    - rewrite (wait_from _ _ true Hl) by reflexivity. reflexivity.
    - rewrite (wait_from _ _ false Hl) by (apply hd_run_app; lia).
      rewrite find_match_runZ by (try apply quiet_high; lia).
      reflexivity.
  Qed.

Lemma wait_high_eof j :
    0 <= j -> line w = run false j ->
    exists w', wait [High] w = Eof w' /\ out w' = out w /\ self w' = self w.
  Proof.
    intros Hj Hl. apply (wait_run_eof _ false j); try apply quiet_high; auto.
  Qed.

Lemma wait_rising_within n k rest :
  1 <= k <= n -> line w = run false k ++ true :: rest ->
  wait [Rising; Skip n] w = Ok true (advance w k (true :: rest)).
Proof. exact (wait_leave_edge false n k rest). Qed.

Lemma wait_rising_expire n rest :
  0 <= n -> line w = run false (n + 1) ++ rest ->
  wait [Rising; Skip n] w = Ok false (advance w n (false :: rest)).
Proof. exact (wait_leave_expire false n rest). Qed.

Lemma wait_falling_within n k rest :
  1 <= k <= n -> line w = run true k ++ false :: rest ->
  wait [Falling; Skip n] w = Ok false (advance w k (false :: rest)).
Proof. exact (wait_leave_edge true n k rest). Qed.

Lemma wait_falling_expire n rest :
  0 <= n -> line w = run true (n + 1) ++ rest ->
  wait [Falling; Skip n] w = Ok true (advance w n (true :: rest)).
Proof. exact (wait_leave_expire true n rest). Qed.

Lemma wait_rising k rest :
  1 <= k -> line w = run false k ++ true :: rest ->
  wait [Rising] w = Ok true (advance w k (true :: rest)).
Proof. exact (wait_edge false k rest). Qed.

Lemma wait_falling k rest :
  1 <= k -> line w = run true k ++ false :: rest ->
  wait [Falling] w = Ok false (advance w k (false :: rest)).
Proof. exact (wait_edge true k rest). Qed.

End Waits.

(** *** What a query's answer tells *)

Lemma wait_never_raises {D} conds (w : World D) e w' : wait conds w <> Raise e w'.
Proof.
  unfold wait. destruct (line w) as [|s0 l]; [discriminate|].
  destruct (find_match conds 0 s0 (s0 :: l)) as [[i [|s rest]]|]; discriminate.
Qed.

Lemma find_match_inv conds : forall l i old j l',
  find_match conds i old l = Some (j, l') ->
  exists old' s rest,
    l' = s :: rest /\
    existsb (cond_matches j old' s) conds = true /\
    i <= j /\
    Z.of_nat (List.length l) = Z.of_nat (List.length l') + (j - i) /\
    (j = i -> l' = l /\ old' = old).
Proof.
  induction l as [|s l IH]; intros i old j l' H; cbn [find_match] in H.
  - discriminate.
  - destruct (existsb (cond_matches i old s) conds) eqn:E.
    + injection H as <- <-. exists old, s, l. repeat split; auto; lia.
    + destruct (IH _ _ _ _ H) as (old' & s' & rest & Hl' & Hm & Hi & Hlen & _).
      exists old', s', rest. cbn [List.length].
      repeat split; auto; lia.
Qed.

Lemma wait_inv {D} conds (w : World D) s w' :
  wait conds w = Ok s w' ->
  exists i old rest,
    line w' = s :: rest /\
    existsb (cond_matches i old s) conds = true /\
    0 <= i /\
    samplenum w' = samplenum w + i /\
    Z.of_nat (List.length (line w)) = Z.of_nat (List.length (line w')) + i /\
    (i = 0 -> line w' = line w /\ old = s) /\
    self w' = self w /\ out w' = out w.
Proof.
  unfold wait. intros H.
  destruct (line w) as [|s0 l] eqn:El; [discriminate|].
  destruct (find_match conds 0 s0 (s0 :: l)) as [[i [|s1 rest]]|] eqn:E; try discriminate.
  injection H as <- <-.
  destruct (find_match_inv conds _ _ _ _ _ E)
    as (old' & s' & rest' & Hl' & Hm & Hi & Hlen & H0).
  injection Hl' as <- <-.
  exists i, old', rest. cbn [line samplenum self out].
  split; [reflexivity|]. split; [exact Hm|]. split; [lia|].
  split; [reflexivity|]. split; [rewrite Hlen; lia|].
  split; [|auto].
  intros ->. destruct (H0 eq_refl) as [H1 H2].
  split; [exact H1|]. injection H1 as -> _. exact H2.
Qed.

Lemma wait_eof_inv {D} conds (w w' : World D) :
  wait conds w = Eof w' ->
  line w' = [] /\ self w' = self w /\ out w' = out w.
Proof.
  unfold wait. intros H.
  destruct (line w) as [|s0 l] eqn:El.
  - injection H as <-. auto.
  - destruct (find_match conds 0 s0 (s0 :: l)) as [[i [|s1 rest]]|];
      try discriminate; injection H as <-; auto.
Qed.

(** An edge is never found at the current sample: a query for an edge
    alone moves the cursor, and the pin it returns is the level after the
    edge. *)
Lemma wait_edge_inv {D} b (w : World D) s w' :
  wait [leave b] w = Ok s w' ->
  s = negb b /\
  (List.length (line w') < List.length (line w))%nat /\
  exists rest, line w' = negb b :: rest.
Proof.
  intros H.
  destruct (wait_inv _ _ _ _ H) as (i & old & rest & Hl & Hm & Hi & _ & Hlen & H0 & _).
  cbn [existsb] in Hm. rewrite orb_false_r in Hm.
  assert (Hs : s = negb b /\ old = b).
  { destruct b, old, s; cbn in Hm; try discriminate; auto. }
  destruct Hs as [-> ->]. repeat split.
  - destruct (Z.eq_dec i 0) as [-> | Hne]; [|lia].
    destruct (H0 eq_refl) as [_ Hb]. destruct b; discriminate.
  - exists rest. exact Hl.
Qed.

(** The pin a query returns is the sample under the cursor. *)
Lemma wait_pin {D} conds (w : World D) s w' :
  wait conds w = Ok s w' -> exists rest, line w' = s :: rest.
Proof.
  intros H. destruct (wait_inv _ _ _ _ H) as (i & old & rest & Hl & _). eauto.
Qed.

Lemma wait_shorter {D} conds (w : World D) :
  (List.length (line (world_of (wait conds w))) <= List.length (line w))%nat.
Proof.
  destruct (wait conds w) as [s w' | e w' | w'] eqn:E; cbn [world_of].
  - destruct (wait_inv _ _ _ _ E) as (i & old & rest & _ & _ & Hi & _ & Hlen & _). lia.
  - revert E. unfold wait. destruct (line w) as [|s0 l]; [discriminate|].
    destruct (find_match conds 0 s0 (s0 :: l)) as [[i [|s rest]]|]; discriminate.
  - destruct (wait_eof_inv _ _ _ E) as (-> & _). cbn. lia.
Qed.

(** ** The bit and byte readers on well-timed cells *)

Lemma cell_wire_edge c rest :
  1 <= snd c ->
  cell_wire c ++ false :: rest
  = run false (fst c) ++ true :: (run true (snd c - 1) ++ false :: rest).
Proof.
  intros H. unfold cell_wire. rewrite <- app_assoc.
  rewrite (run_pos true (snd c)) by lia. reflexivity.
Qed.

Lemma read_bit_cell (w : World Joybus.Decoder) c rest :
  ok_cell (self w) c ->
  line w = cell_wire c ++ false :: rest ->
  Joybus.read_bit w
  = Ok (cell_bit (self w) c)
       (mkWorld (self w) (samplenum w + cell_len c) (false :: rest)
          (out w ++ bit_events (self w) (samplenum w) [c])).
Proof.
  intros [Hlo Hhi] Hl.
  unfold Joybus.read_bit, bind, get_samplenum, get_self.
  rewrite cell_wire_edge in Hl by lia.
  rewrite (wait_rising_within w _ _ _ Hlo Hl). cbn [negb].
  set (w1 := advance w (fst c) _).
  assert (Hl1 : line w1 = run true (snd c) ++ false :: rest).
  { unfold w1. cbn. rewrite (run_pos true (snd c)) by lia. reflexivity. }
  rewrite (wait_falling_within w1 _ _ _ Hhi Hl1).
  unfold Joybus.put_bit, Joybus.putg, put, ret, advance, w1, cell_bit, cell_len. cbn.
  replace (samplenum w + fst c - samplenum w) with (fst c) by lia.
  unfold cell_bit, cell_len. rewrite ?Z.add_assoc. reflexivity.
Qed.

Lemma cells_wire_low d cs rest :
  Forall (ok_cell d) cs ->
  exists r, cells_wire cs ++ false :: rest = false :: r.
Proof.
  intros H. destruct H as [|c cs [Hlo _] _].
  - exists rest. reflexivity.
  - unfold cells_wire. cbn [flat_map]. unfold cell_wire at 1.
    rewrite (run_pos false (fst c)) by lia. cbn [app]. eauto.
Qed.

Lemma read_bits_cells cs : forall (w : World Joybus.Decoder) acc rest,
  Forall (ok_cell (self w)) cs ->
  line w = cells_wire cs ++ false :: rest ->
  for_range (List.length cs)
    (fun byte_value => bit_value <- Joybus.read_bit ;; ret (Z.lor (Z.shiftl byte_value 1) bit_value))
    acc w
  = Ok (fold_left (fun byte_value bit_value => Z.lor (Z.shiftl byte_value 1) bit_value)
         (map (cell_bit (self w)) cs) acc)
       (mkWorld (self w) (samplenum w + cells_len cs) (false :: rest)
          (out w ++ bit_events (self w) (samplenum w) cs)).
Proof.
  induction cs as [|c cs IH]; intros w acc rest Hok Hl.
  - cbn in *. unfold ret. destruct w; cbn in *. subst.
    rewrite Z.add_0_r, app_nil_r. reflexivity.
  - inversion Hok as [|? ? Hc Hcs]; subst.
    destruct (cells_wire_low (self w) cs rest Hcs) as (r & Hr).
    assert (Hl' : line w = cell_wire c ++ false :: r).
    { rewrite Hl. unfold cells_wire. cbn [flat_map]. rewrite <- app_assoc.
      f_equal. exact Hr. }
    cbn [List.length for_range]. unfold bind at 1. unfold bind at 1.
    rewrite (read_bit_cell w c r Hc Hl'). unfold ret at 1.
    rewrite IH with (rest := rest); cbn [self samplenum line out]; auto.
    cbn [map fold_left bit_events cells_len fold_right].
    rewrite <- app_assoc. cbn [app].
    rewrite Z.add_assoc. reflexivity.
Qed.

Lemma read_byte_cells (w : World Joybus.Decoder) cs rest :
  ok_byte (self w) cs ->
  line w = cells_wire cs ++ false :: rest ->
  Joybus.read_byte w
  = Ok (samplenum w, cells_value (self w) cs)
       (mkWorld (self w) (samplenum w + cells_len cs) (false :: rest)
          (out w ++ bit_events (self w) (samplenum w) cs)).
Proof.
  intros [Hlen Hok] Hl.
  unfold Joybus.read_byte. unfold bind at 1, get_samplenum at 1. unfold bind at 1.
  rewrite <- Hlen.
  rewrite (read_bits_cells cs w 0 rest Hok Hl). reflexivity.
Qed.

Lemma cells_wire_low_ne d cs tail :
  Forall (ok_cell d) cs -> cs <> [] ->
  exists r, cells_wire cs ++ tail = false :: r.
Proof.
  intros H Hne. destruct H as [|c cs [Hlo _] _]; [congruence|].
  unfold cells_wire. cbn [flat_map]. unfold cell_wire at 1.
  rewrite (run_pos false (fst c)) by lia. cbn [app]. eauto.
Qed.

Lemma ok_byte_ne d b : ok_byte d b -> b <> [].
Proof.
  intros [Hlen _] ->. discriminate.
Qed.

Lemma bytes_wire_low d bs rest :
  Forall (ok_byte d) bs ->
  exists r, bytes_wire bs ++ false :: rest = false :: r.
Proof.
  intros H. destruct H as [|b bs Hb _].
  - exists rest. reflexivity.
  - unfold bytes_wire. cbn [flat_map]. rewrite <- app_assoc.
    apply (cells_wire_low_ne d b); [apply Hb | apply (ok_byte_ne d b Hb)].
Qed.

(** The two loops over data bytes, which differ in the annotation class. *)
Lemma read_bytes_cells cls bs : forall (w : World Joybus.Decoder) rest,
  Forall (ok_byte (self w)) bs ->
  line w = bytes_wire bs ++ false :: rest ->
  for_range (List.length bs)
    (fun _ : unit =>
       sb <- Joybus.read_byte ;;
       now <- get_samplenum ;;
       Joybus.putg (fst sb) now cls (Joybus.data_texts (snd sb)))
    tt w
  = Ok tt
       (mkWorld (self w) (samplenum w + bytes_len bs) (false :: rest)
          (out w ++ byte_events (self w) cls (samplenum w) bs)).
Proof.
  induction bs as [|b bs IH]; intros w rest Hok Hl.
  - cbn in *. unfold ret. destruct w; cbn in *. subst.
    rewrite Z.add_0_r, app_nil_r. reflexivity.
  - inversion Hok as [|? ? Hb Hbs]; subst.
    destruct (bytes_wire_low (self w) bs rest Hbs) as (r & Hr).
    assert (Hl' : line w = cells_wire b ++ false :: r).
    { rewrite Hl. unfold bytes_wire. cbn [flat_map]. rewrite <- app_assoc.
      f_equal. exact Hr. }
    cbn [List.length for_range]. unfold bind at 1. unfold bind at 1.
    rewrite (read_byte_cells w b r Hb Hl').
    unfold bind at 1, get_samplenum at 1, Joybus.putg at 1, put at 1.
    cbn [self samplenum line out fst snd].
    rewrite IH with (rest := rest); cbn [self samplenum line out]; auto.
    cbn [byte_events bytes_len fold_right].
    rewrite <- !app_assoc. cbn [app].
    rewrite Z.add_assoc. reflexivity.
Qed.

(** ** A whole exchange *)

Lemma read_stop_bit_edge (w : World Joybus.Decoder) width k rest :
  1 <= k -> line w = run false k ++ true :: rest ->
  Joybus.read_stop_bit (Some width) w
  = Ok tt (mkWorld (self w) (samplenum w + k) (true :: rest)
             (out w ++ [stop_event (samplenum w) width])).
Proof.
  intros Hk Hl. unfold Joybus.read_stop_bit.
  unfold bind at 1, get_samplenum at 1. unfold bind at 1.
  rewrite (wait_rising w k rest Hk Hl). reflexivity.
Qed.

Lemma run_low_start k tail : 1 <= k -> run false k ++ tail = false :: (run false (k - 1) ++ tail).
Proof.
  intros Hk. rewrite (run_pos false k) by lia. reflexivity.
Qed.

Lemma run_high_start k tail : 1 <= k -> run true k ++ tail = true :: (run true (k - 1) ++ tail).
Proof.
  intros Hk. rewrite (run_pos true k) by lia. reflexivity.
Qed.

Lemma command_rest_frame (w : World Joybus.Decoder) spec command_start command
      cd cs g rd rs tail :
  lookup command Joybus.JOYBUS_COMMANDS = Some spec ->
  Z.of_nat (List.length cd) = command_len spec - 1 ->
  Forall (ok_byte (self w)) cd ->
  1 <= cs ->
  1 <= g <= Joybus.response_timeout_samples (self w) ->
  Z.of_nat (List.length rd) = response_len spec ->
  Forall (ok_byte (self w)) rd ->
  1 <= rs ->
  line w = bytes_wire cd ++ run false cs ++ run true g
             ++ bytes_wire rd ++ run false rs ++ true :: tail ->
  Joybus.command_rest command_start command w
  = Ok tt
      (mkWorld (Joybus.with_state Joybus.IDLE (self w))
         (samplenum w + bytes_len cd + cs + g + bytes_len rd + rs)
         (true :: tail)
         (out w
            ++ mkAnn command_start (samplenum w) 0
                 [("Command: " ++ Joybus.command_name command)%string;
                  Joybus.command_name command]
            :: byte_events (self w) 1 (samplenum w) cd
            ++ stop_event (samplenum w + bytes_len cd) (Joybus.bit_command_samples (self w))
            :: byte_events (self w) 2 (samplenum w + bytes_len cd + cs + g) rd
            ++ [stop_event (samplenum w + bytes_len cd + cs + g + bytes_len rd)
                  (Joybus.bit_response_samples (self w))])).
Proof.
  intros Hspec Hcl Hcd Hcs Hg Hrl Hrd Hrs Hl.
  unfold Joybus.command_rest.
  unfold bind at 1, get_samplenum at 1. unfold bind at 1.
  unfold Joybus.put_command at 1, Joybus.putg at 1, put at 1.
  rewrite Hspec.
  replace (Joybus.range_len 1 (command_len spec)) with (List.length cd)
    by (unfold Joybus.range_len; lia).
  replace (Joybus.range_len 0 (response_len spec)) with (List.length rd)
    by (unfold Joybus.range_len; lia).
  unfold Joybus.put_command_data, Joybus.put_response_data.
  (* command data bytes *)
  unfold bind at 1.
  set (w1 := mkWorld _ _ _ _).
  set (t5 := run false (rs - 1) ++ true :: tail).
  set (t3 := run true (g - 1) ++ bytes_wire rd ++ false :: t5).
  set (t2 := run false (cs - 1) ++ true :: t3).
  assert (Hl1 : line w1 = bytes_wire cd ++ false :: t2).
  { unfold w1, t2, t3, t5. cbn [line]. rewrite Hl.
    rewrite (run_low_start cs), (run_high_start g), (run_low_start rs) by lia.
    reflexivity. }
  rewrite (read_bytes_cells 1 cd w1 _ Hcd Hl1).
  (* command stop bit *)
  unfold bind at 1, get_self at 1. unfold bind at 1.
  set (w2 := mkWorld _ _ _ _).
  assert (Hl2 : line w2 = run false cs ++ true :: t3).
  { unfold w2, t2. cbn [line]. rewrite (run_low_start cs) by lia. reflexivity. }
  rewrite (read_stop_bit_edge w2 _ cs _ Hcs Hl2).
  (* response *)
  unfold bind at 1.
  set (w3 := mkWorld _ _ _ _).
  destruct (bytes_wire_low (self w) rd t5 Hrd) as (r & Hr).
  assert (Hl3 : line w3 = run true g ++ false :: r).
  { unfold w3, t3. cbn [line]. rewrite (run_high_start g) by lia.
    rewrite Hr. reflexivity. }
  rewrite (wait_falling_within w3 (Joybus.response_timeout_samples (self w2)) g r Hg Hl3).
  unfold bind at 1.
  set (w4 := advance w3 g _).
  assert (Hl4 : line w4 = bytes_wire rd ++ false :: t5).
  { unfold w4. cbn [line advance]. symmetry. exact Hr. }
  rewrite (read_bytes_cells 2 rd w4 _ Hrd Hl4).
  unfold bind at 1.
  set (w5 := mkWorld _ _ _ _).
  assert (Hl5 : line w5 = run false rs ++ true :: tail).
  { unfold w5, t5. cbn [line]. rewrite (run_low_start rs) by lia. reflexivity. }
  rewrite (read_stop_bit_edge w5 _ rs _ Hrs Hl5).
  unfold Joybus.set_state, bind, get_self, set_self.
  unfold w5, w4, advance, w3, w2, w1. cbn [self samplenum line out].
  repeat (rewrite <- ?app_assoc; cbn [app]).
  reflexivity.
Qed.

Lemma command_branch_frame (w : World Joybus.Decoder) spec f tail :
  wf_frame (self w) spec f ->
  line w = frame_wire f ++ true :: tail ->
  Joybus.command_branch w
  = Ok tt
      (mkWorld (Joybus.with_state Joybus.IDLE (self w))
         (samplenum w + frame_len f) (true :: tail)
         (out w ++ frame_events (self w) (samplenum w) f)).
Proof.
  intros (Hop & Hspec & Hcl & Hcd & Hcs & Hg & Hrl & Hrd & Hrs) Hl.
  unfold frame_wire in Hl. rewrite <- !app_assoc in Hl.
  set (t := bytes_wire (command_data f) ++ _) in Hl.
  assert (exists r, t = false :: r) as (r & Hr).
  { unfold t. rewrite (run_low_start (command_stop f)) by lia.
    apply (bytes_wire_low (self w)); assumption. }
  unfold Joybus.command_branch.
  unfold bind at 1, get_samplenum at 1. unfold try_except at 1. unfold bind at 1.
  rewrite Hr in Hl. rewrite (read_byte_cells w (opcode f) r Hop Hl).
  cbn [fst snd]. unfold try_except at 1.
  set (w1 := mkWorld _ _ _ _).
  assert (Hl1 : line w1 = t) by (unfold w1; cbn [line]; congruence).
  unfold t in Hl1.
  rewrite (command_rest_frame w1 spec _ _ _ _ _ _ _ tail Hspec Hcl Hcd Hcs Hg Hrl Hrd Hrs Hl1).
  unfold w1, frame_events, frame_len, command_event. cbn [self samplenum line out].
  rewrite <- ?app_assoc. rewrite ?Z.add_assoc. reflexivity.
Qed.

(** ** The iterations of the decode loop, state by state *)

Lemma idle_iteration (w : World Joybus.Decoder) k rest :
  Joybus.state (self w) = Joybus.IDLE ->
  1 <= k -> line w = run true k ++ false :: rest ->
  Joybus.decode_iteration w
  = Ok tt (mkWorld (Joybus.with_state Joybus.COMMAND (self w))
             (samplenum w + k) (false :: rest) (out w)).
Proof.
  intros Hs Hk Hl. unfold Joybus.decode_iteration.
  unfold bind at 1, get_self at 1. rewrite Hs.
  unfold bind at 1. rewrite (wait_falling w k rest Hk Hl). reflexivity.
Qed.

Lemma command_iteration (w : World Joybus.Decoder) :
  Joybus.state (self w) = Joybus.COMMAND ->
  Joybus.decode_iteration w = Joybus.command_branch w.
Proof.
  intros Hs. unfold Joybus.decode_iteration.
  unfold bind at 1, get_self at 1. rewrite Hs. reflexivity.
Qed.

(** The high period lasts the whole idle time: on to [IDLE]. *)
Lemma initial_iteration_long (w : World Joybus.Decoder) j rest :
  Joybus.state (self w) = Joybus.INITIAL ->
  0 <= j -> 0 <= Joybus.idle_min_samples (self w) ->
  line w = run false j ++ run true (Joybus.idle_min_samples (self w) + 1) ++ rest ->
  Joybus.decode_iteration w
  = Ok tt (mkWorld (Joybus.with_state Joybus.IDLE (self w))
             (samplenum w + j + Joybus.idle_min_samples (self w))
             (true :: rest) (out w)).
Proof.
  intros Hs Hj Hn Hl. unfold Joybus.decode_iteration.
  unfold bind at 1, get_self at 1. rewrite Hs.
  unfold bind at 1.
  rewrite (run_high_start (Joybus.idle_min_samples (self w) + 1)) in Hl by lia.
  rewrite (wait_high w j _ Hj Hl).
  unfold bind at 1.
  set (w1 := advance w j _).
  assert (Hl1 : line w1 = run true (Joybus.idle_min_samples (self w) + 1) ++ rest).
  { unfold w1. cbn [line advance].
    rewrite (run_high_start (Joybus.idle_min_samples (self w) + 1)) by lia.
    reflexivity. }
  rewrite (wait_falling_expire w1 _ rest Hn Hl1). reflexivity.
Qed.

(** A falling edge ends the high period first: stay in [INITIAL]. *)
Lemma initial_iteration_short (w : World Joybus.Decoder) j k rest :
  Joybus.state (self w) = Joybus.INITIAL ->
  0 <= j -> 1 <= k <= Joybus.idle_min_samples (self w) ->
  line w = run false j ++ run true k ++ false :: rest ->
  Joybus.decode_iteration w
  = Ok tt (mkWorld (self w) (samplenum w + j + k) (false :: rest) (out w)).
Proof.
  intros Hs Hj Hk Hl. unfold Joybus.decode_iteration.
  unfold bind at 1, get_self at 1. rewrite Hs.
  unfold bind at 1.
  rewrite (run_high_start k) in Hl by lia.
  rewrite (wait_high w j _ Hj Hl).
  unfold bind at 1.
  set (w1 := advance w j _).
  assert (Hl1 : line w1 = run true k ++ false :: rest).
  { unfold w1. cbn [line advance]. rewrite (run_high_start k) by lia. reflexivity. }
  rewrite (wait_falling_within w1 _ k rest Hk Hl1). reflexivity.
Qed.

(** The capture ends before the bus has gone high, or before the high
    period has lasted the idle time or been ended by an edge. *)
Lemma initial_iteration_eof (w : World Joybus.Decoder) j k :
  Joybus.state (self w) = Joybus.INITIAL ->
  0 <= j -> 0 <= k <= Joybus.idle_min_samples (self w) ->
  line w = run false j ++ run true k ->
  exists w', Joybus.decode_iteration w = Eof w' /\ out w' = out w /\ self w' = self w.
Proof.
  intros Hs Hj Hk Hl. unfold Joybus.decode_iteration.
  unfold bind at 1, get_self at 1. rewrite Hs.
  unfold bind at 1.
  destruct (Z.eq_dec k 0) as [-> | Hne].
  - change (run true 0) with (@nil bool) in Hl. rewrite app_nil_r in Hl.
    destruct (wait_high_eof w j Hj Hl) as (w' & -> & Ho & Hd). eauto.
  - rewrite <- (app_nil_r (run true k)) in Hl.
    rewrite (run_high_start k) in Hl by lia.
    rewrite (wait_high w j _ Hj Hl).
    unfold bind at 1.
    set (w1 := advance w j _).
    assert (Hl1 : line w1 = run true k).
    { unfold w1. cbn [line advance]. rewrite app_nil_r.
      rewrite (run_pos true k) by lia. reflexivity. }
    destruct (wait_leave_eof w1 true (Joybus.idle_min_samples (self w)) k
                ltac:(lia) Hl1) as (w' & Hw & Ho & Hd).
    change (leave true) with Falling in Hw. rewrite Hw. eauto.
Qed.

(** A signal that starts at level [b] starts with a run of at least one
    sample at that level. *)
Lemma run_decompose_pos (b : bool) (l : list bool) :
  exists k, 1 <= k /\
    (b :: l = run b k \/ exists rest, b :: l = run b k ++ negb b :: rest).
Proof.
  destruct (run_decompose b l) as (k & Hk & [H | (rest & H)]).
  - exists (k + 1). split; [lia|]. left. rewrite run_succ by lia. congruence.
  - exists (k + 1). split; [lia|]. right. exists rest.
    rewrite run_succ by lia. cbn [app]. congruence.
Qed.

(** Every outcome of an iteration in [INITIAL]. *)
Lemma initial_iteration_cases (w : World Joybus.Decoder) :
  Joybus.state (self w) = Joybus.INITIAL ->
  0 <= Joybus.idle_min_samples (self w) ->
  (exists w', Joybus.decode_iteration w = Eof w' /\ out w' = out w /\ self w' = self w)
  \/ (exists j k rest,
        0 <= j /\ 1 <= k <= Joybus.idle_min_samples (self w) /\
        line w = run false j ++ run true k ++ false :: rest /\
        Joybus.decode_iteration w
        = Ok tt (mkWorld (self w) (samplenum w + j + k) (false :: rest) (out w)))
  \/ (exists j rest,
        0 <= j /\
        line w = run false j ++ run true (Joybus.idle_min_samples (self w) + 1) ++ rest /\
        Joybus.decode_iteration w
        = Ok tt (mkWorld (Joybus.with_state Joybus.IDLE (self w))
                   (samplenum w + j + Joybus.idle_min_samples (self w))
                   (true :: rest) (out w))).
Proof.
  intros Hs Hn.
  set (n := Joybus.idle_min_samples (self w)) in *.
  destruct (run_decompose false (line w)) as (j & Hj & [Hl | (r1 & Hl)]).
  - left. apply (initial_iteration_eof w j 0); auto; try lia.
    rewrite Hl. change (run true 0) with (@nil bool). now rewrite app_nil_r.
  - cbn [negb] in Hl.
    destruct (run_decompose_pos true r1) as (k & Hk & [Hr | (r2 & Hr)]).
    + rewrite Hr in Hl. destruct (Z_le_gt_dec k n) as [Hle | Hgt].
      * left. apply (initial_iteration_eof w j k); auto; lia.
      * right. right. exists j, (run true (k - (n + 1))). split; [assumption|].
        assert (Hl' : line w = run false j ++ run true (n + 1) ++ run true (k - (n + 1))).
        { rewrite Hl. rewrite <- run_app by lia. do 2 f_equal. lia. }
        split; [exact Hl'|]. apply initial_iteration_long; auto.
    + rewrite Hr in Hl. cbn [negb] in Hl.
      destruct (Z_le_gt_dec k n) as [Hle | Hgt].
      * right. left. exists j, k, r2. repeat split; auto; try lia.
        apply initial_iteration_short; auto; lia.
      * right. right. exists j, (run true (k - (n + 1)) ++ false :: r2).
        split; [assumption|].
        assert (Hl' : line w = run false j ++ run true (n + 1)
                        ++ run true (k - (n + 1)) ++ false :: r2).
        { rewrite Hl. rewrite (app_assoc (run true (n + 1))).
          rewrite <- run_app by lia. do 3 f_equal. lia. }
        split; [exact Hl'|]. apply initial_iteration_long; auto.
Qed.

(** ** What holds on every signal *)

Lemma bit_value_of_cases d m :
  (d > m /\ Joybus.bit_value_of d m = 0) \/ (d <= m /\ Joybus.bit_value_of d m = 1).
Proof.
  unfold Joybus.bit_value_of. destruct (Z.gtb_spec d m); [left | right]; split; auto; lia.
Qed.

Lemma read_bit_inv (w : World Joybus.Decoder) b w' :
  Joybus.read_bit w = Ok b w' ->
  exists w1 w2,
    wait [Rising; Skip (Joybus.bit_timeout_samples (self w))] w = Ok true w1 /\
    wait [Falling; Skip (Joybus.bit_timeout_samples (self w))] w1 = Ok false w2 /\
    b = Joybus.bit_value_of (samplenum w1 - samplenum w) (Joybus.bit_midpoint_samples (self w)) /\
    w' = mkWorld (self w2) (samplenum w2) (line w2)
           (out w2 ++ [mkAnn (samplenum w) (samplenum w2) 3 [str_bit b]]).
Proof.
  unfold Joybus.read_bit, bind, get_samplenum, get_self. intros H.
  destruct (wait _ w) as [si w1 | |] eqn:E1; try discriminate.
  destruct si; cbn [negb] in H; [|discriminate].
  destruct (wait _ w1) as [si w2 | |] eqn:E2; try discriminate.
  destruct si; [discriminate|].
  unfold Joybus.put_bit, Joybus.putg, put, ret in H. injection H as <- <-.
  exists w1, w2. auto.
Qed.

Lemma si_read_bit_inv (w : World SI.Decoder) b w' :
  SI.read_bit w = Ok b w' ->
  exists si1 w1 si2 w2,
    wait [Rising] w = Ok si1 w1 /\
    wait [Falling] w1 = Ok si2 w2 /\
    b = (if samplenum w1 - samplenum w >? SI.low_midpoint_samples (self w1) then 0 else 1) /\
    w' = mkWorld (self w2) (samplenum w2) (line w2)
           (out w2 ++ [mkAnn (samplenum w) (samplenum w2) 3 [str_bit b]]).
Proof.
  unfold SI.read_bit, bind, get_samplenum, get_self. intros H.
  destruct (wait _ w) as [si1 w1 | |] eqn:E1; try discriminate.
  destruct (wait _ w1) as [si2 w2 | |] eqn:E2; try discriminate.
  unfold SI.put_bit, bind, get_samplenum, put, ret in H. injection H as <- <-.
  exists si1, w1, si2, w2. auto.
Qed.

(** C1: whatever the signal, a bit that [read_bit] returns is 0 exactly when
    the low pulse it measured (the samples between its entry and the end of
    its first wait) is strictly longer than the midpoint, and 1 otherwise, so
    a pulse of exactly the midpoint reads as 1; this holds for the bit
    reader of joybus/pd.py and for the one of si/pd.py. *)
Theorem read_bit_classification :
  (forall (w : World Joybus.Decoder) b w',
      Joybus.read_bit w = Ok b w' ->
      exists w1,
        wait [Rising; Skip (Joybus.bit_timeout_samples (self w))] w = Ok true w1 /\
        let d := samplenum w1 - samplenum w in
        let midpoint := Joybus.bit_midpoint_samples (self w) in
        (b = 0 <-> d > midpoint) /\ (b = 1 <-> d <= midpoint) /\
        (d = midpoint -> b = 1))
  /\
  (forall (w : World SI.Decoder) b w',
      SI.read_bit w = Ok b w' ->
      exists si w1,
        wait [Rising] w = Ok si w1 /\
        let d := samplenum w1 - samplenum w in
        let midpoint := SI.low_midpoint_samples (self w1) in
        (b = 0 <-> d > midpoint) /\ (b = 1 <-> d <= midpoint) /\
        (d = midpoint -> b = 1)).
Proof.
  split.
  - intros w b w' H.
    destruct (read_bit_inv w b w' H) as (w1 & w2 & H1 & _ & Hb & _).
    exists w1. split; [exact H1|]. cbv zeta.
    destruct (bit_value_of_cases (samplenum w1 - samplenum w)
                (Joybus.bit_midpoint_samples (self w))) as [[Hd Hv] | [Hd Hv]];
      rewrite Hv in Hb; subst b; repeat split; intros; try lia; try discriminate.
  - intros w b w' H.
    destruct (si_read_bit_inv w b w' H) as (si1 & w1 & si2 & w2 & H1 & _ & Hb & _).
    exists si1, w1. split; [exact H1|]. cbv zeta.
    destruct (Z.gtb_spec (samplenum w1 - samplenum w) (SI.low_midpoint_samples (self w1)));
      subst b; repeat split; intros; try lia; try discriminate.
Qed.

(** *** The frame-local discipline of the [try] block *)

Lemma with_state_same d : Joybus.with_state (Joybus.state d) d = d.
Proof. destruct d; reflexivity. Qed.

Lemma with_state_twice s s' d :
  Joybus.with_state s (Joybus.with_state s' d) = Joybus.with_state s d.
Proof. reflexivity. Qed.

Section FrameLocal.
Variable P : Annotation -> Prop.

Lemma frame_local_quiet {A} (m : M Joybus.Decoder A) :
  (forall w, self (world_of (m w)) = self w /\ out (world_of (m w)) = out w /\
             (forall e w', m w <> Raise e w') /\
             (List.length (line (world_of (m w))) <= List.length (line w))%nat) ->
  frame_local P m.
Proof.
  intros H w. destruct (H w) as (Hd & Ho & Hr & Hlen). repeat split.
  - exists (Joybus.state (self w)). rewrite with_state_same. exact Hd.
  - exists []. rewrite app_nil_r. auto.
  - intros e w' He. destruct (Hr e w' He).
  - exact Hlen.
Qed.

Lemma frame_local_ret {A} (a : A) : frame_local P (ret a).
Proof.
  apply frame_local_quiet. intros w. cbn. repeat split; auto. discriminate.
Qed.

Lemma frame_local_get_samplenum : frame_local P get_samplenum.
Proof.
  apply frame_local_quiet. intros w. cbn. repeat split; auto. discriminate.
Qed.

Lemma frame_local_get_self : frame_local P get_self.
Proof.
  apply frame_local_quiet. intros w. cbn. repeat split; auto. discriminate.
Qed.

Lemma frame_local_wait conds : frame_local P (wait conds).
Proof.
  apply frame_local_quiet. intros w.
  split; [|split; [|split]]; [| | | apply wait_shorter].
  - destruct (wait conds w) as [s w' | e w' | w'] eqn:E; cbn [world_of].
    + destruct (wait_inv _ _ _ _ E) as (i & old & rest & _ & _ & _ & _ & _ & _ & Hd & _).
      exact Hd.
    + destruct (wait_never_raises _ _ _ _ E).
    + destruct (wait_eof_inv _ _ _ E) as (_ & Hd & _). exact Hd.
  - destruct (wait conds w) as [s w' | e w' | w'] eqn:E; cbn [world_of].
    + destruct (wait_inv _ _ _ _ E) as (i & old & rest & _ & _ & _ & _ & _ & _ & _ & Ho).
      exact Ho.
    + destruct (wait_never_raises _ _ _ _ E).
    + destruct (wait_eof_inv _ _ _ E) as (_ & _ & Ho). exact Ho.
  - intros e w'. apply wait_never_raises.
Qed.

Lemma frame_local_raise {A} e : frame_failure e -> frame_local P (@raise _ A e).
Proof.
  intros He w. cbn. repeat split.
  - exists (Joybus.state (self w)). now rewrite with_state_same.
  - exists []. rewrite app_nil_r. auto.
  - intros e' w' H. injection H as <- _. exact He.
  - lia.
Qed.

Lemma frame_local_putg ss es cls txt :
  P (mkAnn ss es cls txt) -> frame_local P (Joybus.putg ss es cls txt).
Proof.
  intros Hp w. cbn. repeat split.
  - exists (Joybus.state (self w)). now rewrite with_state_same.
  - eexists. split; [reflexivity|]. auto.
  - discriminate.
  - lia.
Qed.

Lemma frame_local_set_state s : frame_local P (Joybus.set_state s).
Proof.
  intros w. cbn. repeat split.
  - exists s. reflexivity.
  - exists []. rewrite app_nil_r. auto.
  - discriminate.
  - lia.
Qed.

Lemma frame_local_bind {A B} (m : M Joybus.Decoder A) (k : A -> M Joybus.Decoder B) :
  frame_local P m -> (forall a, frame_local P (k a)) -> frame_local P (bind m k).
Proof.
  intros Hm Hk w. destruct (Hm w) as ((s1 & Hd1) & (evs1 & Ho1 & Hp1) & Hr1 & Hlen1).
  unfold bind. destruct (m w) as [a w1 | e w1 | w1] eqn:E; cbn in Hd1, Ho1, Hlen1.
  - destruct (Hk a w1) as ((s2 & Hd2) & (evs2 & Ho2 & Hp2) & Hr2 & Hlen2). repeat split.
    + exists s2. rewrite Hd2, Hd1. reflexivity.
    + exists (evs1 ++ evs2). rewrite Ho2, Ho1, app_assoc. split; [reflexivity|].
      apply Forall_app; auto.
    + exact Hr2.
    + lia.
  - repeat split; cbn; eauto.
    intros e' w' H. injection H as <- <-. eauto.
  - repeat split; cbn; eauto. discriminate.
Qed.

Lemma frame_local_for_range {A} n (body : A -> M Joybus.Decoder A) :
  (forall a, frame_local P (body a)) -> forall acc, frame_local P (for_range n body acc).
Proof.
  intros Hb. induction n as [|n IH]; intros acc; cbn [for_range].
  - apply frame_local_ret.
  - apply frame_local_bind; auto.
Qed.

End FrameLocal.

Lemma frame_local_read_bit : frame_local not_error Joybus.read_bit.
Proof.
  unfold Joybus.read_bit.
  apply frame_local_bind; [apply frame_local_get_samplenum | intros bit_start].
  apply frame_local_bind; [apply frame_local_get_self | intros d].
  apply frame_local_bind; [apply frame_local_wait | intros si].
  destruct si; cbn [negb];
    [| apply frame_local_raise; left; reflexivity].
  apply frame_local_bind; [apply frame_local_get_samplenum | intros now].
  apply frame_local_bind; [apply frame_local_wait | intros si].
  destruct si; [apply frame_local_raise; left; reflexivity|].
  apply frame_local_bind; [apply frame_local_get_samplenum | intros now'].
  apply frame_local_bind; [| intros; apply frame_local_ret].
  apply frame_local_putg. unfold not_error. cbn. lia.
Qed.

Lemma frame_local_read_byte : frame_local not_error Joybus.read_byte.
Proof.
  unfold Joybus.read_byte.
  apply frame_local_bind; [apply frame_local_get_samplenum | intros byte_start].
  apply frame_local_bind; [| intros; apply frame_local_ret].
  apply frame_local_for_range. intros acc.
  apply frame_local_bind; [apply frame_local_read_bit | intros; apply frame_local_ret].
Qed.

Lemma frame_local_read_stop_bit width : frame_local not_error (Joybus.read_stop_bit width).
Proof.
  unfold Joybus.read_stop_bit.
  apply frame_local_bind; [apply frame_local_get_samplenum | intros stop_start].
  apply frame_local_bind; [apply frame_local_wait | intros _].
  destruct width.
  - apply frame_local_putg. unfold not_error. cbn. lia.
  - apply frame_local_bind; [apply frame_local_get_samplenum | intros now].
    apply frame_local_putg. unfold not_error. cbn. lia.
Qed.

Lemma frame_local_command_rest command_start command :
  frame_local not_error (Joybus.command_rest command_start command).
Proof.
  unfold Joybus.command_rest.
  apply frame_local_bind; [apply frame_local_get_samplenum | intros now].
  apply frame_local_bind;
    [apply frame_local_putg; unfold not_error; cbn; lia | intros _].
  destruct (lookup command Joybus.JOYBUS_COMMANDS) as [spec|];
    [| apply frame_local_raise; right; left; reflexivity].
  apply frame_local_bind.
  { apply frame_local_for_range. intros _.
    apply frame_local_bind; [apply frame_local_read_byte | intros sb].
    apply frame_local_bind; [apply frame_local_get_samplenum | intros now'].
    apply frame_local_putg. unfold not_error. cbn. lia. }
  intros _.
  apply frame_local_bind; [apply frame_local_get_self | intros d].
  apply frame_local_bind; [apply frame_local_read_stop_bit | intros _].
  apply frame_local_bind; [apply frame_local_wait | intros si].
  destruct si; [apply frame_local_raise; right; right; reflexivity|].
  apply frame_local_bind.
  { apply frame_local_for_range. intros _.
    apply frame_local_bind; [apply frame_local_read_byte | intros sb].
    apply frame_local_bind; [apply frame_local_get_samplenum | intros now'].
    apply frame_local_putg. unfold not_error. cbn. lia. }
  intros _.
  apply frame_local_bind; [apply frame_local_read_stop_bit | intros _].
  apply frame_local_set_state.
Qed.

Lemma frame_local_command_try : frame_local not_error Joybus.command_try.
Proof.
  unfold Joybus.command_try.
  apply frame_local_bind; [apply frame_local_read_byte | intros sb].
  apply frame_local_command_rest.
Qed.

(** ** Failures inside a frame *)

Lemma for_range_bits_world n : forall (w : World Joybus.Decoder) acc v w',
  for_range n
    (fun byte_value => bit_value <- Joybus.read_bit ;; ret (Z.lor (Z.shiftl byte_value 1) bit_value))
    acc w = Ok v w' ->
  exists bits,
    List.length bits = n /\ reads_bits w bits w' /\
    v = fold_left (fun byte_value bit_value => Z.lor (Z.shiftl byte_value 1) bit_value) bits acc.
Proof.
  induction n as [|n IH]; intros w acc v w' H; cbn [for_range] in H.
  - unfold ret in H. injection H as <- <-. exists []. repeat split. constructor.
  - unfold bind at 1 in H. unfold bind at 1 in H.
    destruct (Joybus.read_bit w) as [b w1 | |] eqn:E; try discriminate.
    unfold ret at 1 in H.
    destruct (IH _ _ _ _ H) as (bits & Hlen & Hr & Hv).
    exists (b :: bits). repeat split.
    + cbn. lia.
    + econstructor; eauto.
    + exact Hv.
Qed.

Lemma read_byte_inv (w : World Joybus.Decoder) s v w' :
  Joybus.read_byte w = Ok (s, v) w' ->
  s = samplenum w /\
  exists bits, List.length bits = 8%nat /\ reads_bits w bits w' /\ v = assemble bits.
Proof.
  unfold Joybus.read_byte. unfold bind at 1, get_samplenum at 1. unfold bind at 1.
  intros H.
  destruct (for_range 8 _ 0 w) as [v0 w0 | |] eqn:E; try discriminate.
  unfold ret in H. injection H as <- <- <-.
  split; [reflexivity|]. apply (for_range_bits_world 8 w 0 v0 w0 E).
Qed.

Lemma on_exception_world command_start e (w : World Joybus.Decoder) :
  Joybus.on_exception command_start e w
  = Ok tt (mkWorld (Joybus.with_state Joybus.INITIAL (self w)) (samplenum w) (line w)
             (out w ++ [mkAnn command_start (samplenum w) 5 [str e]])).
Proof. reflexivity. Qed.

(** The two handlers of [command_branch] are one: the rebinding of
    [command_start] does not change its value. *)
Lemma command_branch_try (w : World Joybus.Decoder) :
  Joybus.command_branch w
  = match Joybus.command_try w with
    | Raise e w1 => Joybus.on_exception (samplenum w) e w1
    | r => r
    end.
Proof.
  unfold Joybus.command_branch, Joybus.command_try, bind, try_except, get_samplenum.
  destruct (Joybus.read_byte w) as [[s v] w1 | e w1 | w1] eqn:E; try reflexivity.
  destruct (read_byte_inv w s v w1 E) as (-> & _).
  cbn [fst snd].
  destruct (Joybus.command_rest (samplenum w) v w1) as [[] w2 | e w2 | w2]; reflexivity.
Qed.

Lemma count_class_app c l1 l2 :
  count_class c (l1 ++ l2) = (count_class c l1 + count_class c l2)%nat.
Proof.
  unfold count_class. rewrite filter_app, length_app. reflexivity.
Qed.

Lemma count_class_not_error evs : Forall not_error evs -> count_class 5 evs = 0%nat.
Proof.
  induction 1 as [|a evs Ha _ IH]; [reflexivity|].
  unfold count_class in *. cbn [filter].
  destruct (Z.eqb_spec (ann_class a) 5); [contradiction | exact IH].
Qed.

Lemma decode_iteration_never_raises (w : World Joybus.Decoder) e w' :
  Joybus.decode_iteration w <> Raise e w'.
Proof.
  unfold Joybus.decode_iteration. unfold bind at 1, get_self at 1.
  destruct (Joybus.state (self w)).
  - unfold bind.
    destruct (wait [High] w) as [si w1 | e1 w1 | w1] eqn:E1; try discriminate.
    + destruct (wait _ w1) as [si2 w2 | e2 w2 | w2] eqn:E2; try discriminate.
      * destruct si2; discriminate.
      * destruct (wait_never_raises _ _ _ _ E2).
    + destruct (wait_never_raises _ _ _ _ E1).
  - unfold bind.
    destruct (wait [Falling] w) as [si w1 | e1 w1 | w1] eqn:E1; try discriminate.
    destruct (wait_never_raises _ _ _ _ E1).
  - rewrite command_branch_try.
    destruct (Joybus.command_try w); try discriminate.
Qed.

(** C3: when the [try] block of the [COMMAND] state fails, the failure is
    one of bit timeout, unknown command and response timeout; the iteration
    catches it and appends exactly one error annotation, which spans from the
    sample the frame started at to the current sample and carries the
    failure's text; the state becomes [INITIAL]; and no iteration of the loop
    lets a failure escape. *)
Theorem frame_failure_reported (w : World Joybus.Decoder) e w1 :
  Joybus.state (self w) = Joybus.COMMAND ->
  Joybus.command_try w = Raise e w1 ->
  frame_failure e /\
  (exists w' evs,
      Joybus.decode_iteration w = Ok tt w' /\
      Joybus.state (self w') = Joybus.INITIAL /\
      samplenum w' = samplenum w1 /\
      out w' = out w ++ evs ++ [mkAnn (samplenum w) (samplenum w') 5 [str e]] /\
      count_class 5 evs = 0%nat /\
      count_class 5 (evs ++ [mkAnn (samplenum w) (samplenum w') 5 [str e]]) = 1%nat) /\
  (forall e' w'', Joybus.decode_iteration w <> Raise e' w'').
Proof.
  intros Hs Ht.
  destruct (frame_local_command_try w) as (_ & (evs & Ho & Hp) & Hr & _).
  rewrite Ht in Ho. cbn [world_of] in Ho.
  split; [exact (Hr e w1 Ht)|]. split.
  - eexists. exists evs.
    rewrite (command_iteration w Hs), command_branch_try, Ht, on_exception_world.
    split; [reflexivity|]. cbn [self samplenum out].
    repeat split.
    + rewrite Ho, app_assoc. reflexivity.
    + apply count_class_not_error; assumption.
    + rewrite count_class_app, count_class_not_error by assumption. reflexivity.
  - intros e' w''. apply decode_iteration_never_raises.
Qed.

(** ** The loop runs to the end of the capture *)

Lemma bind_ok_inv {D A B} (m : M D A) (k : A -> M D B) w b w' :
  bind m k w = Ok b w' -> exists a w1, m w = Ok a w1 /\ k a w1 = Ok b w'.
Proof.
  unfold bind. destruct (m w) as [a w1 | |]; try discriminate. eauto.
Qed.

Lemma command_rest_ok_state command_start command (w w' : World Joybus.Decoder) :
  Joybus.command_rest command_start command w = Ok tt w' ->
  Joybus.state (self w') = Joybus.IDLE.
Proof.
  unfold Joybus.command_rest. intros H.
  apply bind_ok_inv in H. destruct H as (now & w1 & _ & H).
  apply bind_ok_inv in H. destruct H as (u1 & w2 & _ & H).
  destruct (lookup command Joybus.JOYBUS_COMMANDS) as [spec|]; [|discriminate].
  apply bind_ok_inv in H. destruct H as (u2 & w3 & _ & H).
  apply bind_ok_inv in H. destruct H as (d & w4 & _ & H).
  apply bind_ok_inv in H. destruct H as (u3 & w5 & _ & H).
  apply bind_ok_inv in H. destruct H as (si & w6 & _ & H).
  destruct si; [discriminate|].
  apply bind_ok_inv in H. destruct H as (u4 & w7 & _ & H).
  apply bind_ok_inv in H. destruct H as (u5 & w8 & _ & H).
  cbn in H. injection H as <-. reflexivity.
Qed.

Lemma command_try_ok_state (w w' : World Joybus.Decoder) :
  Joybus.command_try w = Ok tt w' -> Joybus.state (self w') = Joybus.IDLE.
Proof.
  unfold Joybus.command_try. intros H.
  apply bind_ok_inv in H. destruct H as (sb & w1 & _ & H).
  apply (command_rest_ok_state _ _ _ _ H).
Qed.

(** An iteration that does not end the run leaves less to do. *)
Lemma iteration_progress (w w' : World Joybus.Decoder) :
  Joybus.decode_iteration w = Ok tt w' -> (measure w' < measure w)%nat.
Proof.
  unfold measure, Joybus.decode_iteration. unfold bind at 1, get_self at 1.
  destruct (Joybus.state (self w)) eqn:Hs; intros H.
  - apply bind_ok_inv in H. destruct H as (s1 & w1 & H1 & H).
    apply bind_ok_inv in H. destruct H as (si & w2 & H2 & H).
    destruct (wait_inv _ _ _ _ H1) as (i1 & o1 & r1 & Hl1 & Hm1 & Hi1 & _ & Hlen1 & _ & Hd1 & _).
    destruct (wait_inv _ _ _ _ H2) as (i2 & o2 & r2 & Hl2 & Hm2 & Hi2 & _ & Hlen2 & H0 & Hd2 & _).
    cbn [existsb cond_matches] in Hm1. rewrite orb_false_r in Hm1. subst s1.
    destruct si.
    + cbn in H. injection H as <-. cbn [self line Joybus.state Joybus.with_state rank]. lia.
    + cbn in H. injection H as <-.
      assert (i2 <> 0).
      { intros ->. destruct (H0 eq_refl) as [Hsame _]. congruence. }
      rewrite Hd2, Hd1, Hs. cbn [rank]. lia.
  - apply bind_ok_inv in H. destruct H as (s1 & w1 & H1 & H).
    destruct (wait_edge_inv true _ _ _ H1) as (_ & Hlen & _).
    cbn in H. injection H as <-. cbn [self line Joybus.state Joybus.with_state rank]. lia.
  - fold Joybus.decode_iteration in H.
    rewrite command_branch_try in H.
    destruct (frame_local_command_try w) as (_ & _ & _ & Hlen).
    destruct (Joybus.command_try w) as [[] w1 | e w1 | w1] eqn:E; [| |discriminate];
      cbn [world_of] in Hlen.
    + injection H as <-. rewrite (command_try_ok_state _ _ E). cbn [rank]. lia.
    + rewrite on_exception_world in H. injection H as <-.
      cbn [self line Joybus.state Joybus.with_state rank]. lia.
Qed.

Lemma decode_loop_ends fuel : forall (w : World Joybus.Decoder),
  (measure w < fuel)%nat -> exists w', Joybus.decode_loop fuel w = Eof w'.
Proof.
  induction fuel as [|fuel IH]; intros w Hm; [lia|].
  cbn [Joybus.decode_loop]. unfold bind.
  destruct (Joybus.decode_iteration w) as [[] w1 | e w1 | w1] eqn:E.
  - apply IH. pose proof (iteration_progress _ _ E). lia.
  - destruct (decode_iteration_never_raises _ _ _ E).
  - eauto.
Qed.

(** With a sample rate other than zero, [decode] neither fails nor stops
    by itself: fuel for three iterations per sample ahead takes it to the end
    of the capture. *)
Lemma decode_runs_to_end (w : World Joybus.Decoder) r :
  Joybus.samplerate (self w) = Some r -> r <> 0 ->
  exists w', Joybus.decode (S (measure w)) w = Eof w'.
Proof.
  intros Hr Hne. unfold Joybus.decode, bind, get_self. rewrite Hr.
  destruct r; [congruence | |]; apply decode_loop_ends; lia.
Qed.

(** ** Bits into bytes *)

Lemma lor_shiftl_bit a b : is_bit b -> Z.lor (Z.shiftl a 1) b = 2 * a + b.
Proof.
  intros [-> | ->]; rewrite Z.shiftl_mul_pow2 by lia; change (2 ^ 1) with 2.
  - rewrite Z.lor_0_r. lia.
  - assert (H : Z.land (a * 2) 1 = 0).
    { change 1 with (Z.ones 1) at 1. rewrite Z.land_ones by lia.
      change (2 ^ 1) with 2. apply Z.mod_mul. lia. }
    rewrite <- Z.lxor_lor by exact H.
    rewrite <- Z.add_nocarry_lxor by exact H. lia.
Qed.

Lemma assemble_bound bits : forall acc,
  Forall is_bit bits -> 0 <= acc ->
  0 <= fold_left (fun byte_value bit_value => Z.lor (Z.shiftl byte_value 1) bit_value) bits acc
    <= (acc + 1) * 2 ^ Z.of_nat (List.length bits) - 1.
Proof.
  induction bits as [|b bits IH]; intros acc Hb Hacc.
  - cbn. lia.
  - inversion Hb as [|? ? Hb1 Hbs]; subst. cbn [fold_left List.length].
    rewrite lor_shiftl_bit by assumption.
    assert (Hacc' : 0 <= 2 * acc + b) by (destruct Hb1; lia).
    specialize (IH (2 * acc + b) Hbs Hacc').
    rewrite Nat2Z.inj_succ, Z.pow_succ_r by lia.
    assert (0 < 2 ^ Z.of_nat (List.length bits)) by (apply Z.pow_pos_nonneg; lia).
    destruct Hb1; subst b; nia.
Qed.

Lemma read_bit_is_bit (w : World Joybus.Decoder) b w' :
  Joybus.read_bit w = Ok b w' -> is_bit b.
Proof.
  intros H. destruct (read_bit_inv w b w' H) as (w1 & w2 & _ & _ & -> & _).
  unfold is_bit.
  destruct (bit_value_of_cases (samplenum w1 - samplenum w)
              (Joybus.bit_midpoint_samples (self w))) as [[_ ->] | [_ ->]]; auto.
Qed.

Lemma reads_bits_are_bits w bits w' : reads_bits w bits w' -> Forall is_bit bits.
Proof.
  induction 1 as [|w b w1 bs w' Hb _ IH]; constructor; auto.
  apply (read_bit_is_bit w b w1 Hb).
Qed.

(** C10: on every signal, a value returned by [read_bit] is 0 or 1, and a
    byte returned by [read_byte] lies between 0 and 255. *)
Theorem read_values_in_range :
  (forall (w : World Joybus.Decoder) b w',
      Joybus.read_bit w = Ok b w' -> b = 0 \/ b = 1)
  /\
  (forall (w : World Joybus.Decoder) byte_start byte_value w',
      Joybus.read_byte w = Ok (byte_start, byte_value) w' ->
      0 <= byte_value <= 255).
Proof.
  split.
  - intros w b w' H. exact (read_bit_is_bit w b w' H).
  - intros w s v w' H.
    destruct (read_byte_inv w s v w' H) as (_ & bits & Hlen & Hr & ->).
    pose proof (assemble_bound bits 0 (reads_bits_are_bits _ _ _ Hr) ltac:(lia)) as Hb.
    rewrite Hlen in Hb. unfold assemble. change ((0 + 1) * 2 ^ Z.of_nat 8 - 1) with 255 in Hb.
    exact Hb.
Qed.

(** *** The round trip through the wire *)

Lemma assemble_bits_of_byte v : 0 <= v <= 255 -> assemble (bits_of_byte v) = v.
Proof.
  intros Hv.
  assert (Hall : forallb (fun n => assemble (bits_of_byte (Z.of_nat n)) =? Z.of_nat n)
                   (seq 0 256) = true) by (vm_compute; reflexivity).
  rewrite forallb_forall in Hall.
  specialize (Hall (Z.to_nat v)). rewrite Z2Nat.id in Hall by lia.
  apply Z.eqb_eq, Hall, in_seq. lia.
Qed.

Lemma bits_of_byte_are_bits v : Forall is_bit (bits_of_byte v).
Proof.
  unfold bits_of_byte. apply Forall_map, Forall_forall. intros i _.
  unfold is_bit. destruct (Z.testbit v i); auto.
Qed.

Lemma encode_bit_ok d T b : valid_timing d T -> is_bit b -> ok_cell d (encode_bit T b).
Proof.
  unfold valid_timing, ok_cell, encode_bit. intros H [-> | ->]; cbn; lia.
Qed.

Lemma encode_bit_value d T b : valid_timing d T -> is_bit b -> cell_bit d (encode_bit T b) = b.
Proof.
  unfold valid_timing, cell_bit, encode_bit, Joybus.bit_value_of.
  intros H [-> | ->]; cbn.
  - destruct (Z.gtb_spec (low0 T) (Joybus.bit_midpoint_samples d)); lia.
  - destruct (Z.gtb_spec (low1 T) (Joybus.bit_midpoint_samples d)); lia.
Qed.

Lemma encode_byte_ok d T v : valid_timing d T -> ok_byte d (encode_byte T v).
Proof.
  intros H. split; [reflexivity|].
  unfold encode_byte. apply Forall_map.
  eapply Forall_impl; [| apply bits_of_byte_are_bits].
  intros b Hb. apply encode_bit_ok; assumption.
Qed.

Lemma encode_byte_bits d T v :
  valid_timing d T -> map (cell_bit d) (encode_byte T v) = bits_of_byte v.
Proof.
  intros H. unfold encode_byte. rewrite map_map.
  rewrite <- (map_id (bits_of_byte v)) at 2.
  apply map_ext_in. intros b Hb. apply encode_bit_value; [assumption|].
  pose proof (bits_of_byte_are_bits v) as Hall. rewrite Forall_forall in Hall. auto.
Qed.

Lemma encode_byte_value d T v :
  valid_timing d T -> 0 <= v <= 255 -> cells_value d (encode_byte T v) = v.
Proof.
  intros H Hv. unfold cells_value. rewrite (encode_byte_bits d T v H).
  apply assemble_bits_of_byte. exact Hv.
Qed.

Lemma reads_bits_cells cs : forall (w : World Joybus.Decoder) rest,
  Forall (ok_cell (self w)) cs ->
  line w = cells_wire cs ++ false :: rest ->
  reads_bits w (map (cell_bit (self w)) cs)
    (mkWorld (self w) (samplenum w + cells_len cs) (false :: rest)
       (out w ++ bit_events (self w) (samplenum w) cs)).
Proof.
  induction cs as [|c cs IH]; intros w rest Hok Hl.
  - cbn in *. destruct w; cbn in *. subst.
    rewrite Z.add_0_r, app_nil_r. constructor.
  - inversion Hok as [|? ? Hc Hcs]; subst.
    destruct (cells_wire_low (self w) cs rest Hcs) as (r & Hr).
    assert (Hl' : line w = cell_wire c ++ false :: r).
    { rewrite Hl. unfold cells_wire. cbn [flat_map]. rewrite <- app_assoc.
      f_equal. exact Hr. }
    cbn [map]. econstructor; [exact (read_bit_cell w c r Hc Hl')|].
    set (w1 := mkWorld _ _ _ _).
    specialize (IH w1 rest Hcs ltac:(symmetry; exact Hr)).
    unfold w1 in IH. cbn [self samplenum line out] in IH.
    cbn [bit_events cells_len fold_right].
    rewrite <- app_assoc in IH. cbn [app] in IH.
    rewrite Z.add_assoc. exact IH.
Qed.

(** C4: [read_byte] is eight successive calls of [read_bit] whose results
    are folded by [byte = (byte << 1) | bit] from 0, the first bit ending up
    most significant; hence for every byte value [v] from 0 to 255, sent
    most significant bit first with pulse widths the decoder tells apart,
    [read_byte] reads the eight bits of [v] and returns [v]. *)
Theorem read_byte_msb_first_round_trip :
  (forall (w : World Joybus.Decoder) byte_start byte_value w',
      Joybus.read_byte w = Ok (byte_start, byte_value) w' ->
      exists bits,
        List.length bits = 8%nat /\ reads_bits w bits w' /\
        byte_value
        = fold_left (fun byte bit => Z.lor (Z.shiftl byte 1) bit) bits 0)
  /\
  (forall (w : World Joybus.Decoder) T v rest,
      0 <= v <= 255 ->
      valid_timing (self w) T ->
      line w = cells_wire (encode_byte T v) ++ false :: rest ->
      exists w',
        Joybus.read_byte w = Ok (samplenum w, v) w' /\
        reads_bits w (bits_of_byte v) w').
Proof.
  split.
  - intros w s v w' H.
    destruct (read_byte_inv w s v w' H) as (_ & bits & Hlen & Hr & Hv).
    exists bits. auto.
  - intros w T v rest Hv HT Hl.
    pose proof (encode_byte_ok (self w) T v HT) as Hok.
    eexists. split.
    + rewrite (read_byte_cells w _ rest Hok Hl).
      rewrite (encode_byte_value (self w) T v HT Hv). reflexivity.
    + rewrite <- (encode_byte_bits (self w) T v HT).
      apply reads_bits_cells; [apply Hok | exact Hl].
Qed.

(** ** Bit timeouts *)

Lemma read_bit_no_rise (w : World Joybus.Decoder) rest :
  0 <= Joybus.bit_timeout_samples (self w) ->
  line w = run false (Joybus.bit_timeout_samples (self w) + 1) ++ rest ->
  Joybus.read_bit w
  = Raise (Exception "Bit timeout")
      (advance w (Joybus.bit_timeout_samples (self w)) (false :: rest)).
Proof.
  intros Hn Hl. unfold Joybus.read_bit, bind, get_samplenum, get_self.
  rewrite (wait_rising_expire w _ rest Hn Hl). reflexivity.
Qed.

Lemma read_bit_no_fall (w : World Joybus.Decoder) k rest :
  1 <= k <= Joybus.bit_timeout_samples (self w) ->
  line w = run false k ++ run true (Joybus.bit_timeout_samples (self w) + 1) ++ rest ->
  Joybus.read_bit w
  = Raise (Exception "Bit timeout")
      (mkWorld (self w) (samplenum w + k + Joybus.bit_timeout_samples (self w))
         (true :: rest) (out w)).
Proof.
  intros Hk Hl. unfold Joybus.read_bit, bind, get_samplenum, get_self.
  set (n := Joybus.bit_timeout_samples (self w)) in *.
  rewrite (run_high_start (n + 1)) in Hl by lia.
  rewrite (wait_rising_within w _ k _ Hk Hl). cbn [negb].
  set (w1 := advance w k _).
  assert (Hl1 : line w1 = run true (n + 1) ++ rest).
  { unfold w1. cbn [line advance]. rewrite (run_high_start (n + 1)) by lia. reflexivity. }
  rewrite (wait_falling_expire w1 n rest ltac:(lia) Hl1). reflexivity.
Qed.

Lemma read_bit_eof_low (w : World Joybus.Decoder) k :
  0 <= k <= Joybus.bit_timeout_samples (self w) ->
  line w = run false k ->
  exists w', Joybus.read_bit w = Eof w'.
Proof.
  intros Hk Hl. unfold Joybus.read_bit, bind, get_samplenum, get_self.
  destruct (wait_leave_eof w false _ k Hk Hl) as (w' & Hw & _).
  change (leave false) with Rising in Hw. rewrite Hw. eauto.
Qed.

Lemma read_bit_eof_high (w : World Joybus.Decoder) k h :
  1 <= k <= Joybus.bit_timeout_samples (self w) ->
  1 <= h <= Joybus.bit_timeout_samples (self w) ->
  line w = run false k ++ run true h ->
  exists w', Joybus.read_bit w = Eof w'.
Proof.
  intros Hk Hh Hl. unfold Joybus.read_bit, bind, get_samplenum, get_self.
  set (n := Joybus.bit_timeout_samples (self w)) in *.
  rewrite <- (app_nil_r (run true h)) in Hl.
  rewrite (run_high_start h) in Hl by lia.
  rewrite (wait_rising_within w _ k _ Hk Hl). cbn [negb].
  set (w1 := advance w k _).
  assert (Hl1 : line w1 = run true h).
  { unfold w1. cbn [line advance]. rewrite app_nil_r.
    rewrite (run_pos true h) by lia. reflexivity. }
  destruct (wait_leave_eof w1 true n h ltac:(lia) Hl1) as (w' & Hw & _).
  change (leave true) with Falling in Hw. rewrite Hw. eauto.
Qed.

(** A line that is low at the cursor has exactly one of the four shapes. *)
Lemma low_line_cases n l :
  0 <= n ->
  no_rise n (false :: l) \/ no_fall n (false :: l) \/ both_edges n (false :: l)
  \/ capture_ends n (false :: l).
Proof.
  intros Hn.
  destruct (run_decompose_pos false l) as (k & Hk & [Hl | (r1 & Hl)]).
  - destruct (Z_le_gt_dec k n).
    + right. right. right. left. exists k. split; [lia | exact Hl].
    + left. exists (run false (k - (n + 1))). rewrite Hl.
      rewrite <- run_app by lia. f_equal. lia.
  - cbn [negb] in Hl. destruct (Z_le_gt_dec k n).
    + destruct (run_decompose_pos true r1) as (h & Hh & [Hr | (r2 & Hr)]);
        rewrite Hr in Hl; cbn [negb] in Hl.
      * destruct (Z_le_gt_dec h n).
        -- right. right. right. right. exists k, h. repeat split; auto; lia.
        -- right. left. exists k, (run true (h - (n + 1))). split; [lia|].
           rewrite Hl. rewrite <- run_app by lia. do 2 f_equal. lia.
      * destruct (Z_le_gt_dec h n).
        -- right. right. left. exists k, h, r2. repeat split; auto; lia.
        -- right. left. exists k, (run true (h - (n + 1)) ++ false :: r2).
           split; [lia|]. rewrite Hl. rewrite (app_assoc (run true (n + 1))).
           rewrite <- run_app by lia. do 3 f_equal. lia.
    + left. exists (run false (k - (n + 1)) ++ true :: r1). rewrite Hl.
      rewrite app_assoc. rewrite <- run_app by lia. do 2 f_equal. lia.
Qed.

(** *** Where [read_bit] is called

    The theorem below assumes the line low under the cursor.  That is how
    the decoder calls [read_bit]: the [COMMAND] state is entered on a falling
    edge, a bit that was read ends on one, and the response is awaited until
    the line is low. *)

Lemma idle_enters_low (w w' : World Joybus.Decoder) :
  Joybus.state (self w) = Joybus.IDLE ->
  Joybus.decode_iteration w = Ok tt w' ->
  Joybus.state (self w') = Joybus.COMMAND /\ line_low w'.
Proof.
  intros Hs. unfold Joybus.decode_iteration. unfold bind at 1, get_self at 1.
  rewrite Hs. intros H.
  apply bind_ok_inv in H. destruct H as (si & w1 & H1 & H).
  destruct (wait_edge_inv true _ _ _ H1) as (_ & _ & rest & Hl).
  cbn in H. injection H as <-. split; [reflexivity|]. exists rest. exact Hl.
Qed.

Lemma read_bit_leaves_low (w : World Joybus.Decoder) b w' :
  Joybus.read_bit w = Ok b w' -> line_low w'.
Proof.
  intros H. destruct (read_bit_inv w b w' H) as (w1 & w2 & _ & H2 & _ & ->).
  destruct (wait_pin _ _ _ _ H2) as (rest & Hl). exists rest. exact Hl.
Qed.

Lemma reads_bits_low w bits w' :
  reads_bits w bits w' -> line_low w -> line_low w'.
Proof.
  induction 1 as [|w b w1 bs w' Hb _ IH]; intros Hlow; [assumption|].
  apply IH. apply (read_bit_leaves_low w b w1 Hb).
Qed.

Lemma read_byte_leaves_low (w : World Joybus.Decoder) r w' :
  Joybus.read_byte w = Ok r w' -> line_low w -> line_low w'.
Proof.
  destruct r as [s v]. intros H Hlow.
  destruct (read_byte_inv w s v w' H) as (_ & bits & _ & Hr & _).
  apply (reads_bits_low w bits w' Hr Hlow).
Qed.

Lemma response_wait_low (w : World Joybus.Decoder) n w' :
  wait [Falling; Skip n] w = Ok false w' -> line_low w'.
Proof.
  intros H. destruct (wait_pin _ _ _ _ H) as (rest & Hl). exists rest. exact Hl.
Qed.

(** C5: with the line low at the cursor, as at every call of [read_bit]
    inside a frame, [read_bit] raises the bit timeout exactly when the line
    stays low for [bit_timeout_samples] further samples, or rises in time and
    then stays high for [bit_timeout_samples] further samples; it returns a
    bit exactly when both edges come within the limit; and it raises nothing
    else. *)
Theorem read_bit_timeout_iff (w : World Joybus.Decoder) :
  line_low w ->
  0 <= Joybus.bit_timeout_samples (self w) ->
  let n := Joybus.bit_timeout_samples (self w) in
  ((exists w', Joybus.read_bit w = Raise (Exception "Bit timeout") w')
     <-> no_rise n (line w) \/ no_fall n (line w)) /\
  ((exists b w', Joybus.read_bit w = Ok b w') <-> both_edges n (line w)) /\
  (forall e w', Joybus.read_bit w = Raise e w' -> e = Exception "Bit timeout").
Proof.
  intros (l & Hl) Hn n.
  assert (Hfwd1 : no_rise n (line w) ->
                  exists w', Joybus.read_bit w = Raise (Exception "Bit timeout") w').
  { intros (rest & H). eexists. apply (read_bit_no_rise w rest Hn H). }
  assert (Hfwd2 : no_fall n (line w) ->
                  exists w', Joybus.read_bit w = Raise (Exception "Bit timeout") w').
  { intros (k & rest & Hk & H). eexists. apply (read_bit_no_fall w k rest Hk H). }
  assert (Hfwd3 : both_edges n (line w) -> exists b w', Joybus.read_bit w = Ok b w').
  { intros (k & h & rest & Hk & Hh & H). do 2 eexists.
    apply (read_bit_cell w (k, h) rest); [split; assumption |].
    unfold cell_wire. cbn [fst snd]. rewrite <- app_assoc. exact H. }
  assert (Hfwd4 : capture_ends n (line w) -> exists w', Joybus.read_bit w = Eof w').
  { intros [(k & Hk & H) | (k & h & Hk & Hh & H)].
    - apply (read_bit_eof_low w k); [fold n; lia | exact H].
    - apply (read_bit_eof_high w k h); assumption. }
  pose proof (low_line_cases n l Hn) as Hcases. rewrite <- Hl in Hcases.
  repeat split.
  - intros (w' & Hr).
    destruct Hcases as [H | [H | [H | H]]]; auto.
    + destruct (Hfwd3 H) as (b & w'' & H'). congruence.
    + destruct (Hfwd4 H) as (w'' & H'). congruence.
  - intros [H | H]; auto.
  - intros (b & w' & Hr).
    destruct Hcases as [H | [H | [H | H]]]; auto.
    + destruct (Hfwd1 H) as (w'' & H'). congruence.
    + destruct (Hfwd2 H) as (w'' & H'). congruence.
    + destruct (Hfwd4 H) as (w'' & H'). congruence.
  - exact Hfwd3.
  - intros e w' Hr.
    destruct Hcases as [H | [H | [H | H]]].
    + destruct (Hfwd1 H) as (w'' & H'). congruence.
    + destruct (Hfwd2 H) as (w'' & H'). congruence.
    + destruct (Hfwd3 H) as (b & w'' & H'). congruence.
    + destruct (Hfwd4 H) as (w'' & H'). congruence.
Qed.

(** ** Idle debounce *)

(** C7: an iteration in [INITIAL] moves to [IDLE] only if, once the line was
    high, it stayed high for the sample it was found high at and
    [idle_min_samples] further ones, and it does so whenever the line stays
    high that long; if a falling edge ends the high period after at most
    [idle_min_samples] samples, the decoder stays in [INITIAL] with the
    cursor on that edge and nothing annotated, and tries again. *)
Theorem initial_to_idle_debounce (w : World Joybus.Decoder) :
  Joybus.state (self w) = Joybus.INITIAL ->
  0 <= Joybus.idle_min_samples (self w) ->
  let idle_min := Joybus.idle_min_samples (self w) in
  (forall w',
      Joybus.decode_iteration w = Ok tt w' ->
      Joybus.state (self w') = Joybus.IDLE ->
      exists j rest,
        0 <= j /\
        line w = run false j ++ run true (idle_min + 1) ++ rest /\
        line w' = true :: rest /\
        samplenum w' = samplenum w + j + idle_min) /\
  (forall j rest,
      0 <= j ->
      line w = run false j ++ run true (idle_min + 1) ++ rest ->
      exists w',
        Joybus.decode_iteration w = Ok tt w' /\
        Joybus.state (self w') = Joybus.IDLE) /\
  (forall j k rest,
      0 <= j -> 1 <= k <= idle_min ->
      line w = run false j ++ run true k ++ false :: rest ->
      exists w',
        Joybus.decode_iteration w = Ok tt w' /\
        Joybus.state (self w') = Joybus.INITIAL /\
        line w' = false :: rest /\
        samplenum w' = samplenum w + j + k /\
        out w' = out w).
Proof.
  intros Hs Hn idle_min. repeat split.
  - intros w' Hw Hs'.
    destruct (initial_iteration_cases w Hs Hn)
      as [(w1 & H1 & _) | [(j & k & rest & Hj & Hk & Hl & H1) | (j & rest & Hj & Hl & H1)]].
    + congruence.
    + rewrite H1 in Hw. injection Hw as <-. cbn [self] in Hs'. congruence.
    + rewrite H1 in Hw. injection Hw as <-. exists j, rest. auto.
  - intros j rest Hj Hl. eexists. split.
    + apply (initial_iteration_long w j rest Hs Hj Hn Hl).
    + reflexivity.
  - intros j k rest Hj Hk Hl. eexists. split.
    + apply (initial_iteration_short w j k rest Hs Hj Hk Hl).
    + cbn [self line samplenum out]. auto.
Qed.

(** ** Well-formed frames *)

Lemma count_class_cons c a evs :
  count_class c (a :: evs)
  = ((if (ann_class a =? c)%Z then 1 else 0) + count_class c evs)%nat.
Proof.
  unfold count_class. cbn [filter]. destruct (ann_class a =? c); reflexivity.
Qed.

Lemma count_class_bit_events c d start cs :
  c <> 3 -> count_class c (bit_events d start cs) = 0%nat.
Proof.
  intros Hc. revert start. induction cs as [|x cs IH]; intros start; [reflexivity|].
  cbn [bit_events]. rewrite count_class_cons, IH. cbn [ann_class].
  destruct (Z.eqb_spec 3 c); [congruence | reflexivity].
Qed.

Lemma count_class_byte_events c d cls start bs :
  c <> 3 ->
  count_class c (byte_events d cls start bs)
  = if cls =? c then List.length bs else 0%nat.
Proof.
  intros Hc. revert start. induction bs as [|b bs IH]; intros start.
  - destruct (cls =? c); reflexivity.
  - cbn [byte_events]. rewrite count_class_app, count_class_bit_events by assumption.
    rewrite count_class_cons, IH. cbn [ann_class List.length].
    destruct (cls =? c); reflexivity.
Qed.

Lemma count_class_frame_events c d start f :
  c <> 3 ->
  count_class c (frame_events d start f)
  = ((if (0 =? c)%Z then 1 else 0)
     + (if (1 =? c)%Z then List.length (command_data f) else 0)
     + (if (4 =? c)%Z then 2 else 0)
     + (if (2 =? c)%Z then List.length (response_data f) else 0))%nat.
Proof.
  intros Hc. unfold frame_events, command_event, stop_event.
  repeat (rewrite ?count_class_app, ?count_class_cons,
           ?count_class_bit_events, ?count_class_byte_events by assumption).
  cbn [ann_class]. change (count_class c []) with 0%nat.
  destruct (0 =? c), (1 =? c), (4 =? c), (2 =? c); lia.
Qed.

(** The expected annotations depend on the timing attributes only. *)
Lemma bit_events_with_state s d start cs :
  bit_events (Joybus.with_state s d) start cs = bit_events d start cs.
Proof.
  revert start. induction cs as [|c cs IH]; intros start; [reflexivity|].
  cbn [bit_events]. rewrite IH. reflexivity.
Qed.

Lemma byte_events_with_state s d cls start bs :
  byte_events (Joybus.with_state s d) cls start bs = byte_events d cls start bs.
Proof.
  revert start. induction bs as [|b bs IH]; intros start; [reflexivity|].
  cbn [byte_events]. rewrite IH, bit_events_with_state. reflexivity.
Qed.

Lemma frame_events_with_state s d start f :
  frame_events (Joybus.with_state s d) start f = frame_events d start f.
Proof.
  unfold frame_events.
  rewrite bit_events_with_state, !byte_events_with_state. reflexivity.
Qed.

Lemma frame_wire_low d spec f tail :
  wf_frame d spec f -> exists r, frame_wire f ++ tail = false :: r.
Proof.
  intros (Hop & _). unfold frame_wire. rewrite <- app_assoc.
  apply (cells_wire_low_ne d); [apply Hop | apply (ok_byte_ne d _ Hop)].
Qed.

Lemma idle_then_frame (w : World Joybus.Decoder) spec f k tail :
  Joybus.state (self w) = Joybus.IDLE ->
  1 <= k ->
  wf_frame (self w) spec f ->
  line w = run true k ++ frame_wire f ++ true :: tail ->
  Joybus.decode_loop 2 w
  = Ok tt (mkWorld (Joybus.with_state Joybus.IDLE (self w))
             (samplenum w + k + frame_len f) (true :: tail)
             (out w ++ frame_events (self w) (samplenum w + k) f)).
Proof.
  intros Hs Hk Hwf Hl.
  destruct (frame_wire_low (self w) spec f (true :: tail) Hwf) as (r & Hr).
  rewrite Hr in Hl.
  cbn [Joybus.decode_loop]. unfold bind at 1.
  rewrite (idle_iteration w k r Hs Hk Hl).
  set (w1 := mkWorld _ _ _ _).
  unfold bind at 1.
  rewrite (command_iteration w1) by reflexivity.
  rewrite (command_branch_frame w1 spec f tail Hwf) by (symmetry; exact Hr).
  unfold w1. cbn [self samplenum line out ret].
  rewrite frame_events_with_state. reflexivity.
Qed.

Lemma frame_event_counts d spec start f :
  wf_frame d spec f ->
  let evs := frame_events d start f in
  count_class 0 evs = 1%nat /\
  Z.of_nat (count_class 1 evs) = command_len spec - 1 /\
  Z.of_nat (count_class 2 evs) = response_len spec /\
  count_class 4 evs = 2%nat /\
  count_class 5 evs = 0%nat.
Proof.
  intros (_ & _ & Hcl & _ & _ & _ & Hrl & _). cbv zeta.
  rewrite !count_class_frame_events by lia. cbn [Z.eqb Pos.eqb].
  repeat split; try reflexivity; lia.
Qed.

(** C2: for a frame whose opcode is in the command table, with the table's
    numbers of command and response bytes, both stop bits and all pulses
    within the timing bounds, the two iterations that take the decoder from
    [IDLE] through [COMMAND] put one command annotation, [command_len - 1]
    command data bytes, [response_len] response data bytes, two stop bits and
    no error, and leave the decoder in [IDLE]. *)
Theorem frame_length_correctness (w : World Joybus.Decoder) spec f k tail :
  Joybus.state (self w) = Joybus.IDLE ->
  1 <= k ->
  wf_frame (self w) spec f ->
  line w = run true k ++ frame_wire f ++ true :: tail ->
  exists w',
    Joybus.decode_loop 2 w = Ok tt w' /\
    Joybus.state (self w') = Joybus.IDLE /\
    line w' = true :: tail /\
    exists evs,
      out w' = out w ++ evs /\
      evs = frame_events (self w) (samplenum w + k) f /\
      count_class 0 evs = 1%nat /\
      Z.of_nat (count_class 1 evs) = command_len spec - 1 /\
      Z.of_nat (count_class 2 evs) = response_len spec /\
      count_class 4 evs = 2%nat /\
      count_class 5 evs = 0%nat.
Proof.
  intros Hs Hk Hwf Hl.
  eexists. split; [apply (idle_then_frame w spec f k tail Hs Hk Hwf Hl)|].
  split; [reflexivity|]. split; [reflexivity|].
  eexists. split; [reflexivity|]. split; [reflexivity|].
  apply (frame_event_counts (self w) spec _ f Hwf).
Qed.

(** ** Unknown opcodes and resynchronisation *)

Lemma lookup_in_range op spec :
  lookup op Joybus.JOYBUS_COMMANDS = Some spec -> 0 <= op <= 255.
Proof.
  unfold Joybus.JOYBUS_COMMANDS. cbn [lookup]. intros H.
  repeat match type of H with
         | context [op =? ?k] => destruct (Z.eqb_spec op k); [lia|]
         end.
  discriminate.
Qed.

Lemma encode_frame_wf d T op spec cdata rdata cstop g rstop :
  valid_timing d T ->
  lookup op Joybus.JOYBUS_COMMANDS = Some spec ->
  Z.of_nat (List.length cdata) = command_len spec - 1 ->
  Z.of_nat (List.length rdata) = response_len spec ->
  1 <= cstop -> 1 <= g <= Joybus.response_timeout_samples d -> 1 <= rstop ->
  wf_frame d spec (encode_frame T op cdata rdata cstop g rstop).
Proof.
  intros HT Hop Hc Hr Hcs Hg Hrs. unfold wf_frame, encode_frame.
  cbn [opcode command_data command_stop gap response_data response_stop].
  split. { apply encode_byte_ok, HT. }
  split. { rewrite (encode_byte_value d T op HT (lookup_in_range op spec Hop)). exact Hop. }
  split. { rewrite length_map. exact Hc. }
  split. { apply Forall_map, Forall_forall. intros v _. apply encode_byte_ok, HT. }
  split. { exact Hcs. }
  split. { exact Hg. }
  split. { rewrite length_map. exact Hr. }
  split. { apply Forall_map, Forall_forall. intros v _. apply encode_byte_ok, HT. }
  exact Hrs.
Qed.

Lemma decode_loop_app n m (w : World Joybus.Decoder) :
  Joybus.decode_loop (n + m) w
  = match Joybus.decode_loop n w with
    | Ok _ w' => Joybus.decode_loop m w'
    | r => r
    end.
Proof.
  revert w. induction n as [|n IH]; intros w; [reflexivity|].
  cbn [Nat.add Joybus.decode_loop]. unfold bind.
  destruct (Joybus.decode_iteration w) as [[] w1 | e w1 | w1]; auto.
Qed.

Lemma command_branch_unknown (w : World Joybus.Decoder) op rest :
  ok_byte (self w) op ->
  lookup (cells_value (self w) op) Joybus.JOYBUS_COMMANDS = None ->
  line w = cells_wire op ++ false :: rest ->
  Joybus.command_branch w
  = Ok tt
      (mkWorld (Joybus.with_state Joybus.INITIAL (self w))
         (samplenum w + cells_len op) (false :: rest)
         (out w ++ bit_events (self w) (samplenum w) op
            ++ [command_event (self w) (samplenum w) op;
                error_event (samplenum w) (samplenum w + cells_len op) "Unknown command"])).
Proof.
  intros Hop Hnone Hl.
  rewrite command_branch_try. unfold Joybus.command_try. unfold bind at 1.
  rewrite (read_byte_cells w op rest Hop Hl). cbn [fst snd].
  unfold Joybus.command_rest, bind, get_samplenum, Joybus.put_command, Joybus.putg, put.
  rewrite Hnone. unfold raise. rewrite on_exception_world.
  unfold command_event, error_event, Joybus.command_name.
  cbn [self samplenum line out str]. rewrite Hnone.
  rewrite <- !app_assoc. reflexivity.
Qed.

(** Each pulse of leftover traffic costs one iteration in [INITIAL]. *)
Lemma initial_skips_traffic junk : forall (w : World Joybus.Decoder) rest,
  Joybus.state (self w) = Joybus.INITIAL ->
  Forall (short_pulse (self w)) junk ->
  line w = cells_wire junk ++ false :: rest ->
  Joybus.decode_loop (List.length junk) w
  = Ok tt (mkWorld (self w) (samplenum w + cells_len junk) (false :: rest) (out w)).
Proof.
  induction junk as [|c junk IH]; intros w rest Hs Hj Hl.
  - cbn in *. unfold ret. destruct w; cbn in *. subst. rewrite Z.add_0_r. reflexivity.
  - inversion Hj as [|? ? [Hlo Hhi] Hjunk]; subst.
    assert (exists r, cells_wire junk ++ false :: rest = false :: r) as (r & Hr).
    { destruct Hjunk as [|c' junk' [Hlo' _] _]; [eexists; reflexivity|].
      unfold cells_wire. cbn [flat_map]. unfold cell_wire at 1.
      rewrite (run_pos false (fst c')) by lia. cbn [app]. eauto. }
    assert (Hl' : line w = run false (fst c) ++ run true (snd c) ++ false :: r).
    { rewrite Hl. unfold cells_wire. cbn [flat_map].
      unfold cell_wire at 1. rewrite <- !app_assoc. do 2 f_equal. exact Hr. }
    cbn [List.length Joybus.decode_loop]. unfold bind at 1.
    rewrite (initial_iteration_short w (fst c) (snd c) r Hs ltac:(lia) Hhi Hl').
    rewrite IH with (rest := rest); cbn [self samplenum line out]; auto.
    cbn [cells_len fold_right]. unfold cell_len. rewrite !Z.add_assoc. reflexivity.
Qed.

(** C6: a frame whose opcode is not in the table gets its bits and a
    command annotation that names the opcode by its value in hexadecimal,
    then the one error annotation of the unknown-command failure; the decoder
    passes over what is left of the frame, pulse by pulse, waits out the idle
    time, and decodes the well-formed frame that follows the idle gap as it
    would have from [IDLE]. *)
Theorem unknown_opcode_resync (w : World Joybus.Decoder) op junk lo g spec f k tail :
  Joybus.state (self w) = Joybus.IDLE ->
  0 <= Joybus.idle_min_samples (self w) ->
  1 <= k ->
  ok_byte (self w) op ->
  lookup (cells_value (self w) op) Joybus.JOYBUS_COMMANDS = None ->
  Forall (short_pulse (self w)) junk ->
  1 <= lo -> 1 <= g ->
  wf_frame (self w) spec f ->
  line w = run true k ++ cells_wire op ++ cells_wire junk ++ run false lo
             ++ run true (Joybus.idle_min_samples (self w) + g)
             ++ frame_wire f ++ true :: tail ->
  let start := samplenum w + k in
  let stop := start + cells_len op in
  let start' := stop + cells_len junk + lo + Joybus.idle_min_samples (self w) + g in
  let hex := ("0x" ++ format_02X (cells_value (self w) op))%string in
  exists w',
    Joybus.decode_loop (List.length junk + 5) w = Ok tt w' /\
    Joybus.state (self w') = Joybus.IDLE /\
    line w' = true :: tail /\
    out w' = out w ++ bit_events (self w) start op
               ++ [mkAnn start stop 0 [("Command: " ++ hex)%string; hex];
                   mkAnn start stop 5 ["Unknown command"%string]]
               ++ frame_events (self w) start' f /\
    count_class 5 (bit_events (self w) start op
               ++ [mkAnn start stop 0 [("Command: " ++ hex)%string; hex];
                   mkAnn start stop 5 ["Unknown command"%string]]) = 1%nat /\
    count_class 5 (frame_events (self w) start' f) = 0%nat.
Proof.
  intros Hs Hn Hk Hop Hnone Hjunk Hlo Hg Hwf Hl start stop start' hex.
  set (n := Joybus.idle_min_samples (self w)) in *.
  (* the signal, cut at the points where the cursor comes to rest *)
  set (l4 := frame_wire f ++ true :: tail) in *.
  set (l3 := run false lo ++ run true (n + g) ++ l4) in *.
  assert (exists r3, l3 = false :: r3) as (r3 & Hr3).
  { unfold l3. rewrite (run_low_start lo) by lia. eauto. }
  assert (exists r2, cells_wire junk ++ l3 = false :: r2) as (r2 & Hr2).
  { rewrite Hr3. destruct Hjunk as [|c junk [Hc _] _]; [eexists; reflexivity|].
    unfold cells_wire. cbn [flat_map]. unfold cell_wire at 1.
    rewrite (run_pos false (fst c)) by lia. cbn [app]. eauto. }
  assert (exists r1, cells_wire op ++ cells_wire junk ++ l3 = false :: r1) as (r1 & Hr1).
  { apply (cells_wire_low_ne (self w)); [apply Hop | apply (ok_byte_ne _ _ Hop)]. }
  replace (List.length junk + 5)%nat with (2 + (List.length junk + (1 + 2)))%nat by lia.
  (* IDLE, then the frame with the unknown opcode *)
  rewrite decode_loop_app.
  assert (H2 : Joybus.decode_loop 2 w
               = Ok tt (mkWorld (Joybus.with_state Joybus.INITIAL (self w)) stop (false :: r2)
                          (out w ++ bit_events (self w) start op
                             ++ [command_event (self w) start op;
                                 error_event start stop "Unknown command"]))).
  { cbn [Joybus.decode_loop]. unfold bind at 1.
    rewrite Hr1 in Hl. rewrite (idle_iteration w k r1 Hs Hk Hl).
    set (w1 := mkWorld _ _ _ _). unfold bind at 1.
    rewrite (command_iteration w1) by reflexivity.
    rewrite (command_branch_unknown w1 op r2 Hop Hnone)
      by (unfold w1; cbn [line]; rewrite <- Hr1, Hr2; reflexivity).
    unfold w1. cbn [self samplenum line out ret].
    rewrite bit_events_with_state. reflexivity. }
  rewrite H2. clear H2.
  (* the rest of that frame *)
  rewrite decode_loop_app.
  set (w2 := mkWorld _ _ _ _).
  rewrite (initial_skips_traffic junk w2 r3) by
    (auto; unfold w2; cbn [line]; rewrite <- Hr2, Hr3; reflexivity).
  (* the idle gap *)
  rewrite decode_loop_app.
  set (w3 := mkWorld _ _ _ _).
  assert (H3 : Joybus.decode_loop 1 w3
               = Ok tt (mkWorld (Joybus.with_state Joybus.IDLE (self w))
                          (samplenum w3 + lo + n) (true :: run true (g - 1) ++ l4) (out w3))).
  { cbn [Joybus.decode_loop]. unfold bind at 1.
    rewrite (initial_iteration_long w3 lo (run true (g - 1) ++ l4));
      [reflexivity | reflexivity | lia | exact Hn |].
    unfold w3. cbn [line self Joybus.with_state Joybus.idle_min_samples]. fold n.
    rewrite <- Hr3. unfold l3.
    rewrite (app_assoc (run true (n + 1))). rewrite <- run_app by lia.
    do 2 f_equal. f_equal. lia. }
  rewrite H3. clear H3.
  (* the next frame *)
  set (w4 := mkWorld _ _ _ _).
  rewrite (idle_then_frame w4 spec f g tail) by
    (auto; unfold w4; cbn [line]; rewrite (run_high_start g) by lia; reflexivity).
  eexists. split; [reflexivity|].
  unfold w4, w3, w2. cbn [self samplenum line out].
  split; [reflexivity|]. split; [reflexivity|].
  rewrite frame_events_with_state.
  unfold command_event, error_event, Joybus.command_name. rewrite Hnone.
  fold start stop hex.
  replace (stop + cells_len junk + lo + n + g) with start' by (unfold start'; lia).
  split; [rewrite <- !app_assoc; reflexivity|].
  split.
  - rewrite count_class_app, count_class_bit_events by lia. reflexivity.
  - apply (frame_event_counts (self w) spec start' f Hwf).
Qed.

(** ** Configuration *)

Lemma decode_loop_never_raises fuel : forall (w : World Joybus.Decoder) e w',
  Joybus.decode_loop fuel w <> Raise e w'.
Proof.
  induction fuel as [|fuel IH]; intros w e w'; cbn [Joybus.decode_loop].
  - discriminate.
  - unfold bind.
    destruct (Joybus.decode_iteration w) as [[] w1 | e1 w1 | w1] eqn:E.
    + apply IH.
    + destruct (decode_iteration_never_raises _ _ _ E).
    + discriminate.
Qed.

(** C8, as the code has it: [decode] fails before it waits for a sample or
    puts an annotation when the sample rate was never set or is zero; for
    every other sample rate it raises nothing, however small the derived
    windows are, and runs to the end of the capture. *)
Theorem decode_samplerate_check (w : World Joybus.Decoder) (fuel : nat) :
  (Joybus.samplerate (self w) = None ->
   exists msg, Joybus.decode fuel w = Raise (AttributeError msg) w) /\
  (Joybus.samplerate (self w) = Some 0 ->
   Joybus.decode fuel w = Raise (Exception "Cannot decode without samplerate.") w) /\
  (forall r, Joybus.samplerate (self w) = Some r -> r <> 0 ->
   (forall e w', Joybus.decode fuel w <> Raise e w') /\
   (exists w', Joybus.decode (S (measure w)) w = Eof w')).
Proof.
  split; [|split].
  - unfold Joybus.decode, bind, get_self, raise. intros ->. eauto.
  - unfold Joybus.decode, bind, get_self, raise. intros ->. reflexivity.
  - intros r Hr Hne. split.
    + intros e w'. unfold Joybus.decode, bind, get_self. rewrite Hr.
      destruct r; [congruence | |]; apply decode_loop_never_raises.
    + apply (decode_runs_to_end w r Hr Hne).
Qed.

(** At 1 kHz every derived window is zero samples long, and the decoder
    runs all the same: it reports a bit timeout for the frame and goes on to
    the end of the capture. *)
Lemma degenerate_windows_tolerated :
  let d := Joybus.metadata SRD_CONF_SAMPLERATE 1000 Joybus.init in
  Joybus.idle_min_samples d = 0 /\
  Joybus.bit_timeout_samples d = 0 /\
  Joybus.response_timeout_samples d = 0 /\
  exists w',
    Joybus.decode 5 (capture d [true; true; false; false; true; true]) = Eof w' /\
    out w' = [mkAnn 2 2 5 ["Bit timeout"%string]].
Proof.
  cbv zeta. repeat split; try (vm_compute; reflexivity).
  eexists. split; vm_compute; reflexivity.
Qed.

(** C9, as the code has it: [metadata] assigns the sample rate and the
    timing attributes and leaves [state] as it was; [state] is [INITIAL]
    after [reset], which the constructor calls. *)
Theorem metadata_keeps_state :
  (forall key value d,
      Joybus.state (Joybus.metadata key value d) = Joybus.state d) /\
  (forall value d,
      let d' := Joybus.metadata SRD_CONF_SAMPLERATE value d in
      Joybus.samplerate d' = Some value /\
      Joybus.idle_min_samples d' = us_to_samples value 100%float /\
      Joybus.bit_midpoint_samples d' = us_to_samples value 2.5%float /\
      Joybus.bit_command_samples d' = us_to_samples value 5%float /\
      Joybus.bit_response_samples d' = us_to_samples value 4%float /\
      Joybus.bit_timeout_samples d' = us_to_samples value 10%float /\
      Joybus.response_timeout_samples d' = us_to_samples value 50%float) /\
  (forall d, Joybus.state (Joybus.reset d) = Joybus.INITIAL) /\
  Joybus.state Joybus.init = Joybus.INITIAL.
Proof.
  repeat split.
  intros key value d. unfold Joybus.metadata.
  destruct (key =? SRD_CONF_SAMPLERATE); reflexivity.
Qed.

(** A decoder that has reached [IDLE] on an idle bus is still in [IDLE]
    after the sample rate is configured anew. *)
Lemma metadata_does_not_reset :
  exists w',
    Joybus.decode_loop 1 (capture decoder_1MHz (run true 200)) = Ok tt w' /\
    Joybus.state (self w') = Joybus.IDLE /\
    Joybus.state (Joybus.metadata SRD_CONF_SAMPLERATE 2000000 (self w')) <> Joybus.INITIAL.
Proof.
  eexists. split; [vm_compute; reflexivity|]. split; [reflexivity|].
  cbn. discriminate.
Qed.

(** ** The theorems at concrete captures *)

Lemma decoder_1MHz_fields :
  decoder_1MHz = Joybus.mkDecoder Joybus.INITIAL (Some 1000000) 100 2 5 4 10 50.
Proof. vm_compute. reflexivity. Qed.

Lemma timing_1MHz_valid s : valid_timing (Joybus.with_state s decoder_1MHz) timing_1MHz.
Proof.
  rewrite decoder_1MHz_fields. unfold valid_timing. cbn. lia.
Qed.

Lemma info_frame_wf s : wf_frame (Joybus.with_state s decoder_1MHz) info_spec info_frame.
Proof.
  apply encode_frame_wf; try reflexivity; try lia.
  - apply timing_1MHz_valid.
  - rewrite decoder_1MHz_fields. cbn. lia.
Qed.

Lemma read_bit_classification_witness :
  (Joybus.read_bit tie_capture = Ok 1 (world_of (Joybus.read_bit tie_capture)) /\
   exists w1,
     wait [Rising; Skip (Joybus.bit_timeout_samples (self tie_capture))] tie_capture
     = Ok true w1 /\
     let d := samplenum w1 - samplenum tie_capture in
     let midpoint := Joybus.bit_midpoint_samples (self tie_capture) in
     (1 = 0 <-> d > midpoint) /\ (1 = 1 <-> d <= midpoint) /\ (d = midpoint -> 1 = 1))
  /\
  (SI.read_bit si_tie_capture = Ok 1 (world_of (SI.read_bit si_tie_capture)) /\
   exists si w1,
     wait [Rising] si_tie_capture = Ok si w1 /\
     let d := samplenum w1 - samplenum si_tie_capture in
     let midpoint := SI.low_midpoint_samples (self w1) in
     (1 = 0 <-> d > midpoint) /\ (1 = 1 <-> d <= midpoint) /\ (d = midpoint -> 1 = 1)).
Proof.
  assert (H : Joybus.read_bit tie_capture = Ok 1 (world_of (Joybus.read_bit tie_capture)))
    by (vm_compute; reflexivity).
  assert (Hs : SI.read_bit si_tie_capture = Ok 1 (world_of (SI.read_bit si_tie_capture)))
    by (vm_compute; reflexivity).
  split; split; try assumption.
  - exact (proj1 read_bit_classification _ _ _ H).
  - exact (proj2 read_bit_classification _ _ _ Hs).
Defined.

Lemma frame_length_correctness_witness :
  exists w',
    Joybus.decode_loop 2 info_capture = Ok tt w' /\
    Joybus.state (self w') = Joybus.IDLE /\
    line w' = true :: [true] /\
    exists evs,
      out w' = out info_capture ++ evs /\
      evs = frame_events (self info_capture) (samplenum info_capture + 5) info_frame /\
      count_class 0 evs = 1%nat /\
      Z.of_nat (count_class 1 evs) = command_len info_spec - 1 /\
      Z.of_nat (count_class 2 evs) = response_len info_spec /\
      count_class 4 evs = 2%nat /\
      count_class 5 evs = 0%nat.
Proof.
  apply (frame_length_correctness info_capture info_spec info_frame 5 [true]).
  - reflexivity.
  - lia.
  - apply info_frame_wf.
  - reflexivity.
Defined.

Lemma frame_failure_reported_witness :
  Joybus.command_try unknown_frame_capture
  = Raise (Exception "Unknown command") (world_of (Joybus.command_try unknown_frame_capture))
  /\
  exists w' evs,
    Joybus.decode_iteration unknown_frame_capture = Ok tt w' /\
    Joybus.state (self w') = Joybus.INITIAL /\
    out w' = evs ++ [mkAnn 0 32 5 ["Unknown command"%string]] /\
    count_class 5 evs = 0%nat.
Proof.
  assert (H : Joybus.command_try unknown_frame_capture
              = Raise (Exception "Unknown command")
                  (world_of (Joybus.command_try unknown_frame_capture)))
    by (vm_compute; reflexivity).
  split; [exact H|].
  destruct (frame_failure_reported unknown_frame_capture _ _ eq_refl H)
    as (_ & (w' & evs & Hi & Hs & Hn & Ho & Hc & _) & _).
  exists w', evs. repeat split; try assumption.
  rewrite Ho, Hn. reflexivity.
Defined.

Lemma read_byte_round_trip_witness :
  exists w',
    Joybus.read_byte (byte_capture 0xA5) = Ok (0, 0xA5) w' /\
    reads_bits (byte_capture 0xA5) [1; 0; 1; 0; 0; 1; 0; 1] w'.
Proof.
  apply (proj2 read_byte_msb_first_round_trip (byte_capture 0xA5) timing_1MHz 0xA5 []).
  - lia.
  - apply (timing_1MHz_valid Joybus.INITIAL).
  - reflexivity.
Defined.

Lemma read_bit_timeout_witness :
  exists w', Joybus.read_bit stalled_capture = Raise (Exception "Bit timeout") w'.
Proof.
  assert (Hl : line_low stalled_capture) by (exists (run false 10 ++ [true]); reflexivity).
  assert (Hn : 0 <= Joybus.bit_timeout_samples (self stalled_capture))
    by (vm_compute; discriminate).
  apply (proj1 (read_bit_timeout_iff stalled_capture Hl Hn)).
  left. exists [true]. vm_compute. reflexivity.
Defined.

Lemma unknown_opcode_resync_witness :
  exists w',
    Joybus.decode_loop 7 (capture (Joybus.with_state Joybus.IDLE decoder_1MHz) unknown_capture)
    = Ok tt w' /\
    Joybus.state (self w') = Joybus.IDLE /\
    line w' = true :: [true].
Proof.
  set (w := capture (Joybus.with_state Joybus.IDLE decoder_1MHz) unknown_capture).
  assert (Hn : 0 <= Joybus.idle_min_samples (self w)) by (vm_compute; discriminate).
  assert (Hop : ok_byte (self w) (encode_byte timing_1MHz 0x77))
    by (apply encode_byte_ok, timing_1MHz_valid).
  assert (Hnone : lookup (cells_value (self w) (encode_byte timing_1MHz 0x77))
                    Joybus.JOYBUS_COMMANDS = None) by (vm_compute; reflexivity).
  assert (Hj : Forall (short_pulse (self w)) [(1, 3); (3, 1)]).
  { unfold w, capture. cbn [self]. rewrite decoder_1MHz_fields.
    repeat constructor; cbn; lia. }
  assert (Hl : line w = run true 5 ++ cells_wire (encode_byte timing_1MHz 0x77)
                 ++ cells_wire [(1, 3); (3, 1)] ++ run false 1
                 ++ run true (Joybus.idle_min_samples (self w) + 4)
                 ++ frame_wire info_frame ++ true :: [true])
    by (vm_compute; reflexivity).
  destruct (unknown_opcode_resync w _ _ 1 4 info_spec info_frame 5 [true]
              eq_refl Hn ltac:(lia) Hop Hnone Hj ltac:(lia) ltac:(lia)
              (info_frame_wf Joybus.IDLE) Hl)
    as (w' & Hd & Hs & Hline & _).
  exists w'. auto.
Defined.

Lemma initial_to_idle_debounce_witness :
  exists w',
    Joybus.decode_iteration idle_capture = Ok tt w' /\
    Joybus.state (self w') = Joybus.IDLE.
Proof.
  assert (Hn : 0 <= Joybus.idle_min_samples (self idle_capture))
    by (vm_compute; discriminate).
  apply (proj1 (proj2 (initial_to_idle_debounce idle_capture eq_refl Hn)) 2 [false]).
  - lia.
  - vm_compute. reflexivity.
Defined.

Lemma read_values_in_range_witness : 0 <= 0xA5 <= 255.
Proof.
  apply (proj2 read_values_in_range (byte_capture 0xA5) 0 0xA5
           (world_of (Joybus.read_byte (byte_capture 0xA5)))).
  vm_compute. reflexivity.
Defined.

(** * Further behaviour of joybus/pd.py *)

(** ** The command half, and what can follow it *)

Lemma part_wire_low d spec c tail :
  wf_part d spec c -> exists r, part_wire c ++ tail = false :: r.
Proof.
  intros (Hop & _). unfold part_wire. rewrite <- app_assoc.
  apply (cells_wire_low_ne d); [apply Hop | apply (ok_byte_ne d _ Hop)].
Qed.

(** [command_try] up to the last data byte of the command. *)
Lemma command_try_data (w : World Joybus.Decoder) spec c t :
  wf_part (self w) spec c ->
  line w = cells_wire (part_opcode c) ++ bytes_wire (part_data c) ++ false :: t ->
  Joybus.command_try w
  = after_command_data spec
      (mkWorld (self w)
         (samplenum w + cells_len (part_opcode c) + bytes_len (part_data c))
         (false :: t)
         (out w ++ part_events (self w) (samplenum w) c)).
Proof.
  intros (Hop & Hspec & Hcl & Hcd & Hcs) Hl.
  destruct (bytes_wire_low (self w) (part_data c) t Hcd) as (r & Hr).
  rewrite Hr in Hl.
  unfold Joybus.command_try. unfold bind at 1.
  rewrite (read_byte_cells w (part_opcode c) r Hop Hl). cbn [fst snd].
  unfold Joybus.command_rest.
  unfold bind at 1, get_samplenum at 1. unfold bind at 1.
  unfold Joybus.put_command at 1, Joybus.putg at 1, put at 1.
  cbn [self samplenum line out]. rewrite Hspec.
  replace (Joybus.range_len 1 (command_len spec)) with (List.length (part_data c))
    by (unfold Joybus.range_len; lia).
  unfold Joybus.put_command_data.
  unfold bind at 1.
  set (w1 := mkWorld _ _ _ _).
  rewrite (read_bytes_cells 1 (part_data c) w1 t Hcd) by (symmetry; exact Hr).
  unfold w1, part_events, command_event, Joybus.command_name.
  cbn [self samplenum line out].
  repeat (rewrite <- ?app_assoc; cbn [app]).
  reflexivity.
Qed.

(** The response does not come: the line stays high for the whole
    response time after the command's stop bit. *)
Lemma command_try_response_timeout (w : World Joybus.Decoder) spec c rest :
  0 <= Joybus.response_timeout_samples (self w) ->
  wf_part (self w) spec c ->
  line w = part_wire c ++ run true (Joybus.response_timeout_samples (self w) + 1) ++ rest ->
  Joybus.command_try w
  = Raise (Exception "Response timeout")
      (mkWorld (self w)
         (samplenum w + part_len c + Joybus.response_timeout_samples (self w))
         (true :: rest)
         (out w ++ part_events (self w) (samplenum w) c
            ++ [stop_event (samplenum w + cells_len (part_opcode c) + bytes_len (part_data c))
                  (Joybus.bit_command_samples (self w))])).
Proof.
  intros Hn Hwf Hl.
  set (n := Joybus.response_timeout_samples (self w)) in *.
  pose proof Hwf as (_ & _ & _ & _ & Hcs).
  unfold part_wire in Hl. rewrite <- !app_assoc in Hl.
  rewrite (run_low_start (part_stop c)) in Hl by lia.
  rewrite (command_try_data w spec c _ Hwf Hl).
  unfold after_command_data. unfold bind at 1, get_self at 1. unfold bind at 1.
  set (w1 := mkWorld _ _ _ _).
  assert (Hl1 : line w1 = run false (part_stop c) ++ true :: (run true n ++ rest)).
  { unfold w1. cbn [line]. rewrite (run_low_start (part_stop c)) by lia.
    rewrite (run_high_start (n + 1)) by lia.
    replace (n + 1 - 1) with n by lia. reflexivity. }
  rewrite (read_stop_bit_edge w1 _ (part_stop c) _ Hcs Hl1).
  unfold bind at 1.
  set (w2 := mkWorld _ _ _ _).
  assert (Hl2 : line w2 = run true (n + 1) ++ rest).
  { unfold w2. cbn [line]. rewrite (run_high_start (n + 1)) by lia.
    replace (n + 1 - 1) with n by lia. reflexivity. }
  rewrite (wait_falling_expire w2 (Joybus.response_timeout_samples (self w1)) rest Hn Hl2).
  unfold raise, advance, w2, w1, part_len. cbn [self samplenum line out].
  rewrite <- !app_assoc. rewrite ?Z.add_assoc. reflexivity.
Qed.


Lemma count_class_part_events c d start p :
  c <> 3 ->
  count_class c (part_events d start p)
  = ((if (0 =? c)%Z then 1 else 0)
     + (if (1 =? c)%Z then List.length (part_data p) else 0))%nat.
Proof.
  intros Hc. unfold part_events, command_event.
  rewrite count_class_app, count_class_cons, count_class_bit_events,
    count_class_byte_events by assumption.
  cbn [ann_class]. destruct (0 =? c), (1 =? c); lia.
Qed.

(** A command that gets no response: when the line stays high for
    [response_timeout_samples] further samples after the rising edge of the
    command's stop bit, the iteration reports the command, its data bytes and
    its stop bit, then one "Response timeout" error from the start of the
    frame to the sample the time ran out at, and goes to [INITIAL]; no
    response byte is annotated. *)
Theorem response_timeout_reported (w : World Joybus.Decoder) spec c rest :
  Joybus.state (self w) = Joybus.COMMAND ->
  0 <= Joybus.response_timeout_samples (self w) ->
  wf_part (self w) spec c ->
  line w = part_wire c ++ run true (Joybus.response_timeout_samples (self w) + 1) ++ rest ->
  let stop := samplenum w + part_len c + Joybus.response_timeout_samples (self w) in
  let evs := part_events (self w) (samplenum w) c
               ++ [stop_event (samplenum w + cells_len (part_opcode c) + bytes_len (part_data c))
                     (Joybus.bit_command_samples (self w));
                   error_event (samplenum w) stop "Response timeout"] in
  Joybus.decode_iteration w
  = Ok tt (mkWorld (Joybus.with_state Joybus.INITIAL (self w)) stop (true :: rest)
             (out w ++ evs)) /\
  count_class 0 evs = 1%nat /\
  Z.of_nat (count_class 1 evs) = command_len spec - 1 /\
  count_class 2 evs = 0%nat /\
  count_class 4 evs = 1%nat /\
  count_class 5 evs = 1%nat.
Proof.
  intros Hs Hn Hwf Hl stop evs. split.
  - rewrite (command_iteration w Hs), command_branch_try.
    rewrite (command_try_response_timeout w spec c rest Hn Hwf Hl).
    rewrite on_exception_world. unfold evs, error_event, stop.
    cbn [self samplenum line out str].
    rewrite <- !app_assoc. reflexivity.
  - destruct Hwf as (_ & _ & Hcl & _).
    unfold evs, stop_event, error_event.
    rewrite !count_class_app, !count_class_cons, !count_class_part_events by lia.
    cbn [ann_class Z.eqb Pos.eqb]. change (count_class _ []) with 0%nat.
    repeat split; lia.
Qed.


(** ** A byte cut short *)

Lemma for_range_app {D A} n m (body : A -> M D A) : forall acc (w : World D),
  for_range (n + m) body acc w
  = match for_range n body acc w with
    | Ok a w' => for_range m body a w'
    | r => r
    end.
Proof.
  induction n as [|n IH]; intros acc w; [reflexivity|].
  cbn [Nat.add for_range]. unfold bind.
  destruct (body acc w) as [a w1 | e w1 | w1]; auto.
Qed.

Lemma read_byte_truncated (w : World Joybus.Decoder) cs l e wf :
  Forall (ok_cell (self w)) cs ->
  (List.length cs < 8)%nat ->
  line w = cells_wire cs ++ false :: l ->
  Joybus.read_bit
    (mkWorld (self w) (samplenum w + cells_len cs) (false :: l)
       (out w ++ bit_events (self w) (samplenum w) cs))
  = Raise e wf ->
  Joybus.read_byte w = Raise e wf.
Proof.
  intros Hok Hlen Hl Hbit.
  unfold Joybus.read_byte. unfold bind at 1, get_samplenum at 1. unfold bind at 1.
  replace 8%nat with (List.length cs + S (7 - List.length cs))%nat by lia.
  rewrite for_range_app.
  rewrite (read_bits_cells cs w 0 l Hok Hl).
  cbn [for_range]. unfold bind at 1. unfold bind at 1.
  rewrite Hbit. reflexivity.
Qed.

(** A byte is read whole or not at all: when the opcode byte is cut short
    after fewer than eight bits, the line staying low or staying high for
    longer than [bit_timeout_samples], the iteration puts the annotations of
    the bits that were complete and one "Bit timeout" error from the start of
    the frame to the current sample, no command annotation, and goes to
    [INITIAL]. *)
Theorem truncated_byte_reported (w : World Joybus.Decoder) cs l :
  Joybus.state (self w) = Joybus.COMMAND ->
  0 <= Joybus.bit_timeout_samples (self w) ->
  Forall (ok_cell (self w)) cs ->
  (List.length cs < 8)%nat ->
  line w = cells_wire cs ++ l ->
  no_rise (Joybus.bit_timeout_samples (self w)) l \/
  no_fall (Joybus.bit_timeout_samples (self w)) l ->
  exists w',
    Joybus.decode_iteration w = Ok tt w' /\
    Joybus.state (self w') = Joybus.INITIAL /\
    samplenum w + cells_len cs + Joybus.bit_timeout_samples (self w) <= samplenum w' /\
    out w' = out w ++ bit_events (self w) (samplenum w) cs
               ++ [error_event (samplenum w) (samplenum w') "Bit timeout"] /\
    count_class 0 (bit_events (self w) (samplenum w) cs) = 0%nat.
Proof.
  intros Hs Hn Hok Hlen Hl Hstall.
  set (n := Joybus.bit_timeout_samples (self w)) in *.
  set (w1 := mkWorld (self w) (samplenum w + cells_len cs) l
               (out w ++ bit_events (self w) (samplenum w) cs)).
  assert (Hbit : exists l' wf,
             l = false :: l' /\
             Joybus.read_bit w1 = Raise (Exception "Bit timeout") wf /\
             out wf = out w1 /\ self wf = self w /\ samplenum w1 + n <= samplenum wf).
  { destruct Hstall as [(rest & Hr) | (k & rest & Hk & Hr)].
    - exists (run false n ++ rest). eexists.
      split; [rewrite Hr, run_succ by lia; reflexivity|].
      split; [apply (read_bit_no_rise w1 rest Hn Hr)|].
      cbn. split; [reflexivity|]. split; [reflexivity|]. fold n. lia.
    - exists (run false (k - 1) ++ run true (n + 1) ++ rest). eexists.
      split; [rewrite Hr, (run_pos false k) by lia; reflexivity|].
      split; [apply (read_bit_no_fall w1 k rest Hk Hr)|].
      cbn. split; [reflexivity|]. split; [reflexivity|]. fold n. lia. }
  destruct Hbit as (l' & wf & -> & Hbit & Ho & Hd & Hsn).
  pose proof (read_byte_truncated w cs l' _ wf Hok Hlen Hl Hbit) as Hbyte.
  eexists. split.
  - rewrite (command_iteration w Hs), command_branch_try.
    unfold Joybus.command_try. unfold bind at 1. rewrite Hbyte.
    rewrite on_exception_world. reflexivity.
  - cbn [self samplenum line out str]. split; [reflexivity|].
    split; [unfold w1 in Hsn; cbn [samplenum] in Hsn; exact Hsn|].
    split; [rewrite Ho; unfold w1, error_event; cbn [out]; rewrite <- app_assoc; reflexivity|].
    apply count_class_bit_events. lia.
Qed.

(** ** Frames in a row *)

Lemma frames_step d gf fs tail :
  wf_gap_frame d gf ->
  Forall (wf_gap_frame d) fs ->
  exists t,
    frames_wire (gf :: fs) ++ true :: tail
    = run true (fst gf) ++ frame_wire (snd gf) ++ true :: t /\
    true :: t = frames_wire fs ++ true :: tail.
Proof.
  intros [Hg _] Hfs. unfold frames_wire. cbn [flat_map].
  destruct Hfs as [|gf' fs' [Hg' _] _].
  - exists tail. cbn [flat_map app]. rewrite <- !app_assoc. auto.
  - exists (run true (fst gf' - 1) ++ frame_wire (snd gf')
              ++ flat_map (fun gf => run true (fst gf) ++ frame_wire (snd gf)) fs'
              ++ true :: tail).
    cbn [flat_map]. rewrite <- !app_assoc.
    rewrite (run_high_start (fst gf')) by lia. auto.
Qed.

Lemma count_class_frames_events c d fs : forall start,
  c <> 3 ->
  Forall (wf_gap_frame d) fs ->
  count_class c (frames_events d start fs)
  = fold_right (fun gf n => (count_class c (frame_events d 0 (snd gf)) + n)%nat) 0%nat fs.
Proof.
  induction fs as [|gf fs IH]; intros start Hc Hfs; [reflexivity|].
  inversion Hfs; subst. cbn [frames_events fold_right].
  rewrite count_class_app, IH by assumption.
  rewrite !count_class_frame_events by assumption. reflexivity.
Qed.

(** Between frames there is no idle time to wait out: from [IDLE], frames
    that follow each other after any high phase of at least one sample are
    all decoded, two iterations each, with no error, and the decoder is in
    [IDLE] again after the last. *)
Theorem frames_in_a_row (fs : list (Z * Frame)) : forall (w : World Joybus.Decoder) tail,
  Joybus.state (self w) = Joybus.IDLE ->
  Forall (wf_gap_frame (self w)) fs ->
  line w = frames_wire fs ++ true :: tail ->
  Joybus.decode_loop (2 * List.length fs) w
  = Ok tt (mkWorld (self w) (samplenum w + frames_len fs) (true :: tail)
             (out w ++ frames_events (self w) (samplenum w) fs)) /\
  count_class 0 (frames_events (self w) (samplenum w) fs) = List.length fs /\
  count_class 4 (frames_events (self w) (samplenum w) fs) = (2 * List.length fs)%nat /\
  count_class 5 (frames_events (self w) (samplenum w) fs) = 0%nat.
Proof.
  induction fs as [|gf fs IH]; intros w tail Hs Hfs Hl.
  - cbn in *. unfold ret. destruct w; cbn in *. subst.
    rewrite Z.add_0_r, app_nil_r. repeat split.
  - inversion Hfs as [|? ? Hgf Hrest]; subst.
    destruct (frames_step (self w) gf fs tail Hgf Hrest) as (t & Ht & Ht').
    rewrite Ht in Hl.
    pose proof Hgf as (Hg & spec & Hwf).
    replace (2 * List.length (gf :: fs))%nat with (2 + 2 * List.length fs)%nat
      by (cbn [List.length]; lia).
    rewrite decode_loop_app.
    rewrite (idle_then_frame w spec (snd gf) (fst gf) t Hs Hg Hwf Hl).
    set (w1 := mkWorld _ _ _ _).
    assert (Hd1 : self w1 = self w).
    { unfold w1. cbn [self]. rewrite <- Hs. apply with_state_same. }
    assert (Hs1 : Joybus.state (self w1) = Joybus.IDLE) by reflexivity.
    assert (Hfs1 : Forall (wf_gap_frame (self w1)) fs) by (rewrite Hd1; exact Hrest).
    destruct (IH w1 tail Hs1 Hfs1 Ht') as (Hrun & H0 & H4 & H5).
    rewrite Hrun. rewrite Hd1 in *. unfold w1 in *. cbn [self samplenum line out] in *.
    split.
    + cbn [frames_len frames_events]. rewrite <- app_assoc.
      rewrite !Z.add_assoc. reflexivity.
    + cbn [frames_events List.length]. rewrite !count_class_app, H0, H4, H5.
      rewrite !count_class_frame_events by lia. cbn [Z.eqb Pos.eqb].
      repeat split; lia.
Qed.

(** ** Starting in the middle of traffic *)

(** A capture that starts inside a frame: the pulses that are left of it
    are passed over, one iteration in [INITIAL] each and without an
    annotation; the first frame after an idle gap is the first thing the
    decoder reports, and it reports it in full. *)
Theorem start_in_traffic (w : World Joybus.Decoder) j0 k0 junk lo g spec f tail :
  Joybus.state (self w) = Joybus.INITIAL ->
  0 <= Joybus.idle_min_samples (self w) ->
  0 <= j0 -> 1 <= k0 <= Joybus.idle_min_samples (self w) ->
  Forall (short_pulse (self w)) junk ->
  1 <= lo -> 1 <= g ->
  wf_frame (self w) spec f ->
  line w = run false j0 ++ run true k0 ++ cells_wire junk ++ run false lo
             ++ run true (Joybus.idle_min_samples (self w) + g)
             ++ frame_wire f ++ true :: tail ->
  let start := samplenum w + j0 + k0 + cells_len junk + lo
               + Joybus.idle_min_samples (self w) + g in
  Joybus.decode_loop (List.length junk + 4) w
  = Ok tt (mkWorld (Joybus.with_state Joybus.IDLE (self w)) (start + frame_len f)
             (true :: tail) (out w ++ frame_events (self w) start f)).
Proof.
  intros Hs Hn Hj0 Hk0 Hjunk Hlo Hg Hwf Hl start.
  set (n := Joybus.idle_min_samples (self w)) in *.
  set (l4 := frame_wire f ++ true :: tail) in *.
  set (l3 := run false lo ++ run true (n + g) ++ l4) in *.
  assert (exists r3, l3 = false :: r3) as (r3 & Hr3).
  { unfold l3. rewrite (run_low_start lo) by lia. eauto. }
  assert (exists r2, cells_wire junk ++ l3 = false :: r2) as (r2 & Hr2).
  { rewrite Hr3. destruct Hjunk as [|c junk [Hc _] _]; [eexists; reflexivity|].
    unfold cells_wire. cbn [flat_map]. unfold cell_wire at 1.
    rewrite (run_pos false (fst c)) by lia. cbn [app]. eauto. }
  rewrite Hr2 in Hl.
  replace (List.length junk + 4)%nat with (1 + (List.length junk + (1 + 2)))%nat by lia.
  rewrite decode_loop_app. cbn [Joybus.decode_loop]. unfold bind at 1.
  rewrite (initial_iteration_short w j0 k0 r2 Hs Hj0 Hk0 Hl). unfold ret at 1.
  rewrite decode_loop_app.
  set (w1 := mkWorld _ _ _ _).
  rewrite (initial_skips_traffic junk w1 r3) by
    (auto; unfold w1; cbn [line]; rewrite <- Hr2, Hr3; reflexivity).
  rewrite decode_loop_app.
  set (w2 := mkWorld _ _ _ _).
  assert (H2 : Joybus.decode_loop 1 w2
               = Ok tt (mkWorld (Joybus.with_state Joybus.IDLE (self w))
                          (samplenum w2 + lo + n) (true :: run true (g - 1) ++ l4) (out w2))).
  { cbn [Joybus.decode_loop]. unfold bind at 1.
    rewrite (initial_iteration_long w2 lo (run true (g - 1) ++ l4));
      [reflexivity | exact Hs | lia | exact Hn |].
    unfold w2. cbn [line self]. fold n. rewrite <- Hr3. unfold l3.
    rewrite (app_assoc (run true (n + 1))). rewrite <- run_app by lia.
    do 2 f_equal. f_equal. lia. }
  rewrite H2. clear H2.
  set (w3 := mkWorld _ _ _ _).
  rewrite (idle_then_frame w3 spec f g tail) by
    (auto; unfold w3; cbn [line]; rewrite (run_high_start g) by lia; reflexivity).
  unfold w3, w2, w1. cbn [self samplenum line out].
  rewrite frame_events_with_state. unfold start.
  rewrite ?Z.add_assoc. reflexivity.
Qed.

(** ** The state machine on any signal *)

Lemma count_class_error c evs a :
  Forall not_error evs -> ann_class a = 5 -> c = 5 ->
  count_class c (evs ++ [a]) = 1%nat.
Proof.
  intros Hevs Ha ->. rewrite count_class_app, count_class_not_error by assumption.
  unfold count_class. cbn [filter]. rewrite Ha. reflexivity.
Qed.

(** Whatever the signal, an iteration that returns moves the state along
    the edges INITIAL -> INITIAL | IDLE, IDLE -> COMMAND and
    COMMAND -> IDLE | INITIAL and changes no other attribute of the decoder;
    in INITIAL and IDLE it puts no annotation; in COMMAND it ends in IDLE
    without an error annotation or in INITIAL with exactly one, which is the
    last annotation it puts. *)
Theorem iteration_transitions (w w' : World Joybus.Decoder) :
  Joybus.decode_iteration w = Ok tt w' ->
  (exists s, self w' = Joybus.with_state s (self w)) /\
  match Joybus.state (self w) with
  | Joybus.INITIAL =>
      (Joybus.state (self w') = Joybus.INITIAL \/ Joybus.state (self w') = Joybus.IDLE) /\
      out w' = out w
  | Joybus.IDLE =>
      Joybus.state (self w') = Joybus.COMMAND /\ out w' = out w
  | Joybus.COMMAND =>
      exists evs,
        out w' = out w ++ evs /\
        ((Joybus.state (self w') = Joybus.IDLE /\ count_class 5 evs = 0%nat) \/
         (Joybus.state (self w') = Joybus.INITIAL /\ count_class 5 evs = 1%nat /\
          exists evs' e,
            evs = evs' ++ [error_event (samplenum w) (samplenum w') (str e)] /\
            frame_failure e))
  end.
Proof.
  unfold Joybus.decode_iteration. unfold bind at 1, get_self at 1.
  destruct (Joybus.state (self w)) eqn:Hs; intros H.
  - apply bind_ok_inv in H. destruct H as (s1 & w1 & H1 & H).
    apply bind_ok_inv in H. destruct H as (si & w2 & H2 & H).
    destruct (wait_inv _ _ _ _ H1) as (i1 & o1 & r1 & _ & _ & _ & _ & _ & _ & Hd1 & Ho1).
    destruct (wait_inv _ _ _ _ H2) as (i2 & o2 & r2 & _ & _ & _ & _ & _ & _ & Hd2 & Ho2).
    destruct si; cbn in H; injection H as <-; cbn [self out].
    + rewrite Hd2, Hd1, Ho2, Ho1. split; [eauto|]. split; [right; reflexivity | reflexivity].
    + rewrite Hd2, Hd1, Ho2, Ho1. split.
      * exists Joybus.INITIAL. rewrite <- Hs. symmetry. apply with_state_same.
      * split; [left; exact Hs | reflexivity].
  - apply bind_ok_inv in H. destruct H as (s1 & w1 & H1 & H).
    destruct (wait_inv _ _ _ _ H1) as (i1 & o1 & r1 & _ & _ & _ & _ & _ & _ & Hd1 & Ho1).
    cbn in H. injection H as <-. cbn [self out]. rewrite Hd1, Ho1.
    split; [eauto|]. split; reflexivity.
  - fold Joybus.decode_iteration in H. rewrite command_branch_try in H.
    destruct (frame_local_command_try w) as ((s & Hd) & (evs & Ho & Hp) & Hr & _).
    destruct (Joybus.command_try w) as [[] w1 | e w1 | w1] eqn:E; [| |discriminate];
      cbn [world_of] in Hd, Ho.
    + injection H as <-. split; [eauto|]. exists evs. split; [exact Ho|].
      left. split; [apply (command_try_ok_state _ _ E)|].
      apply count_class_not_error. exact Hp.
    + rewrite on_exception_world in H. injection H as <-. cbn [self out samplenum].
      split; [exists Joybus.INITIAL; rewrite Hd; reflexivity|].
      exists (evs ++ [error_event (samplenum w) (samplenum w1) (str e)]).
      split; [rewrite Ho, <- app_assoc; reflexivity|].
      right. split; [reflexivity|]. split.
      * apply count_class_error; auto.
      * exists evs, e. split; [reflexivity | exact (Hr e w1 eq_refl)].
Qed.

(** ** Configuration and decoding *)

(** The sample rate that counts is the last one configured: [metadata]
    with another key changes nothing, a second sample rate replaces
    everything the first one set, and [decode] on a decoder whose last
    sample rate is [value] fails at once exactly when [value] is zero. *)
Theorem last_samplerate_counts :
  (forall key value d, key <> SRD_CONF_SAMPLERATE -> Joybus.metadata key value d = d) /\
  (forall v1 v2 d,
      Joybus.metadata SRD_CONF_SAMPLERATE v2 (Joybus.metadata SRD_CONF_SAMPLERATE v1 d)
      = Joybus.metadata SRD_CONF_SAMPLERATE v2 d) /\
  (forall key value d,
      Joybus.metadata key value (Joybus.reset d) = Joybus.reset (Joybus.metadata key value d)) /\
  (forall value d fuel (w : World Joybus.Decoder),
      self w = Joybus.metadata SRD_CONF_SAMPLERATE value d ->
      (exists e w', Joybus.decode fuel w = Raise e w') <-> value = 0).
Proof.
  split; [|split; [|split]].
  - intros key value d Hk. unfold Joybus.metadata.
    destruct (Z.eqb_spec key SRD_CONF_SAMPLERATE); [contradiction | reflexivity].
  - reflexivity.
  - intros key value d. unfold Joybus.metadata.
    destruct (key =? SRD_CONF_SAMPLERATE); reflexivity.
  - intros value d fuel w Hd. unfold Joybus.decode, bind, get_self. rewrite Hd.
    cbn [Joybus.metadata Z.eqb SRD_CONF_SAMPLERATE Pos.eqb Joybus.samplerate].
    split.
    + intros (e & w' & H). destruct value; [reflexivity | |];
        destruct (decode_loop_never_raises _ _ _ _ H).
    + intros ->. unfold raise. eauto.
Qed.

(** ** Annotation texts *)

Lemma names_distinct_inj f a b :
  names_distinct f = true -> 0 <= a <= 255 -> 0 <= b <= 255 -> f a = f b -> a = b.
Proof.
  unfold names_distinct. intros H Ha Hb Hf.
  rewrite forallb_forall in H.
  assert (Hin : forall x, 0 <= x <= 255 -> In x byte_values).
  { intros x Hx. unfold byte_values. apply in_map_iff. exists (Z.to_nat x).
    split; [lia | apply in_seq; lia]. }
  specialize (H a (Hin a Ha)). rewrite forallb_forall in H.
  specialize (H b (Hin b Hb)). rewrite Hf, String.eqb_refl in H.
  cbn in H. apply Z.eqb_eq. exact H.
Qed.

(** The command annotation identifies the opcode: two byte values never
    get the same name, be it from the table or the hexadecimal fallback, and
    the same holds for the texts of a data byte. *)
Theorem annotation_texts_identify_bytes (a b : Z) :
  0 <= a <= 255 -> 0 <= b <= 255 ->
  (Joybus.command_name a = Joybus.command_name b -> a = b) /\
  (Joybus.data_texts a = Joybus.data_texts b -> a = b) /\
  (SI.command_name a = SI.command_name b -> a = b).
Proof.
  intros Ha Hb. split; [|split].
  - apply names_distinct_inj; [vm_compute; reflexivity | assumption | assumption].
  - intros H. apply (names_distinct_inj format_02X);
      [vm_compute; reflexivity | assumption | assumption |].
    unfold Joybus.data_texts in H. injection H as _ _ H. exact H.
  - apply names_distinct_inj; [vm_compute; reflexivity | assumption | assumption].
Qed.

(** ** Annotations lie in the samples read *)

Lemma span_ok_mono b hi hi' a : hi <= hi' -> span_ok b hi a -> span_ok b hi' a.
Proof.
  intros H (H1 & H2 & H3). repeat split; auto. intros Hc. specialize (H3 Hc). lia.
Qed.

Lemma grows_refl b w : grows b w w.
Proof.
  split; [lia|]. split.
  - exists (Joybus.state (self w)). symmetry. apply with_state_same.
  - exists []. rewrite app_nil_r. auto.
Qed.

Lemma grows_trans b w1 w2 w3 : grows b w1 w2 -> grows b w2 w3 -> grows b w1 w3.
Proof.
  intros (H1 & (s1 & Hd1) & evs1 & Ho1 & Hp1) (H2 & (s2 & Hd2) & evs2 & Ho2 & Hp2).
  split; [lia|]. split.
  - exists s2. rewrite Hd2, Hd1. reflexivity.
  - exists (evs1 ++ evs2). split; [rewrite Ho2, Ho1, app_assoc; reflexivity|].
    apply Forall_app. split; [|assumption].
    eapply Forall_impl; [|exact Hp1]. intros a. apply span_ok_mono. exact H2.
Qed.

Lemma stable_same (P : Pre) n n' d : stable P -> n <= n' -> P n d -> P n' d.
Proof.
  intros Hst Hn Hp. rewrite <- (with_state_same d). apply (Hst n n' d); assumption.
Qed.

Lemma stable_widths : stable widths.
Proof. intros n n' d s _ H. exact H. Qed.

Lemma stable_started b x : stable (started b x).
Proof. intros n n' d s Hn [Hw Hx]. split; [exact Hw | lia]. Qed.

Section Keeps.
Variable b : Z.

Lemma keeps_weaken {A} (P P' : Pre) (m : M Joybus.Decoder A) (Q Q' : A -> Pre) :
  keeps b P m Q ->
  (forall n d, b <= n -> P' n d -> P n d) ->
  (forall a n d, Q a n d -> Q' a n d) ->
  keeps b P' m Q'.
Proof.
  intros H HP HQ w Hb Hp. destruct (H w Hb (HP _ _ Hb Hp)) as [Hg Hq].
  split; [exact Hg|]. intros a w' E. apply HQ, (Hq a w' E).
Qed.

Lemma keeps_bind {A B} (P : Pre) (m : M Joybus.Decoder A) (Q : A -> Pre)
      (k : A -> M Joybus.Decoder B) (R : B -> Pre) :
  keeps b P m Q -> (forall a, keeps b (Q a) (k a) R) -> keeps b P (bind m k) R.
Proof.
  intros Hm Hk w Hb Hp. destruct (Hm w Hb Hp) as [Hg Hq]. unfold bind.
  destruct (m w) as [a w1 | e w1 | w1] eqn:E; cbn [world_of] in Hg.
  - assert (Hb1 : b <= samplenum w1) by (destruct Hg; lia).
    destruct (Hk a w1 Hb1 (Hq a w1 eq_refl)) as [Hg2 Hr].
    split; [exact (grows_trans b _ _ _ Hg Hg2) | exact Hr].
  - split; [exact Hg | discriminate].
  - split; [exact Hg | discriminate].
Qed.

Lemma keeps_ret {A} (P : Pre) (a : A) : keeps b P (ret a) (fun _ n d => P n d).
Proof.
  intros w Hb Hp. split; [apply grows_refl|].
  intros a' w' E. injection E as <- <-. exact Hp.
Qed.

Lemma keeps_ret_eq {A} (P : Pre) (a : A) :
  keeps b P (ret a) (fun a' n d => P n d /\ a' = a).
Proof.
  intros w Hb Hp. split; [apply grows_refl|].
  intros a' w' E. injection E as <- <-. auto.
Qed.

Lemma keeps_raise {A} (P : Pre) e (Q : A -> Pre) : keeps b P (raise e) Q.
Proof.
  intros w Hb Hp. split; [apply grows_refl | discriminate].
Qed.

Lemma keeps_get_samplenum (P : Pre) :
  keeps b P get_samplenum (fun a n d => P n d /\ a = n).
Proof.
  intros w Hb Hp. split; [apply grows_refl|].
  intros a w' E. injection E as <- <-. auto.
Qed.

Lemma keeps_get_self (P : Pre) :
  keeps b P get_self (fun a n d => P n d /\ a = d).
Proof.
  intros w Hb Hp. split; [apply grows_refl|].
  intros a w' E. injection E as <- <-. auto.
Qed.

Lemma grows_same_cursor (w : World Joybus.Decoder) l evs :
  Forall (span_ok b (samplenum w)) evs ->
  grows b w (mkWorld (self w) (samplenum w) l (out w ++ evs)).
Proof.
  intros H. unfold grows. cbn [samplenum self out].
  split; [lia|]. split.
  - exists (Joybus.state (self w)). symmetry. apply with_state_same.
  - exists evs. auto.
Qed.

Lemma grows_advance (w : World Joybus.Decoder) i l :
  0 <= i -> grows b w (mkWorld (self w) (samplenum w + i) l (out w)).
Proof.
  intros H. unfold grows. cbn [samplenum self out].
  split; [lia|]. split.
  - exists (Joybus.state (self w)). symmetry. apply with_state_same.
  - exists []. rewrite app_nil_r. auto.
Qed.

Lemma grows_wait conds (w : World Joybus.Decoder) : grows b w (world_of (wait conds w)).
Proof.
  unfold wait. destruct (line w) as [|s0 l] eqn:El; [apply grows_refl|].
  destruct (find_match conds 0 s0 (s0 :: l)) as [[i [|s rest]]|] eqn:E; cbn [world_of].
  - apply grows_advance. lia.
  - apply grows_advance.
    destruct (find_match_inv conds _ _ _ _ _ E) as (_ & _ & _ & _ & _ & Hi & _). lia.
  - apply grows_advance. lia.
Qed.

Lemma keeps_wait (P : Pre) conds :
  stable P -> keeps b P (wait conds) (fun _ n d => P n d).
Proof.
  intros Hst w Hb Hp. split; [apply grows_wait|].
  intros s w' E.
  destruct (wait_inv _ _ _ _ E) as (i & old & rest & _ & _ & Hi & Hn & _ & _ & Hd & _).
  rewrite Hd. apply (stable_same P (samplenum w)); [assumption | lia | assumption].
Qed.

Lemma keeps_putg (P : Pre) ss es cls txt :
  (forall n d, b <= n -> P n d -> span_ok b n (mkAnn ss es cls txt)) ->
  keeps b P (Joybus.putg ss es cls txt) (fun _ n d => P n d).
Proof.
  intros Hspan w Hb Hp. unfold Joybus.putg, put. cbn [world_of]. split.
  - apply grows_same_cursor. constructor; [|constructor]. apply (Hspan _ _ Hb Hp).
  - intros a w' E. injection E as _ <-. exact Hp.
Qed.

Lemma keeps_set_state (P : Pre) s :
  stable P -> keeps b P (Joybus.set_state s) (fun _ n d => P n d).
Proof.
  intros Hst w Hb Hp. unfold Joybus.set_state, bind, get_self, set_self.
  cbn [world_of]. split.
  - unfold grows. cbn [samplenum self out]. split; [lia|]. split; [eauto|].
    exists []. rewrite app_nil_r. auto.
  - intros a w' E. injection E as _ <-. cbn [samplenum self].
    apply (Hst (samplenum w)); [lia | assumption].
Qed.

Lemma keeps_for_range {A} (P : Pre) n (body : A -> M Joybus.Decoder A) :
  (forall acc, keeps b P (body acc) (fun _ n d => P n d)) ->
  forall acc, keeps b P (for_range n body acc) (fun _ n d => P n d).
Proof.
  intros Hb. induction n as [|n IH]; intros acc; cbn [for_range].
  - apply keeps_ret.
  - eapply keeps_bind; [apply Hb | exact IH].
Qed.

Lemma keeps_pre {A} (P P' : Pre) (m : M Joybus.Decoder A) (Q : A -> Pre) :
  keeps b P m Q -> (forall n d, b <= n -> P' n d -> P n d) -> keeps b P' m Q.
Proof.
  intros H HP. apply (keeps_weaken P P' m Q Q H HP). auto.
Qed.

Lemma keeps_post {A} (P : Pre) (m : M Joybus.Decoder A) (Q Q' : A -> Pre) :
  keeps b P m Q -> (forall a n d, Q a n d -> Q' a n d) -> keeps b P m Q'.
Proof.
  intros H HQ. apply (keeps_weaken P P m Q Q' H); auto.
Qed.

Lemma keeps_let_samplenum {B} (P : Pre) (k : Z -> M Joybus.Decoder B) (R : B -> Pre) :
  (forall a, keeps b (fun n d => P n d /\ a = n) (k a) R) ->
  keeps b P (bind get_samplenum k) R.
Proof.
  intros H. eapply keeps_bind; [apply keeps_get_samplenum | exact H].
Qed.

Lemma keeps_let_self {B} (P : Pre) (k : Joybus.Decoder -> M Joybus.Decoder B) (R : B -> Pre) :
  (forall a, keeps b (fun n d => P n d /\ a = d) (k a) R) ->
  keeps b P (bind get_self k) R.
Proof.
  intros H. eapply keeps_bind; [apply keeps_get_self | exact H].
Qed.

Lemma keeps_let_wait {B} (P : Pre) conds (k : bool -> M Joybus.Decoder B) (R : B -> Pre) :
  stable P -> (forall si, keeps b P (k si) R) -> keeps b P (bind (wait conds) k) R.
Proof.
  intros Hst H. eapply keeps_bind; [apply keeps_wait, Hst | exact H].
Qed.

Lemma stable_since P x : stable P -> stable (since b P x).
Proof.
  intros Hst n n' d s Hn [Hp Hx]. split; [apply (Hst n); assumption | lia].
Qed.

(** *** The functions of the decoder *)

Lemma keeps_read_bit (P : Pre) :
  stable P -> keeps b P Joybus.read_bit (fun _ n d => P n d).
Proof.
  intros Hst. unfold Joybus.read_bit.
  apply keeps_let_samplenum. intros bit_start.
  apply keeps_pre with (P := since b P bit_start);
    [| intros n d Hb [Hp Hx]; split; [exact Hp | lia]].
  apply keeps_post with (Q := fun _ => since b P bit_start); [| intros a n d [H _]; exact H].
  pose proof (stable_since P bit_start Hst) as Hst1.
  apply keeps_let_self. intros d.
  apply keeps_pre with (P := since b P bit_start); [| intros n d' _ [H _]; exact H].
  apply keeps_let_wait; [exact Hst1 | intros si].
  destruct si; cbn [negb]; [| apply keeps_raise].
  apply keeps_let_samplenum. intros now.
  apply keeps_pre with (P := since b P bit_start); [| intros n d' _ [H _]; exact H].
  apply keeps_let_wait; [exact Hst1 | intros si].
  destruct si; [apply keeps_raise|].
  apply keeps_let_samplenum. intros now'.
  eapply keeps_bind.
  - apply keeps_putg. intros n d' Hb [[Hp Hx] Hn]. unfold span_ok. cbn. lia.
  - intros u. apply keeps_post with (Q := fun _ n d' => since b P bit_start n d' /\ now' = n);
      [apply keeps_ret | intros a n d' [H _]; exact H].
Qed.

Lemma keeps_read_byte (P : Pre) :
  stable P ->
  keeps b P Joybus.read_byte (fun sb n d => P n d /\ b <= fst sb <= n).
Proof.
  intros Hst. unfold Joybus.read_byte.
  apply keeps_let_samplenum. intros byte_start.
  apply keeps_pre with (P := since b P byte_start);
    [| intros n d Hb [Hp Hx]; split; [exact Hp | lia]].
  pose proof (stable_since P byte_start Hst) as Hst1.
  eapply keeps_bind.
  - apply keeps_for_range. intros acc.
    eapply keeps_bind; [apply keeps_read_bit, Hst1 | intros bit; apply keeps_ret].
  - intros v. cbn beta.
    eapply keeps_post; [apply keeps_ret_eq|].
    intros a n d [H ->]. exact H.
Qed.

Lemma keeps_read_stop_bit (P : Pre) width :
  stable P -> (forall n d, P n d -> 0 <= width) ->
  keeps b P (Joybus.read_stop_bit (Some width)) (fun _ n d => P n d).
Proof.
  intros Hst Hw. unfold Joybus.read_stop_bit.
  apply keeps_let_samplenum. intros stop_start.
  apply keeps_pre with (P := since b P stop_start);
    [| intros n d Hb [Hp Hx]; split; [exact Hp | lia]].
  apply keeps_post with (Q := fun _ => since b P stop_start); [| intros a n d [H _]; exact H].
  apply keeps_let_wait; [apply stable_since, Hst | intros si].
  apply keeps_putg. intros n d Hb [Hp Hx]. specialize (Hw n d Hp).
  unfold span_ok. cbn. split; [lia|]. split; [lia|]. intros Hc. congruence.
Qed.

Lemma keeps_data_loop (P : Pre) cls n :
  stable P ->
  keeps b P
    (for_range n
       (fun _ : unit =>
          sb <- Joybus.read_byte ;;
          now <- get_samplenum ;;
          Joybus.putg (fst sb) now cls (Joybus.data_texts (snd sb)))
       tt)
    (fun _ n d => P n d).
Proof.
  intros Hst. apply keeps_for_range. intros acc.
  eapply keeps_bind; [apply keeps_read_byte, Hst | intros sb].
  apply keeps_let_samplenum. intros now.
  apply keeps_post with (Q := fun _ n d => (P n d /\ b <= fst sb <= n) /\ now = n);
    [| intros a n' d [[H _] _]; exact H].
  apply keeps_putg. intros n' d Hb [[Hp Hx] Hn]. unfold span_ok. cbn. lia.
Qed.

Lemma stable_with_widths P d0 : stable P -> stable (with_widths P d0).
Proof.
  intros Hst n n' d s Hn [Hp Hw]. split; [apply (Hst n); assumption | exact Hw].
Qed.

Lemma keeps_command_rest command_start command :
  keeps b (since b widths command_start)
    (Joybus.command_rest command_start command) (fun _ _ _ => True).
Proof.
  pose proof (stable_since widths command_start stable_widths) as Hst.
  set (P := since b widths command_start) in *.
  apply keeps_post with (Q := fun _ => P); [| auto].
  unfold Joybus.command_rest.
  apply keeps_let_samplenum. intros now.
  eapply keeps_bind.
  { apply keeps_putg. intros n d Hb [[Hw Hx] Hn]. unfold span_ok. cbn. lia. }
  intros u. apply keeps_pre with (P := P); [| intros n d _ [H _]; exact H].
  destruct (lookup command Joybus.JOYBUS_COMMANDS) as [spec|]; [| apply keeps_raise].
  eapply keeps_bind; [apply keeps_data_loop, Hst | intros u1].
  apply keeps_let_self. intros d0.
  apply keeps_pre with (P := with_widths P d0);
    [| intros n d _ [[Hw Hx] ->]; split; [split; assumption | exact Hw]].
  apply keeps_post with (Q := fun _ => with_widths P d0); [| intros a n d [H _]; exact H].
  pose proof (stable_with_widths P d0 Hst) as Hst0.
  eapply keeps_bind;
    [apply keeps_read_stop_bit; [exact Hst0 | intros n d [_ [H _]]; exact H] | intros u2].
  apply keeps_let_wait; [exact Hst0 | intros si].
  destruct si; [apply keeps_raise|].
  eapply keeps_bind; [apply keeps_data_loop, Hst0 | intros u3].
  eapply keeps_bind;
    [apply keeps_read_stop_bit; [exact Hst0 | intros n d [_ [_ H]]; exact H] | intros u4].
  apply keeps_set_state, Hst0.
Qed.

Lemma keeps_command_try :
  keeps b widths Joybus.command_try (fun _ _ _ => True).
Proof.
  unfold Joybus.command_try.
  eapply keeps_bind; [apply keeps_read_byte, stable_widths | intros sb].
  apply keeps_command_rest.
Qed.

End Keeps.

(** Whatever the signal, and whether the iteration returns or the capture
    ends in it: the cursor does not move back, and every annotation an
    iteration puts starts at or after the sample the iteration started at and
    does not end before it starts; the annotations of bits, bytes, commands
    and errors end at or before the cursor, those of stop bits at their
    nominal width. *)
Theorem annotations_in_samples_read (w : World Joybus.Decoder) :
  0 <= Joybus.bit_command_samples (self w) ->
  0 <= Joybus.bit_response_samples (self w) ->
  let w' := world_of (Joybus.decode_iteration w) in
  samplenum w <= samplenum w' /\
  exists evs,
    out w' = out w ++ evs /\
    Forall (fun a => samplenum w <= ss a /\ ss a <= es a /\
                     (ann_class a <> 4 -> es a <= samplenum w')) evs.
Proof.
  intros Hc Hr w'.
  assert (Hw : widths (samplenum w) (self w)) by (split; assumption).
  assert (Hg : grows (samplenum w) w w').
  { unfold w', Joybus.decode_iteration. unfold bind at 1, get_self at 1.
    destruct (Joybus.state (self w)) eqn:Hs.
    - match goal with
      | |- grows _ _ (world_of (?m w)) =>
          assert (K : keeps (samplenum w) widths m (fun _ => widths))
      end.
      { apply keeps_let_wait; [apply stable_widths | intros s1].
        apply keeps_let_wait; [apply stable_widths | intros si].
        destruct si; [apply keeps_set_state, stable_widths | apply keeps_ret]. }
      exact (proj1 (K w (Z.le_refl _) Hw)).
    - match goal with
      | |- grows _ _ (world_of (?m w)) =>
          assert (K : keeps (samplenum w) widths m (fun _ => widths))
      end.
      { apply keeps_let_wait; [apply stable_widths | intros s1].
        apply keeps_set_state, stable_widths. }
      exact (proj1 (K w (Z.le_refl _) Hw)).
    - rewrite command_branch_try.
      destruct (keeps_command_try (samplenum w) w ltac:(lia) Hw) as [Hg _].
      destruct (Joybus.command_try w) as [[] w1 | e w1 | w1]; cbn [world_of] in *;
        try exact Hg.
      rewrite on_exception_world. cbn [world_of].
      apply (grows_trans _ _ _ _ Hg).
      unfold grows. cbn [samplenum self out]. split; [lia|]. split; [eauto|].
      eexists. split; [reflexivity|]. constructor; [|constructor].
      unfold span_ok. cbn. destruct Hg as (Hn & _). lia. }
  destruct Hg as (Hn & _ & evs & Ho & Hp). split; [exact Hn|].
  exists evs. split; [exact Ho | exact Hp].
Qed.

(** * si/pd.py *)

(** ** The readers on the wire *)

Lemma si_read_bit_cell (w : World SI.Decoder) c rest :
  si_ok_cell c ->
  line w = cell_wire c ++ false :: rest ->
  SI.read_bit w
  = Ok (si_cell_bit (self w) c)
       (mkWorld (self w) (samplenum w + cell_len c) (false :: rest)
          (out w ++ si_bit_events (self w) (samplenum w) [c])).
Proof.
  intros [Hlo Hhi] Hl.
  unfold SI.read_bit. unfold bind at 1, get_samplenum at 1. unfold bind at 1.
  rewrite cell_wire_edge in Hl by lia.
  rewrite (wait_rising w _ _ Hlo Hl).
  unfold bind at 1, get_samplenum at 1. unfold bind at 1, get_self at 1.
  set (w1 := advance w (fst c) _).
  assert (Hl1 : line w1 = run true (snd c) ++ false :: rest).
  { unfold w1. cbn. rewrite (run_pos true (snd c)) by lia. reflexivity. }
  unfold bind at 1. rewrite (wait_falling w1 _ _ Hhi Hl1).
  unfold SI.put_bit, bind, get_samplenum, put, ret, advance, w1. cbn.
  replace (samplenum w + fst c - samplenum w) with (fst c) by lia.
  unfold si_cell_bit, cell_len. rewrite ?Z.add_assoc. reflexivity.
Qed.

Lemma si_cells_wire_low_ne cs tail :
  Forall si_ok_cell cs -> cs <> [] ->
  exists r, cells_wire cs ++ tail = false :: r.
Proof.
  intros H Hne. destruct H as [|c cs [Hlo _] _]; [congruence|].
  unfold cells_wire. cbn [flat_map]. unfold cell_wire at 1.
  rewrite (run_pos false (fst c)) by lia. cbn [app]. eauto.
Qed.

Lemma si_cells_wire_low cs rest :
  Forall si_ok_cell cs -> exists r, cells_wire cs ++ false :: rest = false :: r.
Proof.
  intros H. destruct cs as [|c cs]; [exists rest; reflexivity|].
  apply si_cells_wire_low_ne; [assumption | discriminate].
Qed.

Lemma si_read_bits_cells cs : forall (w : World SI.Decoder) acc rest,
  Forall si_ok_cell cs ->
  line w = cells_wire cs ++ false :: rest ->
  for_range (List.length cs)
    (fun byte_value => bit_value <- SI.read_bit ;; ret (Z.lor (Z.shiftl byte_value 1) bit_value))
    acc w
  = Ok (fold_left (fun byte_value bit_value => Z.lor (Z.shiftl byte_value 1) bit_value)
         (map (si_cell_bit (self w)) cs) acc)
       (mkWorld (self w) (samplenum w + cells_len cs) (false :: rest)
          (out w ++ si_bit_events (self w) (samplenum w) cs)).
Proof.
  induction cs as [|c cs IH]; intros w acc rest Hok Hl.
  - cbn in *. unfold ret. destruct w; cbn in *. subst.
    rewrite Z.add_0_r, app_nil_r. reflexivity.
  - inversion Hok as [|? ? Hc Hcs]; subst.
    destruct (si_cells_wire_low cs rest Hcs) as (r & Hr).
    assert (Hl' : line w = cell_wire c ++ false :: r).
    { rewrite Hl. unfold cells_wire. cbn [flat_map]. rewrite <- app_assoc.
      f_equal. exact Hr. }
    cbn [List.length for_range]. unfold bind at 1. unfold bind at 1.
    rewrite (si_read_bit_cell w c r Hc Hl'). unfold ret at 1.
    rewrite IH with (rest := rest); cbn [self samplenum line out]; auto.
    cbn [map fold_left si_bit_events cells_len fold_right].
    rewrite <- app_assoc. cbn [app].
    rewrite Z.add_assoc. reflexivity.
Qed.

Lemma si_read_byte_cells (w : World SI.Decoder) cs rest :
  si_ok_byte cs ->
  line w = cells_wire cs ++ false :: rest ->
  SI.read_byte w
  = Ok (samplenum w, si_cells_value (self w) cs)
       (mkWorld (self w) (samplenum w + cells_len cs) (false :: rest)
          (out w ++ si_bit_events (self w) (samplenum w) cs)).
Proof.
  intros [Hlen Hok] Hl.
  unfold SI.read_byte. unfold bind at 1, get_samplenum at 1. unfold bind at 1.
  rewrite <- Hlen.
  rewrite (si_read_bits_cells cs w 0 rest Hok Hl). reflexivity.
Qed.

Lemma si_bytes_wire_low bs rest :
  Forall si_ok_byte bs ->
  exists r, bytes_wire bs ++ false :: rest = false :: r.
Proof.
  intros H. destruct H as [|b bs [Hlen Hb] _].
  - exists rest. reflexivity.
  - unfold bytes_wire. cbn [flat_map]. rewrite <- app_assoc.
    apply si_cells_wire_low_ne; [exact Hb | intros ->; discriminate].
Qed.

Lemma si_read_bytes_cells cls bs : forall (w : World SI.Decoder) rest,
  Forall si_ok_byte bs ->
  line w = bytes_wire bs ++ false :: rest ->
  for_range (List.length bs)
    (fun _ : unit =>
       sb <- SI.read_byte ;;
       now <- get_samplenum ;;
       put (fst sb) now cls [("Data: 0x" ++ format_02X (snd sb))%string])
    tt w
  = Ok tt
       (mkWorld (self w) (samplenum w + bytes_len bs) (false :: rest)
          (out w ++ si_byte_events (self w) cls (samplenum w) bs)).
Proof.
  induction bs as [|b bs IH]; intros w rest Hok Hl.
  - cbn in *. unfold ret. destruct w; cbn in *. subst.
    rewrite Z.add_0_r, app_nil_r. reflexivity.
  - inversion Hok as [|? ? Hb Hbs]; subst.
    destruct (si_bytes_wire_low bs rest Hbs) as (r & Hr).
    assert (Hl' : line w = cells_wire b ++ false :: r).
    { rewrite Hl. unfold bytes_wire. cbn [flat_map]. rewrite <- app_assoc.
      f_equal. exact Hr. }
    cbn [List.length for_range]. unfold bind at 1. unfold bind at 1.
    rewrite (si_read_byte_cells w b r Hb Hl').
    unfold bind at 1, get_samplenum at 1, put at 1.
    cbn [self samplenum line out fst snd].
    rewrite IH with (rest := rest); cbn [self samplenum line out]; auto.
    cbn [si_byte_events bytes_len fold_right].
    rewrite <- !app_assoc. cbn [app].
    rewrite Z.add_assoc. reflexivity.
Qed.

Lemma si_read_stop_bit_edge (w : World SI.Decoder) k rest :
  1 <= k -> line w = run false k ++ true :: rest ->
  SI.read_stop_bit w
  = Ok tt (mkWorld (self w) (samplenum w + k) (true :: rest)
             (out w ++ [mkAnn (samplenum w) (samplenum w + k) 4 ["S"%string]])).
Proof.
  intros Hk Hl. unfold SI.read_stop_bit.
  unfold bind at 1, get_samplenum at 1. unfold bind at 1.
  rewrite (wait_rising w k rest Hk Hl). reflexivity.
Qed.

(** ** A whole exchange *)

Lemma si_command_branch_frame (w : World SI.Decoder) f tail :
  si_wf_frame (self w) f ->
  line w = frame_wire f ++ true :: tail ->
  SI.command_branch w
  = Ok tt
      (mkWorld (SI.with_state SI.IDLE (self w))
         (samplenum w + frame_len f) (true :: tail)
         (out w ++ si_frame_events (self w) (samplenum w) f)).
Proof.
  intros (Hop & Hcl & Hcd & Hcs & Hg & Hrl & Hrd & Hrs) Hl.
  set (v := si_cells_value (self w) (opcode f)) in *.
  set (t5 := run false (response_stop f - 1) ++ true :: tail).
  set (t3 := run true (gap f - 1) ++ bytes_wire (response_data f) ++ false :: t5).
  set (t2 := run false (command_stop f - 1) ++ true :: t3).
  assert (Hl0 : line w = cells_wire (opcode f) ++ bytes_wire (command_data f) ++ false :: t2).
  { rewrite Hl. unfold frame_wire, t2, t3, t5. rewrite <- !app_assoc.
    rewrite (run_low_start (command_stop f)), (run_high_start (gap f)),
      (run_low_start (response_stop f)) by lia.
    reflexivity. }
  destruct (si_bytes_wire_low (command_data f) t2 Hcd) as (r1 & Hr1).
  rewrite Hr1 in Hl0.
  unfold SI.command_branch. unfold bind at 1.
  rewrite (si_read_byte_cells w (opcode f) r1 Hop Hl0). cbn [fst snd]. fold v.
  unfold bind at 1. unfold SI.put_command at 1.
  unfold bind at 1, get_samplenum at 1, put at 1. cbn [self samplenum line out].
  (* command data bytes *)
  unfold bind at 1.
  set (w1 := mkWorld _ _ _ _).
  assert (Hloop1 :
    match lookup v SI.SI_COMMANDS with
    | Some spec =>
        for_range (Z.to_nat (command_len spec - 1))
          (fun _ : unit => db <- SI.read_byte ;; SI.put_command_data (fst db) (snd db)) tt
    | None => ret tt
    end w1
    = Ok tt (mkWorld (self w1) (samplenum w1 + bytes_len (command_data f)) (false :: t2)
               (out w1 ++ si_byte_events (self w1) 1 (samplenum w1) (command_data f)))).
  { rewrite <- (si_read_bytes_cells 1 (command_data f) w1 t2 Hcd)
      by (symmetry; exact Hr1).
    unfold si_data_lengths in Hcl. unfold SI.put_command_data.
    destruct (lookup v SI.SI_COMMANDS) as [spec|]; cbn [fst] in Hcl.
    - replace (Z.to_nat (command_len spec - 1)) with (List.length (command_data f)) by lia.
      reflexivity.
    - destruct (command_data f); [reflexivity | cbn in Hcl; lia]. }
  rewrite Hloop1. clear Hloop1.
  (* command stop bit and the start of the response *)
  unfold bind at 1.
  set (w2 := mkWorld _ _ _ _).
  assert (Hl2 : line w2 = run false (command_stop f) ++ true :: t3).
  { unfold w2, t2. cbn [line]. rewrite (run_low_start (command_stop f)) by lia.
    reflexivity. }
  rewrite (si_read_stop_bit_edge w2 (command_stop f) t3 Hcs Hl2).
  unfold bind at 1.
  set (w3 := mkWorld _ _ _ _).
  destruct (si_bytes_wire_low (response_data f) t5 Hrd) as (r3 & Hr3).
  assert (Hl3 : line w3 = run true (gap f) ++ false :: r3).
  { unfold w3, t3. cbn [line]. rewrite (run_high_start (gap f)) by lia.
    rewrite Hr3. reflexivity. }
  rewrite (wait_falling w3 (gap f) r3 Hg Hl3).
  (* response data bytes *)
  unfold bind at 1.
  set (w4 := advance w3 (gap f) _).
  assert (Hloop2 :
    match lookup v SI.SI_COMMANDS with
    | Some spec =>
        for_range (Z.to_nat (response_len spec))
          (fun _ : unit => rb <- SI.read_byte ;; SI.put_response_data (fst rb) (snd rb)) tt
    | None => ret tt
    end w4
    = Ok tt (mkWorld (self w4) (samplenum w4 + bytes_len (response_data f)) (false :: t5)
               (out w4 ++ si_byte_events (self w4) 2 (samplenum w4) (response_data f)))).
  { rewrite <- (si_read_bytes_cells 2 (response_data f) w4 t5 Hrd)
      by (symmetry; exact Hr3).
    unfold si_data_lengths in Hrl. unfold SI.put_response_data.
    destruct (lookup v SI.SI_COMMANDS) as [spec|]; cbn [snd] in Hrl.
    - replace (Z.to_nat (response_len spec)) with (List.length (response_data f)) by lia.
      reflexivity.
    - destruct (response_data f); [reflexivity | cbn in Hrl; lia]. }
  rewrite Hloop2. clear Hloop2.
  unfold bind at 1.
  set (w5 := mkWorld _ _ _ _).
  assert (Hl5 : line w5 = run false (response_stop f) ++ true :: tail).
  { unfold w5, t5. cbn [line]. rewrite (run_low_start (response_stop f)) by lia.
    reflexivity. }
  rewrite (si_read_stop_bit_edge w5 (response_stop f) tail Hrs Hl5).
  unfold SI.set_state, bind, get_self, set_self.
  unfold w5, w4, advance, w3, w2, w1, si_frame_events, frame_len.
  cbn [self samplenum line out]. fold v.
  repeat (rewrite <- ?app_assoc; cbn [app]).
  rewrite ?Z.add_assoc. reflexivity.
Qed.

Lemma si_idle_iteration (w : World SI.Decoder) k rest :
  SI.state (self w) = SI.IDLE ->
  1 <= k -> line w = run true k ++ false :: rest ->
  SI.decode_iteration w
  = Ok tt (mkWorld (SI.with_state SI.COMMAND (self w))
             (samplenum w + k) (false :: rest) (out w)).
Proof.
  intros Hs Hk Hl. unfold SI.decode_iteration.
  unfold bind at 1, get_self at 1. rewrite Hs.
  unfold bind at 1. rewrite (wait_falling w k rest Hk Hl). reflexivity.
Qed.

Lemma si_bit_events_with_state s d start cs :
  si_bit_events (SI.with_state s d) start cs = si_bit_events d start cs.
Proof.
  revert start. induction cs as [|c cs IH]; intros start; [reflexivity|].
  cbn [si_bit_events]. rewrite IH. reflexivity.
Qed.

Lemma si_byte_events_with_state s d cls start bs :
  si_byte_events (SI.with_state s d) cls start bs = si_byte_events d cls start bs.
Proof.
  revert start. induction bs as [|b bs IH]; intros start; [reflexivity|].
  cbn [si_byte_events]. rewrite IH, si_bit_events_with_state. reflexivity.
Qed.

Lemma si_frame_events_with_state s d start f :
  si_frame_events (SI.with_state s d) start f = si_frame_events d start f.
Proof.
  unfold si_frame_events.
  rewrite si_bit_events_with_state, !si_byte_events_with_state. reflexivity.
Qed.

Lemma si_idle_then_frame (w : World SI.Decoder) f k tail :
  SI.state (self w) = SI.IDLE ->
  1 <= k ->
  si_wf_frame (self w) f ->
  line w = run true k ++ frame_wire f ++ true :: tail ->
  SI.decode_loop 2 w
  = Ok tt (mkWorld (SI.with_state SI.IDLE (self w))
             (samplenum w + k + frame_len f) (true :: tail)
             (out w ++ si_frame_events (self w) (samplenum w + k) f)).
Proof.
  intros Hs Hk Hwf Hl.
  pose proof Hwf as (Hop & _).
  assert (exists r, frame_wire f ++ true :: tail = false :: r) as (r & Hr).
  { unfold frame_wire. rewrite <- app_assoc.
    apply si_cells_wire_low_ne; [apply Hop | destruct Hop as [Hlen _]; intros E].
    rewrite E in Hlen. discriminate. }
  rewrite Hr in Hl.
  cbn [SI.decode_loop]. unfold bind at 1.
  rewrite (si_idle_iteration w k r Hs Hk Hl).
  set (w1 := mkWorld _ _ _ _).
  unfold bind at 1.
  assert (Hc : SI.decode_iteration w1 = SI.command_branch w1) by reflexivity.
  rewrite Hc.
  rewrite (si_command_branch_frame w1 f tail Hwf) by (symmetry; exact Hr).
  unfold w1. cbn [self samplenum line out ret].
  rewrite si_frame_events_with_state. reflexivity.
Qed.

Lemma count_class_si_bit_events c d start cs :
  c <> 3 -> count_class c (si_bit_events d start cs) = 0%nat.
Proof.
  intros Hc. revert start. induction cs as [|x cs IH]; intros start; [reflexivity|].
  cbn [si_bit_events]. rewrite count_class_cons, IH. cbn [ann_class].
  destruct (Z.eqb_spec 3 c); [congruence | reflexivity].
Qed.

Lemma count_class_si_byte_events c d cls start bs :
  c <> 3 ->
  count_class c (si_byte_events d cls start bs)
  = if (cls =? c)%Z then List.length bs else 0%nat.
Proof.
  intros Hc. revert start. induction bs as [|b bs IH]; intros start.
  - destruct (cls =? c); reflexivity.
  - cbn [si_byte_events]. rewrite count_class_app, count_class_si_bit_events by assumption.
    rewrite count_class_cons, IH. cbn [ann_class List.length].
    destruct (cls =? c); reflexivity.
Qed.

Lemma count_class_si_frame_events c d start f :
  c <> 3 ->
  count_class c (si_frame_events d start f)
  = ((if (0 =? c)%Z then 1 else 0)
     + (if (1 =? c)%Z then List.length (command_data f) else 0)
     + (if (4 =? c)%Z then 2 else 0)
     + (if (2 =? c)%Z then List.length (response_data f) else 0))%nat.
Proof.
  intros Hc. unfold si_frame_events.
  repeat (rewrite ?count_class_app, ?count_class_cons,
           ?count_class_si_bit_events, ?count_class_si_byte_events by assumption).
  cbn [ann_class]. change (count_class c []) with 0%nat.
  destruct (0 =? c), (1 =? c), (4 =? c), (2 =? c); lia.
Qed.

(** si/pd.py on a frame of an opcode of its table, with pulses of any
    length: from [IDLE], two iterations put one command annotation,
    [command_len - 1] command data bytes, [response_len] response data
    bytes and two stop bits, each stop bit ending at its rising edge, and the
    decoder is in [IDLE] again. *)
Theorem si_frame_decoded (w : World SI.Decoder) spec f k tail :
  SI.state (self w) = SI.IDLE ->
  1 <= k ->
  si_wf_frame (self w) f ->
  lookup (si_cells_value (self w) (opcode f)) SI.SI_COMMANDS = Some spec ->
  line w = run true k ++ frame_wire f ++ true :: tail ->
  let evs := si_frame_events (self w) (samplenum w + k) f in
  SI.decode_loop 2 w
  = Ok tt (mkWorld (SI.with_state SI.IDLE (self w))
             (samplenum w + k + frame_len f) (true :: tail) (out w ++ evs)) /\
  count_class 0 evs = 1%nat /\
  Z.of_nat (count_class 1 evs) = command_len spec - 1 /\
  Z.of_nat (count_class 2 evs) = response_len spec /\
  count_class 4 evs = 2%nat /\
  count_class 5 evs = 0%nat.
Proof.
  intros Hs Hk Hwf Hspec Hl evs.
  split; [apply (si_idle_then_frame w f k tail Hs Hk Hwf Hl)|].
  destruct Hwf as (_ & Hcl & _ & _ & _ & Hrl & _).
  unfold si_data_lengths in Hcl, Hrl. rewrite Hspec in Hcl, Hrl. cbn [fst snd] in Hcl, Hrl.
  unfold evs. rewrite !count_class_si_frame_events by lia. cbn [Z.eqb Pos.eqb].
  repeat split; try reflexivity; lia.
Qed.

(** si/pd.py treats an opcode its table does not have as a command without
    data and without response: after the eight bits it takes the next pulse
    for the command's stop bit and the one after it for the response's, puts
    a command annotation with the opcode in hexadecimal and the two stop
    bits, no error, and goes to [IDLE]. *)
Theorem si_unknown_opcode_is_bare_command (w : World SI.Decoder) op a g c k tail :
  SI.state (self w) = SI.IDLE ->
  1 <= k ->
  si_ok_byte op ->
  lookup (si_cells_value (self w) op) SI.SI_COMMANDS = None ->
  1 <= a -> 1 <= g -> 1 <= c ->
  line w = run true k ++ cells_wire op ++ run false a ++ run true g
             ++ run false c ++ true :: tail ->
  let start := samplenum w + k in
  let p := start + cells_len op in
  SI.decode_loop 2 w
  = Ok tt (mkWorld (SI.with_state SI.IDLE (self w))
             (p + a + g + c) (true :: tail)
             (out w ++ si_bit_events (self w) start op
                ++ [mkAnn start p 0
                      [("Command: 0x" ++ format_02X (si_cells_value (self w) op))%string];
                    mkAnn p (p + a) 4 ["S"%string];
                    mkAnn (p + a + g) (p + a + g + c) 4 ["S"%string]])).
Proof.
  intros Hs Hk Hop Hnone Ha Hg Hc Hl start p.
  set (f := mkFrame op [] a g [] c).
  assert (Hwf : si_wf_frame (self w) f).
  { unfold si_wf_frame, f, si_data_lengths.
    cbn [opcode command_data command_stop gap response_data response_stop].
    rewrite Hnone. cbn [fst snd List.length].
    split; [exact Hop|]. repeat split; auto. }
  assert (Hl' : line w = run true k ++ frame_wire f ++ true :: tail).
  { rewrite Hl. unfold frame_wire, f.
    cbn [opcode command_data command_stop gap response_data response_stop bytes_wire
         flat_map app].
    rewrite <- !app_assoc. reflexivity. }
  rewrite (si_idle_then_frame w f k tail Hs Hk Hwf Hl').
  unfold si_frame_events, frame_len, f, SI.command_name.
  cbn [opcode command_data command_stop gap response_data response_stop
       bytes_len fold_right si_byte_events app].
  rewrite Hnone. unfold p, start.
  rewrite ?Z.add_0_r. repeat (rewrite <- ?app_assoc; cbn [app]).
  rewrite ?Z.add_assoc. reflexivity.
Qed.

(** ** No way back *)

Lemma si_local_quiet {A} (m : M SI.Decoder A) :
  (forall w, out (world_of (m w)) = out w /\ forall e w', m w <> Raise e w') ->
  si_local m.
Proof.
  intros H w. destruct (H w) as [Ho Hr]. split; [exact Hr|].
  exists []. rewrite app_nil_r. auto.
Qed.

Lemma si_local_ret {A} (a : A) : si_local (ret a).
Proof. apply si_local_quiet. intros w. split; [reflexivity | discriminate]. Qed.

Lemma si_local_get_samplenum : si_local get_samplenum.
Proof. apply si_local_quiet. intros w. split; [reflexivity | discriminate]. Qed.

Lemma si_local_get_self : si_local get_self.
Proof. apply si_local_quiet. intros w. split; [reflexivity | discriminate]. Qed.

Lemma si_local_set_state s : si_local (SI.set_state s).
Proof. apply si_local_quiet. intros w. split; [reflexivity | discriminate]. Qed.

Lemma si_local_wait conds : si_local (wait conds).
Proof.
  apply si_local_quiet. intros w. split; [|intros e w'; apply wait_never_raises].
  destruct (wait conds w) as [s w' | e w' | w'] eqn:E; cbn [world_of].
  - destruct (wait_inv _ _ _ _ E) as (i & old & rest & _ & _ & _ & _ & _ & _ & _ & Ho).
    exact Ho.
  - destruct (wait_never_raises _ _ _ _ E).
  - destruct (wait_eof_inv _ _ _ E) as (_ & _ & Ho). exact Ho.
Qed.

Lemma si_local_put ss es cls txt :
  cls <> 5 -> si_local (put ss es cls txt).
Proof.
  intros Hc w. split; [discriminate|]. cbn. eexists. split; [reflexivity|].
  constructor; [exact Hc | constructor].
Qed.

Lemma si_local_bind {A B} (m : M SI.Decoder A) (k : A -> M SI.Decoder B) :
  si_local m -> (forall a, si_local (k a)) -> si_local (bind m k).
Proof.
  intros Hm Hk w. destruct (Hm w) as (Hr1 & evs1 & Ho1 & Hp1). unfold bind.
  destruct (m w) as [a w1 | e w1 | w1] eqn:E; cbn [world_of] in Ho1.
  - destruct (Hk a w1) as (Hr2 & evs2 & Ho2 & Hp2). split; [exact Hr2|].
    exists (evs1 ++ evs2). rewrite Ho2, Ho1, app_assoc. split; [reflexivity|].
    apply Forall_app; auto.
  - destruct (Hr1 e w1 eq_refl).
  - split; [discriminate|]. exists evs1. auto.
Qed.

Lemma si_local_for_range {A} n (body : A -> M SI.Decoder A) :
  (forall a, si_local (body a)) -> forall acc, si_local (for_range n body acc).
Proof.
  intros Hb. induction n as [|n IH]; intros acc; cbn [for_range].
  - apply si_local_ret.
  - apply si_local_bind; auto.
Qed.

Lemma si_local_read_bit : si_local SI.read_bit.
Proof.
  unfold SI.read_bit, SI.put_bit.
  apply si_local_bind; [apply si_local_get_samplenum | intros bit_start].
  apply si_local_bind; [apply si_local_wait | intros _].
  apply si_local_bind; [apply si_local_get_samplenum | intros now].
  apply si_local_bind; [apply si_local_get_self | intros d].
  apply si_local_bind; [apply si_local_wait | intros _].
  apply si_local_bind; [| intros; apply si_local_ret].
  apply si_local_bind; [apply si_local_get_samplenum | intros now'].
  apply si_local_put. lia.
Qed.

Lemma si_local_read_byte : si_local SI.read_byte.
Proof.
  unfold SI.read_byte.
  apply si_local_bind; [apply si_local_get_samplenum | intros byte_start].
  apply si_local_bind; [| intros; apply si_local_ret].
  apply si_local_for_range. intros acc.
  apply si_local_bind; [apply si_local_read_bit | intros; apply si_local_ret].
Qed.

Lemma si_local_read_stop_bit : si_local SI.read_stop_bit.
Proof.
  unfold SI.read_stop_bit, SI.put_stop_bit.
  apply si_local_bind; [apply si_local_get_samplenum | intros stop_start].
  apply si_local_bind; [apply si_local_wait | intros _].
  apply si_local_bind; [apply si_local_get_samplenum | intros now].
  apply si_local_put. lia.
Qed.

Lemma si_local_command_branch : si_local SI.command_branch.
Proof.
  unfold SI.command_branch, SI.put_command, SI.put_command_data, SI.put_response_data.
  apply si_local_bind; [apply si_local_read_byte | intros sb]. cbv zeta.
  apply si_local_bind.
  { apply si_local_bind; [apply si_local_get_samplenum | intros now].
    apply si_local_put. lia. }
  intros _. apply si_local_bind.
  { destruct (lookup (snd sb) SI.SI_COMMANDS); [| apply si_local_ret].
    apply si_local_for_range. intros _.
    apply si_local_bind; [apply si_local_read_byte | intros db].
    apply si_local_bind; [apply si_local_get_samplenum | intros now].
    apply si_local_put. lia. }
  intros _. apply si_local_bind; [apply si_local_read_stop_bit | intros _].
  apply si_local_bind; [apply si_local_wait | intros _].
  apply si_local_bind.
  { destruct (lookup (snd sb) SI.SI_COMMANDS); [| apply si_local_ret].
    apply si_local_for_range. intros _.
    apply si_local_bind; [apply si_local_read_byte | intros rb].
    apply si_local_bind; [apply si_local_get_samplenum | intros now].
    apply si_local_put. lia. }
  intros _. apply si_local_bind; [apply si_local_read_stop_bit | intros _].
  apply si_local_set_state.
Qed.

Lemma si_local_decode_iteration : si_local SI.decode_iteration.
Proof.
  unfold SI.decode_iteration.
  apply si_local_bind; [apply si_local_get_self | intros d].
  destruct (SI.state d).
  - apply si_local_bind; [apply si_local_wait | intros _].
    apply si_local_bind; [apply si_local_wait | intros si].
    destruct si; [apply si_local_set_state | apply si_local_ret].
  - apply si_local_bind; [apply si_local_wait | intros _].
    apply si_local_set_state.
  - apply si_local_command_branch.
Qed.

Lemma si_command_branch_ok_state (w w' : World SI.Decoder) :
  SI.command_branch w = Ok tt w' -> SI.state (self w') = SI.IDLE.
Proof.
  unfold SI.command_branch. intros H.
  apply bind_ok_inv in H. destruct H as (sb & w1 & _ & H). cbv zeta in H.
  apply bind_ok_inv in H. destruct H as (u1 & w2 & _ & H).
  apply bind_ok_inv in H. destruct H as (u2 & w3 & _ & H).
  apply bind_ok_inv in H. destruct H as (u3 & w4 & _ & H).
  apply bind_ok_inv in H. destruct H as (u4 & w5 & _ & H).
  apply bind_ok_inv in H. destruct H as (u5 & w6 & _ & H).
  apply bind_ok_inv in H. destruct H as (u6 & w7 & _ & H).
  cbn in H. injection H as <-. reflexivity.
Qed.

(** si/pd.py has no way back: whatever the signal, an iteration raises
    nothing and puts no error annotation, and once the decoder has left
    [INITIAL] no iteration takes it there again, so a frame that goes wrong
    is never followed by a wait for an idle bus. *)
Theorem si_never_resynchronises (w : World SI.Decoder) :
  (forall e w', SI.decode_iteration w <> Raise e w') /\
  (exists evs,
      out (world_of (SI.decode_iteration w)) = out w ++ evs /\
      count_class 5 evs = 0%nat) /\
  (forall w',
      SI.decode_iteration w = Ok tt w' ->
      SI.state (self w) <> SI.INITIAL ->
      SI.state (self w') <> SI.INITIAL).
Proof.
  destruct (si_local_decode_iteration w) as (Hr & evs & Ho & Hp).
  split; [exact Hr|]. split.
  - exists evs. split; [exact Ho | apply count_class_not_error, Hp].
  - unfold SI.decode_iteration. unfold bind at 1, get_self at 1.
    intros w' H Hs. destruct (SI.state (self w)) eqn:E; [congruence | |].
    + apply bind_ok_inv in H. destruct H as (s1 & w1 & _ & H).
      cbn in H. injection H as <-. cbn. discriminate.
    + rewrite (si_command_branch_ok_state _ _ H). discriminate.
Qed.

(** * The two decoders on the same signal *)

(** si/pd.py's table is a part of joybus/pd.py's. *)
Lemma si_table_in_joybus_table v spec :
  lookup v SI.SI_COMMANDS = Some spec ->
  lookup v Joybus.JOYBUS_COMMANDS = Some spec.
Proof.
  unfold SI.SI_COMMANDS. cbn [lookup].
  repeat match goal with
         | |- context [v =? ?k] =>
             destruct (Z.eqb_spec v k) as [-> | ?]; [intros H; exact H |]
         end.
  discriminate.
Qed.

Lemma filter_not_stop_cons a l :
  filter not_stop (a :: l)
  = if ann_class a =? 4 then filter not_stop l else a :: filter not_stop l.
Proof. cbn [filter]. unfold not_stop. destruct (ann_class a =? 4); reflexivity. Qed.

Section Agree.

Variable dj : Joybus.Decoder.
Variable ds : SI.Decoder.
Hypothesis midpoints : Joybus.bit_midpoint_samples dj = SI.low_midpoint_samples ds.

Lemma cell_bit_agree c : cell_bit dj c = si_cell_bit ds c.
Proof. unfold cell_bit, si_cell_bit, Joybus.bit_value_of. rewrite midpoints. reflexivity. Qed.

Lemma cells_value_agree cs : cells_value dj cs = si_cells_value ds cs.
Proof.
  unfold cells_value, si_cells_value. f_equal.
  apply map_ext. exact cell_bit_agree.
Qed.

Lemma bit_events_agree cs : forall start,
  map si_view (filter not_stop (bit_events dj start cs))
  = filter not_stop (si_bit_events ds start cs).
Proof.
  induction cs as [|c cs IH]; intros start; [reflexivity|].
  cbn [bit_events si_bit_events]. rewrite !filter_not_stop_cons.
  cbn [ann_class]. change (3 =? 4) with false. cbv iota.
  cbn [map]. rewrite IH, cell_bit_agree. reflexivity.
Qed.

Lemma byte_events_agree cls bs : cls <> 4 -> forall start,
  map si_view (filter not_stop (byte_events dj cls start bs))
  = filter not_stop (si_byte_events ds cls start bs).
Proof.
  intros Hc. induction bs as [|b bs IH]; intros start; [reflexivity|].
  cbn [byte_events si_byte_events].
  rewrite !filter_app, map_app, bit_events_agree. f_equal.
  rewrite !filter_not_stop_cons. cbn [ann_class].
  destruct (Z.eqb_spec cls 4) as [E|_]; [destruct (Hc E)|]. cbn [map].
  rewrite IH, cells_value_agree. reflexivity.
Qed.

Lemma ok_byte_si b : ok_byte dj b -> si_ok_byte b.
Proof.
  intros [Hl Hc]. split; [exact Hl|].
  eapply Forall_impl; [|exact Hc]. intros c [H1 H2]. split; lia.
Qed.

Lemma frame_events_agree start f :
  Joybus.command_name (cells_value dj (opcode f))
  = SI.command_name (si_cells_value ds (opcode f)) ->
  map si_view (filter not_stop (frame_events dj start f))
  = filter not_stop (si_frame_events ds start f).
Proof.
  intros Hn. unfold frame_events, si_frame_events, command_event, stop_event. cbv zeta.
  rewrite !filter_app, map_app, bit_events_agree. f_equal.
  rewrite !filter_not_stop_cons. cbn [ann_class].
  change (0 =? 4) with false. cbv iota.
  rewrite !filter_app. rewrite !filter_not_stop_cons. cbn [ann_class].
  change (4 =? 4) with true. cbv iota.
  rewrite !filter_app. rewrite !filter_not_stop_cons. cbn [ann_class].
  change (4 =? 4) with true. cbv iota. cbn [filter].
  cbn [map]. rewrite !map_app.
  rewrite (byte_events_agree 1), (byte_events_agree 2) by lia.
  unfold si_view at 1. cbn [ss es ann_class texts firstn].
  rewrite Hn, !app_nil_r. reflexivity.
Qed.

Lemma wf_frame_si spec f :
  wf_frame dj spec f ->
  lookup (cells_value dj (opcode f)) SI.SI_COMMANDS <> None ->
  si_wf_frame ds f.
Proof.
  intros (Hop & Hlk & Hcl & Hcd & Hcs & Hg & Hrl & Hrd & Hrs) Hin.
  destruct (lookup (cells_value dj (opcode f)) SI.SI_COMMANDS)
    as [spec'|] eqn:Hsi; [clear Hin | destruct (Hin eq_refl)].
  pose proof (si_table_in_joybus_table _ _ Hsi) as Hj.
  rewrite Hlk in Hj. injection Hj as <-.
  unfold si_wf_frame, si_data_lengths. rewrite <- cells_value_agree, Hsi. cbn [fst snd].
  split; [exact (ok_byte_si _ Hop)|].
  split; [exact Hcl|].
  split; [eapply Forall_impl; [|exact Hcd]; intros b; apply ok_byte_si|].
  split; [exact Hcs|].
  split; [lia|].
  split; [exact Hrl|].
  split; [eapply Forall_impl; [|exact Hrd]; intros b; apply ok_byte_si|].
  exact Hrs.
Qed.

End Agree.

(** On a frame of an opcode that si/pd.py's table has, within the time
    limits of joybus/pd.py, the two decoders, set to the same midpoint and
    started at the same sample of the same signal, end at the same sample
    and put the same bits, command and data bytes over the same samples:
    apart from the stop bits, what joybus/pd.py puts is what si/pd.py puts,
    with further, shorter texts. *)
Theorem decoders_agree_on_frames
  (wj : World Joybus.Decoder) (ws : World SI.Decoder) spec f k tail :
  Joybus.state (self wj) = Joybus.IDLE ->
  SI.state (self ws) = SI.IDLE ->
  Joybus.bit_midpoint_samples (self wj) = SI.low_midpoint_samples (self ws) ->
  samplenum ws = samplenum wj ->
  line ws = line wj ->
  1 <= k ->
  wf_frame (self wj) spec f ->
  lookup (cells_value (self wj) (opcode f)) SI.SI_COMMANDS <> None ->
  line wj = run true k ++ frame_wire f ++ true :: tail ->
  exists wj' ws' ej es,
    Joybus.decode_loop 2 wj = Ok tt wj' /\
    SI.decode_loop 2 ws = Ok tt ws' /\
    samplenum ws' = samplenum wj' /\
    line ws' = line wj' /\
    out wj' = out wj ++ ej /\
    out ws' = out ws ++ es /\
    map si_view (filter not_stop ej) = filter not_stop es.
Proof.
  intros Hsj Hss Hm Hn Hl Hk Hwf Hin Hline.
  pose proof Hwf as (Hop & Hlk & Hcl & Hcd & Hcs & Hg & Hrl & Hrd & Hrs).
  destruct (lookup (cells_value (self wj) (opcode f)) SI.SI_COMMANDS)
    as [spec'|] eqn:Hsi; [clear Hin | destruct (Hin eq_refl)].
  pose proof (si_table_in_joybus_table _ _ Hsi) as Hj.
  rewrite Hlk in Hj. injection Hj as <-.
  pose proof (cells_value_agree _ _ Hm (opcode f)) as Hv.
  assert (Hswf : si_wf_frame (self ws) f).
  { apply (wf_frame_si (self wj) (self ws) Hm spec f Hwf). rewrite Hsi. discriminate. }
  rewrite <- Hl in Hline.
  pose proof (si_idle_then_frame ws f k tail Hss Hk Hswf Hline) as Es.
  rewrite Hl in Hline.
  pose proof (idle_then_frame wj spec f k tail Hsj Hk Hwf Hline) as Ej.
  eexists _, _, _, _.
  split; [exact Ej|]. split; [exact Es|].
  cbn [samplenum line out].
  split; [lia|]. split; [reflexivity|]. split; [reflexivity|]. split; [reflexivity|].
  rewrite Hn. apply frame_events_agree; [exact Hm|].
  unfold Joybus.command_name, SI.command_name. rewrite <- Hv, Hlk, Hsi. reflexivity.
Qed.

(** * The further theorems at concrete captures *)

Lemma poll_part_wf s : wf_part (Joybus.with_state s decoder_1MHz) poll_spec poll_part.
Proof.
  pose proof (timing_1MHz_valid s) as HT.
  split; [apply encode_byte_ok, HT|].
  split; [vm_compute; reflexivity|].
  split; [reflexivity|].
  split; [| cbn; lia].
  cbn [poll_part part_data map].
  apply Forall_cons; [apply encode_byte_ok, HT|].
  apply Forall_cons; [apply encode_byte_ok, HT | apply Forall_nil].
Qed.

Lemma si_info_frame_wf : si_wf_frame (self si_info_capture) info_frame.
Proof.
  apply (wf_frame_si (self info_capture) (self si_info_capture)
           ltac:(vm_compute; reflexivity) info_spec info_frame).
  - apply info_frame_wf.
  - vm_compute. discriminate.
Qed.

Lemma response_timeout_reported_witness :
  exists w' evs,
    Joybus.decode_iteration silent_capture = Ok tt w' /\
    Joybus.state (self w') = Joybus.INITIAL /\
    out w' = out silent_capture ++ evs /\
    count_class 2 evs = 0%nat /\
    count_class 5 evs = 1%nat.
Proof.
  assert (Hn : 0 <= Joybus.response_timeout_samples (self silent_capture))
    by (vm_compute; discriminate).
  assert (Hl : line silent_capture
               = part_wire poll_part
                   ++ run true (Joybus.response_timeout_samples (self silent_capture) + 1)
                   ++ [false]) by (vm_compute; reflexivity).
  destruct (response_timeout_reported silent_capture poll_spec poll_part [false]
              eq_refl Hn (poll_part_wf Joybus.COMMAND) Hl)
    as (Hd & _ & _ & H2 & _ & H5).
  eexists _, _. split; [exact Hd|]. split; [reflexivity|]. split; [reflexivity|].
  split; [exact H2 | exact H5].
Defined.


Lemma truncated_byte_reported_witness :
  exists w',
    Joybus.decode_iteration truncated_capture = Ok tt w' /\
    Joybus.state (self w') = Joybus.INITIAL.
Proof.
  assert (Hn : 0 <= Joybus.bit_timeout_samples (self truncated_capture))
    by (vm_compute; discriminate).
  assert (Hc : Forall (ok_cell (self truncated_capture)) [(3, 1); (1, 3); (3, 1)]).
  { unfold truncated_capture, capture. cbn [self]. rewrite decoder_1MHz_fields.
    repeat constructor; cbn; lia. }
  assert (Hlen : (List.length [(3, 1); (1, 3); (3, 1)] < 8)%nat) by (cbn; lia).
  assert (Hr : no_rise (Joybus.bit_timeout_samples (self truncated_capture))
                 (run false 11 ++ [true])).
  { exists [true]. vm_compute. reflexivity. }
  destruct (truncated_byte_reported truncated_capture [(3, 1); (1, 3); (3, 1)]
              (run false 11 ++ [true]) eq_refl Hn Hc Hlen eq_refl (or_introl Hr))
    as (w' & Hd & Hs & _).
  exists w'. split; assumption.
Defined.

Lemma frames_in_a_row_witness :
  exists w',
    Joybus.decode_loop 4 two_frames_capture = Ok tt w' /\
    count_class 0 (out w') = 2%nat /\
    count_class 4 (out w') = 4%nat /\
    count_class 5 (out w') = 0%nat.
Proof.
  assert (Hwf : Forall (wf_gap_frame (self two_frames_capture)) two_frames).
  { repeat constructor; cbn; try lia; exists info_spec; apply info_frame_wf. }
  destruct (frames_in_a_row two_frames two_frames_capture [true] eq_refl Hwf eq_refl)
    as (Hd & H0 & H4 & H5).
  eexists. split; [exact Hd|]. cbn [out]. cbn [two_frames_capture capture out app].
  split; [exact H0|]. split; [exact H4 | exact H5].
Defined.

Lemma start_in_traffic_witness :
  exists w',
    Joybus.decode_loop 6 traffic_capture = Ok tt w' /\
    Joybus.state (self w') = Joybus.IDLE /\
    line w' = true :: [true].
Proof.
  assert (Hn : 0 <= Joybus.idle_min_samples (self traffic_capture))
    by (vm_compute; discriminate).
  assert (Hk : 1 <= 3 <= Joybus.idle_min_samples (self traffic_capture))
    by (vm_compute; split; discriminate).
  assert (Hj : Forall (short_pulse (self traffic_capture)) [(1, 3); (3, 1)]).
  { unfold traffic_capture, capture. cbn [self]. rewrite decoder_1MHz_fields.
    repeat constructor; cbn; lia. }
  assert (Hl : line traffic_capture
               = run false 2 ++ run true 3 ++ cells_wire [(1, 3); (3, 1)] ++ run false 1
                   ++ run true (Joybus.idle_min_samples (self traffic_capture) + 4)
                   ++ frame_wire info_frame ++ true :: [true])
    by (vm_compute; reflexivity).
  eexists. split.
  - exact (start_in_traffic traffic_capture 2 3 [(1, 3); (3, 1)] 1 4 info_spec info_frame
             [true] eq_refl Hn ltac:(lia) Hk Hj ltac:(lia) ltac:(lia)
             (info_frame_wf Joybus.INITIAL) Hl).
  - split; reflexivity.
Defined.

Lemma iteration_transitions_witness :
  exists s,
    self (world_of (Joybus.decode_iteration unknown_frame_capture))
    = Joybus.with_state s (self unknown_frame_capture).
Proof.
  apply (iteration_transitions unknown_frame_capture
           (world_of (Joybus.decode_iteration unknown_frame_capture))).
  vm_compute. reflexivity.
Defined.

Lemma annotation_texts_identify_bytes_witness :
  Joybus.data_texts 0x40 <> Joybus.data_texts 0x41.
Proof.
  intros H.
  pose proof (proj1 (proj2 (annotation_texts_identify_bytes 0x40 0x41
                              ltac:(lia) ltac:(lia))) H) as E.
  discriminate E.
Defined.

Lemma annotations_in_samples_read_witness :
  samplenum unknown_frame_capture
  <= samplenum (world_of (Joybus.decode_iteration unknown_frame_capture)).
Proof.
  apply (annotations_in_samples_read unknown_frame_capture).
  - vm_compute. discriminate.
  - vm_compute. discriminate.
Defined.

Lemma si_frame_decoded_witness :
  exists w',
    SI.decode_loop 2 si_info_capture = Ok tt w' /\
    SI.state (self w') = SI.IDLE /\
    line w' = true :: [true].
Proof.
  eexists. split.
  - apply (si_frame_decoded si_info_capture info_spec info_frame 5 [true]).
    + reflexivity.
    + lia.
    + exact si_info_frame_wf.
    + vm_compute. reflexivity.
    + reflexivity.
  - split; reflexivity.
Defined.

Lemma si_unknown_opcode_witness :
  exists w',
    SI.decode_loop 2 si_unknown_capture = Ok tt w' /\
    SI.state (self w') = SI.IDLE /\
    count_class 5 (out w') = 0%nat.
Proof.
  assert (Hop : si_ok_byte (encode_byte timing_1MHz 0x77)).
  { apply (ok_byte_si decoder_1MHz).
    apply encode_byte_ok, (timing_1MHz_valid Joybus.INITIAL). }
  eexists. split.
  - apply (si_unknown_opcode_is_bare_command si_unknown_capture
             (encode_byte timing_1MHz 0x77) 1 3 2 5 [true]).
    + reflexivity.
    + lia.
    + exact Hop.
    + vm_compute. reflexivity.
    + lia.
    + lia.
    + lia.
    + reflexivity.
  - split; [reflexivity | vm_compute; reflexivity].
Defined.

Lemma decoders_agree_on_frames_witness :
  exists wj' ws',
    Joybus.decode_loop 2 info_capture = Ok tt wj' /\
    SI.decode_loop 2 si_info_capture = Ok tt ws' /\
    map si_view (filter not_stop (out wj')) = filter not_stop (out ws').
Proof.
  destruct (decoders_agree_on_frames info_capture si_info_capture info_spec info_frame
              5 [true] eq_refl eq_refl ltac:(vm_compute; reflexivity) eq_refl eq_refl
              ltac:(lia) (info_frame_wf Joybus.IDLE)
              ltac:(vm_compute; discriminate) eq_refl)
    as (wj' & ws' & ej & es & Hj & Hs & _ & _ & Hoj & Hos & Hv).
  exists wj', ws'. split; [exact Hj|]. split; [exact Hs|].
  rewrite Hoj, Hos. exact Hv.
Defined.
